(** * Constraint template import engine of the VAMS backend

    A shallow embedding of
    [backend/backend/handlers/auth/authConstraintsTemplateService.py] and of
    the template validator of [backend/backend/models/roleConstraints.py],
    with the properties of the import pipeline proved about it.

    Python [str] values are modelled by [string], one [ascii] per character:
    the characters are the code points below 256, and a character outside
    ASCII stands for its code point ([ascii_of_nat 233] is the letter e with
    an acute accent), not for a byte of an encoding.  On these characters
    the classes and maps of Python ([\w], [isspace], [lower]) are written
    out in full.  A Python [dict] is an association list in insertion
    order; a Python [set] of strings is a [gset string]. *)

From stdpp Require Import base gmap sets list strings sorting pretty.
From Stdlib Require Import Ascii Lia Sorted Permutation.

Set Warnings "-register-all".

(** ** Dynamic values *)

(** The JSON-like values the handler walks with [isinstance]. *)
Inductive value : Type :=
| VNone : value
| VBool : bool -> value
| VInt : Z -> value
| VStr : string -> value
| VList : list value -> value
| VDict : list (string * value) -> value.

Definition dict : Type := list (string * value).

(** [d.get(k)] *)
Fixpoint dict_get (k : string) (d : dict) : option value :=
  match d with
  | [] => None
  | (k', v) :: d' => if String.eqb k k' then Some v else dict_get k d'
  end.

(** ** Denormalized storage format *)

Record GroupPermission : Type := {
  gp_id : option string;
  groupId : option string;
  gp_permission : value;
  gp_permissionType : value
}.

Record UserPermission : Type := {
  up_id : option string;
  userId : option string;
  up_permission : value;
  up_permissionType : value
}.

(** Constraint data in API format.  A field read with [.get(key, default)]
    is optional; ['identifier'] is read with a subscript.  The grantee ids
    and the identifier are strings; the payload fields are values. *)
Record ConstraintData : Type := {
  identifier : string;
  name : option value;
  description : option value;
  objectType : option value;
  criteriaAnd : option value;
  criteriaOr : option value;
  groupPermissions : option (list GroupPermission);
  userPermissions : option (list UserPermission);
  dateCreated : option string;
  dateModified : option string;
  createdBy : option string;
  modifiedBy : option string
}.

(** The text [json.dumps] produces, kept as the value it serialises. *)
Inductive json_text (A : Type) : Type :=
| dumps : A -> json_text A.
Arguments dumps {A} _.

(** The fields every item of a constraint shares ([base_item]) *)
Record BaseItem : Type := {
  it_name : value;
  it_description : value;
  it_objectType : value;
  it_criteriaAnd : json_text value;
  it_criteriaOr : json_text value;
  it_groupPermissions : json_text (list GroupPermission);
  it_userPermissions : json_text (list UserPermission);
  it_dateCreated : string;
  it_dateModified : string;
  it_createdBy : string;
  it_modifiedBy : string
}.

(** One item of the ConstraintsStorageTable: a copy of the base item with
    its partition key ['constraintId'] and, for the indexes, ['groupId'] or
    ['userId']. *)
Record Item : Type := {
  base : BaseItem;
  constraintId : string;
  it_groupId : option string;
  it_userId : option string
}.

(** [x.get(key, default)] on an optional field *)
Definition get_default {A : Type} (o : option A) (d : A) : A :=
  match o with
  | Some a => a
  | None => d
  end.

(** Truth value of the result of [perm.get('groupId')]: [None] and the empty
    string are false. *)
Definition truthy (o : option string) : bool :=
  match o with
  | Some s => negb (String.eqb s "")
  | None => false
  end.

Definition group_key (base_constraint_id group_id : string) : string :=
  base_constraint_id +:+ "#group#" +:+ group_id.

Definition user_key (base_constraint_id user_id : string) : string :=
  base_constraint_id +:+ "#user#" +:+ user_id.

Section Denormalize.

(** The two readings of [datetime.utcnow().isoformat()] *)
Variables (now1 now2 : string).

Definition base_item (constraint_data : ConstraintData) : BaseItem :=
  {| it_name := get_default (name constraint_data) (VStr "");
     it_description := get_default (description constraint_data) (VStr "");
     it_objectType := get_default (objectType constraint_data) (VStr "");
     it_criteriaAnd := dumps (get_default (criteriaAnd constraint_data) (VList []));
     it_criteriaOr := dumps (get_default (criteriaOr constraint_data) (VList []));
     it_groupPermissions := dumps (get_default (groupPermissions constraint_data) []);
     it_userPermissions := dumps (get_default (userPermissions constraint_data) []);
     it_dateCreated := get_default (dateCreated constraint_data) now1;
     it_dateModified := now2;
     it_createdBy := get_default (createdBy constraint_data) "SYSTEM_USER";
     it_modifiedBy := get_default (modifiedBy constraint_data) "SYSTEM_USER" |}.

Definition group_item (b : BaseItem) (cid group_id : string) : Item :=
  {| base := b; constraintId := group_key cid group_id;
     it_groupId := Some group_id; it_userId := None |}.

Definition user_item (b : BaseItem) (cid user_id : string) : Item :=
  {| base := b; constraintId := user_key cid user_id;
     it_groupId := None; it_userId := Some user_id |}.

Definition bare_item (b : BaseItem) (cid : string) : Item :=
  {| base := b; constraintId := cid; it_groupId := None; it_userId := None |}.

(** One turn of a fan-out loop: the state is the set of ids seen and the
    items appended so far. *)
Definition fan_out_step (mk : string -> Item)
    (st : gset string * list Item) (grantee : option string)
    : gset string * list Item :=
  match grantee with
  | Some gid =>
      if truthy grantee && negb (bool_decide (gid ∈ st.1))
      then ({[gid]} ∪ st.1, st.2 ++ [mk gid])
      else st
  | None => st
  end.

Definition fan_out (mk : string -> Item) (grantees : list (option string))
    (items : list Item) : list Item :=
  (fold_left (fan_out_step mk) grantees (∅, items)).2.

Definition _transform_to_denormalized_format
    (constraint_data : ConstraintData) : list Item :=
  let base_constraint_id := identifier constraint_data in
  let b := base_item constraint_data in
  let group_permissions := get_default (groupPermissions constraint_data) [] in
  let items :=
    fan_out (group_item b base_constraint_id) (map groupId group_permissions) [] in
  let user_permissions := get_default (userPermissions constraint_data) [] in
  let items :=
    fan_out (user_item b base_constraint_id) (map userId user_permissions) items in
  if Nat.eqb (length items) 0
  then items ++ [bare_item b base_constraint_id]
  else items.

End Denormalize.

(** ** What the fan-out loops compute *)

(** The grantee ids a loop acts on: those that pass the truth test. *)
Definition grantee_ids (l : list (option string)) : list string :=
  omap (fun o => if truthy o then o else None) l.

(** First occurrences, in order, of the ids not yet in [seen]. *)
Fixpoint first_occurrences (seen : gset string) (l : list string) : list string :=
  match l with
  | [] => []
  | x :: l' =>
      if bool_decide (x ∈ seen) then first_occurrences seen l'
      else x :: first_occurrences ({[x]} ∪ seen) l'
  end.

(** The partition keys of a list of items. *)
Definition keys (items : list Item) : list string := map constraintId items.

(** A constraint in API format with the given grantees and nothing else. *)
Definition constraint_of_grantees (cid : string)
    (groups users : list (option string)) : ConstraintData :=
  {| identifier := cid;
     name := None; description := None; objectType := None;
     criteriaAnd := None; criteriaOr := None;
     groupPermissions :=
       Some (map (fun g => {| gp_id := None; groupId := g;
                              gp_permission := VStr "GET";
                              gp_permissionType := VStr "allow" |}) groups);
     userPermissions :=
       Some (map (fun u => {| up_id := None; userId := u;
                              up_permission := VStr "GET";
                              up_permissionType := VStr "allow" |}) users);
     dateCreated := None; dateModified := None;
     createdBy := None; modifiedBy := None |}.

(** ** Python string operations *)

(** [s.startswith(p)] *)
Fixpoint startswith (p s : string) : bool :=
  match p, s with
  | "", _ => true
  | String _ _, "" => false
  | String a p', String b s' => Ascii.eqb a b && startswith p' s'
  end.

(** [sub in s] *)
Fixpoint contains (sub s : string) : bool :=
  startswith sub s ||
  match s with
  | "" => false
  | String _ s' => contains sub s'
  end.

(** Scan of [s.replace(old, new)] for a non-empty [old]: [skip] counts the
    characters of the current match that are still to be passed over. *)
Fixpoint replace_from (old new : string) (skip : nat) (s : string) : string :=
  match s with
  | "" => ""
  | String c s' =>
      match skip with
      | S k => replace_from old new k s'
      | 0 =>
          if startswith old s
          then new +:+ replace_from old new (String.length old - 1) s'
          else String c (replace_from old new 0 s')
      end
  end.

(** [s.replace("", new)] puts [new] before every character and at the end. *)
Fixpoint replace_empty (new s : string) : string :=
  match s with
  | "" => new
  | String c s' => new +:+ String c (replace_empty new s')
  end.

(** [s.replace(old, new)]: every non-overlapping occurrence, left to right. *)
Definition str_replace (old new s : string) : string :=
  match old with
  | "" => replace_empty new s
  | String _ _ => replace_from old new 0 s
  end.

(** [sep.join(l)] *)
Fixpoint join (sep : string) (l : list string) : string :=
  match l with
  | [] => ""
  | [x] => x
  | x :: l' => x +:+ sep +:+ join sep l'
  end.

(** [sorted(s)] of a set of strings: the elements in lexicographic order of
    their code points. *)
Definition sorted (s : gset string) : list string :=
  merge_sort String.le (elements s).

(** ** Variable substitution *)

(** The placeholder of a variable *)
Definition placeholder (var_name : string) : string :=
  "{{" +:+ var_name +:+ "}}".

(** [replace_in_string] of [substitute_variables], on a string; the values
    of [var_values] are taken in their [str()] form. *)
Definition replace_in_string (var_values : list (string * string)) (s : string)
    : string :=
  fold_left (fun s kv => str_replace (placeholder kv.1) kv.2 s) var_values s.

(** The element of a list inside a dictionary of a list: strings are
    replaced, anything else is kept. *)
Definition substitute_leaf (var_values : list (string * string)) (i : value)
    : value :=
  match i with
  | VStr s => VStr (replace_in_string var_values s)
  | _ => i
  end.

(** A value of a dictionary inside a list *)
Definition substitute_entry (var_values : list (string * string)) (v : value)
    : value :=
  match v with
  | VStr s => VStr (replace_in_string var_values s)
  | VList l => VList (map (substitute_leaf var_values) l)
  | _ => v
  end.

(** An item of a list-valued field of a constraint *)
Definition substitute_item (var_values : list (string * string)) (item : value)
    : value :=
  match item with
  | VDict d => VDict (map (fun kv => (kv.1, substitute_entry var_values kv.2)) d)
  | VStr s => VStr (replace_in_string var_values s)
  | _ => item
  end.

(** A field of a constraint *)
Definition substitute_field (var_values : list (string * string)) (v : value)
    : value :=
  match v with
  | VStr s => VStr (replace_in_string var_values s)
  | VList l => VList (map (substitute_item var_values) l)
  | _ => v
  end.

Definition substitute_variables (constraints_data : list dict)
    (var_values : list (string * string)) : list dict :=
  map (fun constraint =>
         map (fun kv => (kv.1, substitute_field var_values kv.2)) constraint)
      constraints_data.

(** ** Scan for unreplaced variables *)

(** The class [\w] of a pattern on [str], compiled without [re.ASCII]: the
    characters [c] with [c.isalnum()] and the underscore.  Below 256 these
    are the digits, the letters and the underscore of ASCII, then the
    ordinal indicators (170, 186), the superscript digits (178, 179, 185),
    the micro sign (181), the fractions (188 to 190) and the letters of
    Latin-1 (192 to 255 without the multiplication and division signs 215
    and 247). *)
Definition is_word_char (c : ascii) : bool :=
  let n := nat_of_ascii c in
  (Nat.leb 48 n && Nat.leb n 57)
  || (Nat.leb 65 n && Nat.leb n 90)
  || (Nat.leb 97 n && Nat.leb n 122)
  || Nat.eqb n 95
  || Nat.eqb n 170
  || (Nat.leb 178 n && Nat.leb n 179)
  || Nat.eqb n 181
  || (Nat.leb 185 n && Nat.leb n 186)
  || (Nat.leb 188 n && Nat.leb n 190)
  || (Nat.leb 192 n && Nat.leb n 214)
  || (Nat.leb 216 n && Nat.leb n 246)
  || (Nat.leb 248 n && Nat.leb n 255).

(** The longest run of word characters at the head of [s] *)
Fixpoint word_run (s : string) : string :=
  match s with
  | "" => ""
  | String c s' => if is_word_char c then String c (word_run s') else ""
  end.

(** [s[n:]] *)
Fixpoint drop_chars (n : nat) (s : string) : string :=
  match n, s with
  | 0, _ => s
  | S _, "" => ""
  | S k, String _ s' => drop_chars k s'
  end.

(** A match of the pattern [\{\{(\w+)\}\}] at the head of [s]: the captured
    name.  The greedy [\w+] takes the whole run; a shorter one would be
    followed by a word character, never by a closing brace. *)
Definition match_placeholder (s : string) : option string :=
  if startswith "{{" s then
    let w := word_run (drop_chars 2 s) in
    if negb (Nat.eqb (String.length w) 0)
       && startswith "}}" (drop_chars (2 + String.length w) s)
    then Some w else None
  else None.

(** [pattern.findall(s)]: the non-overlapping matches, left to right;
    [skip] counts the characters of the current match still to pass. *)
Fixpoint findall_from (skip : nat) (s : string) : list string :=
  match s with
  | "" => []
  | String _ s' =>
      match skip with
      | S k => findall_from k s'
      | 0 =>
          match match_placeholder s with
          | Some w => w :: findall_from (String.length w + 3) s'
          | None => findall_from 0 s'
          end
      end
  end.

Definition findall (s : string) : list string := findall_from 0 s.

(** [scan_value], returning the names it adds to [unreplaced] *)
Fixpoint scan_value (v : value) : gset string :=
  match v with
  | VStr s => list_to_set (findall s)
  | VList l => ⋃ (map scan_value l)
  | VDict d => ⋃ (map (fun kv => scan_value kv.2) d)
  | _ => ∅
  end.

Definition find_unreplaced_variables (constraints_data : list dict) : gset string :=
  ⋃ (map (fun constraint => ⋃ (map (fun kv => scan_value kv.2) constraint))
       constraints_data).

(** ** Effects: identifiers, clock, role registry, storage, log *)

Inductive exn : Type :=
| KeyError (key : string)
| TypeError (msg : string)
| ValueError (msg : string)
| VAMSGeneralErrorResponse (msg : string)
| ClientError (msg : string).

(** What [roles_table.get_item] does for a role name *)
Inductive get_item_result : Type :=
| ItemFound
| ItemMissing
| GetItemRaises (e : string).

(** What a [batch_writer] block does: all its items are put, or the first
    [flushed] ones are and the flush that follows raises. *)
Inductive batch_result : Type :=
| BatchOk
| BatchFails (flushed : nat) (e : string).

(** The collaborators of one invocation.  [uuid4 n] and [utcnow n] are the
    results of the n-th call of [uuid.uuid4()] and of
    [datetime.utcnow().isoformat()]; [batch n] is the fate of the n-th batch;
    [str_of] is [str()] on values that are not strings. *)
Record Env : Type := {
  uuid4 : nat -> string;
  utcnow : nat -> string;
  roles_table : option (string -> get_item_result);
  batch : nat -> batch_result;
  str_of : value -> string
}.

Inductive level : Type := INFO | WARNING | ERROR | AUDIT.

Definition log_record : Type := level * string.

(** What an invocation has consumed and written: the numbers of identifiers
    drawn, of clock readings and of batches, and the items put into the
    constraints table, in order. *)
Record Store : Type := {
  uuids : nat;
  ticks : nat;
  batches : nat;
  puts : list Item
}.

Definition initial_store : Store :=
  {| uuids := 0; ticks := 0; batches := 0; puts := [] |}.

Inductive outcome (A : Type) : Type :=
| Return : A -> outcome A
| Raise : exn -> outcome A.
Arguments Return {A} _.
Arguments Raise {A} _.

(** A computation returns or raises, changes the store and emits log
    records. *)
Definition M (A : Type) : Type := Store -> outcome A * Store * list log_record.

Definition ret {A : Type} (a : A) : M A := fun s => (Return a, s, []).

Definition raise {A : Type} (e : exn) : M A := fun s => (Raise e, s, []).

Definition bind {A B : Type} (m : M A) (k : A -> M B) : M B :=
  fun s =>
    match m s with
    | (Return a, s', l) =>
        match k a s' with
        | (o, s'', l') => (o, s'', l ++ l')
        end
    | (Raise e, s', l) => (Raise e, s', l)
    end.

Declare Scope py_scope.
Delimit Scope py_scope with py.
Notation "x <- m ;; k" := (bind m (fun x => k))
  (at level 100, m at next level, right associativity) : py_scope.
Notation "m ;;; k" := (bind m (fun _ => k))
  (at level 100, right associativity) : py_scope.

(** Lift a pure result that may be an exception. *)
Definition lift {A : Type} (o : outcome A) : M A := fun s => (o, s, []).

Definition new_uuid (env : Env) : M string :=
  fun s =>
    (Return (uuid4 env (uuids s)),
     {| uuids := S (uuids s); ticks := ticks s; batches := batches s;
        puts := puts s |},
     []).

Definition read_clock (env : Env) : M string :=
  fun s =>
    (Return (utcnow env (ticks s)),
     {| uuids := uuids s; ticks := S (ticks s); batches := batches s;
        puts := puts s |},
     []).

Definition log (l : level) (msg : string) : M unit :=
  fun s => (Return tt, s, [(l, msg)]).

(** [with constraints_table.batch_writer() as batch: for item in items:
    batch.put_item(Item=item)] *)
Definition batch_write (env : Env) (items : list Item) : M unit :=
  fun s =>
    match batch env (batches s) with
    | BatchOk =>
        (Return tt,
         {| uuids := uuids s; ticks := ticks s; batches := S (batches s);
            puts := puts s ++ items |},
         [])
    | BatchFails flushed e =>
        (Raise (ClientError e),
         {| uuids := uuids s; ticks := ticks s; batches := S (batches s);
            puts := puts s ++ take flushed items |},
         [])
    end.

(** [for x in l: body(x)], collecting the results *)
Fixpoint for_each {A B : Type} (body : A -> M B) (l : list A) : M (list B) :=
  match l with
  | [] => ret []
  | x :: l' => (y <- body x ;; ys <- for_each body l' ;; ret (y :: ys))%py
  end.

(** ** Role existence check *)

Definition validate_constraint_role_exists (env : Env) (group_id : string) : M bool :=
  match roles_table env with
  | None =>
      (log WARNING ("Roles table not configured, skipping role validation for "
                    +:+ group_id) ;;;
       ret true)%py
  | Some get_item =>
      match get_item group_id with
      | ItemFound => ret true
      | ItemMissing => ret false
      | GetItemRaises e =>
          (log WARNING ("Could not validate groupId '" +:+ group_id +:+ "': " +:+ e) ;;;
           ret true)%py
      end
  end.

(** ** Building the API payload *)

(** [for x in v] *)
Definition py_iter (v : value) : outcome (list value) :=
  match v with
  | VList l => Return l
  | VStr s => Return (map (fun c => VStr (String c "")) (String.list_ascii_of_string s))
  | VDict d => Return (map (fun kv => VStr kv.1) d)
  | _ => Raise (TypeError "object is not iterable")
  end.

(** [v[key]] for a string key *)
Definition subscript (v : value) (key : string) : outcome value :=
  match v with
  | VDict d =>
      match dict_get key d with
      | Some x => Return x
      | None => Raise (KeyError key)
      end
  | _ => Raise (TypeError "indices must be integers")
  end.

(** The caller's claims *)
Record Claims : Type := { tokens : list string }.

Definition username_of (claims_and_roles : Claims) : string :=
  match tokens claims_and_roles with
  | t :: _ => t
  | [] => "system"
  end.

Definition build_group_permission (env : Env) (role_name : string) (perm : value)
    : M GroupPermission :=
  (id <- new_uuid env ;;
   action <- lift (subscript perm "action") ;;
   type <- lift (subscript perm "type") ;;
   ret {| gp_id := Some id; groupId := Some role_name;
          gp_permission := action; gp_permissionType := type |})%py.

Definition build_constraint_data (env : Env) (constraint : dict)
    (role_name : string) (claims_and_roles : Claims) : M ConstraintData :=
  (constraint_id <- new_uuid env ;;
   now <- read_clock env ;;
   let username := username_of claims_and_roles in
   perms <- lift (py_iter (get_default (dict_get "groupPermissions" constraint)
                                       (VList []))) ;;
   group_permissions <- for_each (build_group_permission env role_name) perms ;;
   name_ <- lift (subscript (VDict constraint) "name") ;;
   description_ <- lift (subscript (VDict constraint) "description") ;;
   objectType_ <- lift (subscript (VDict constraint) "objectType") ;;
   ret {| identifier := constraint_id;
          name := Some name_;
          description := Some description_;
          objectType := Some objectType_;
          criteriaAnd := Some (get_default (dict_get "criteriaAnd" constraint) (VList []));
          criteriaOr := Some (get_default (dict_get "criteriaOr" constraint) (VList []));
          groupPermissions := Some group_permissions;
          userPermissions := Some [];
          dateCreated := Some now;
          dateModified := Some now;
          createdBy := Some username;
          modifiedBy := Some username |})%py.

(** ** Template import request model *)

Record ConstraintCriteriaModel : Type := {
  field : string;
  operator : string;
  crit_value : string + list string
}.

Record TemplateVariableDefinition : Type := {
  var_name : string;
  var_required : option bool;
  var_description : option string;
  var_default : option string
}.

(** [type_] is [None] when the template leaves ["type"] unset: the model
    attribute is then the default ["allow"], and the dictionary made with
    [exclude_unset=True] has no ["type"] key. *)
Record TemplateConstraintPermission : Type := {
  action : string;
  type_ : option string
}.

(** An optional list left unset is [None]. *)
Record TemplateConstraintDefinition : Type := {
  tc_name : string;
  tc_description : string;
  tc_objectType : string;
  tc_criteriaAnd : option (list ConstraintCriteriaModel);
  tc_criteriaOr : option (list ConstraintCriteriaModel);
  tc_groupPermissions : list TemplateConstraintPermission
}.

Record TemplateMetadata : Type := {
  tm_name : string;
  tm_description : option string;
  tm_version : option string
}.

(** The fields of [ImportConstraintsTemplateRequestModel] after the
    field-level checks; [variableValues] maps names to strings. *)
Record ImportConstraintsTemplateRequestModel : Type := {
  template : option TemplateMetadata;
  variables : list TemplateVariableDefinition;
  variableValues : list (string * string);
  constraints : list TemplateConstraintDefinition
}.

Record ImportConstraintsTemplateResponseModel : Type := {
  success_ : bool;
  message : string;
  constraintsCreated : nat;
  constraintIds : list string;
  timestamp : string
}.

(** [d.get(k)] on the variable map *)
Fixpoint var_get (k : string) (d : list (string * string)) : option string :=
  match d with
  | [] => None
  | (k', v) :: d' => if String.eqb k k' then Some v else var_get k d'
  end.

(** [d[k] = v] on the variable map: the value of an existing key is
    replaced in place, a new key goes to the end. *)
Fixpoint var_set (k v : string) (d : list (string * string)) : list (string * string) :=
  match d with
  | [] => [(k, v)]
  | (k', v') :: d' =>
      if String.eqb k k' then (k', v) :: d' else (k', v') :: var_set k v d'
  end.

(** ** Template validation *)

(** [common.constants] and [common.validators], which the validator
    imports: the closed vocabularies and the OBJECT_NAME check. *)
Record Vocabulary : Type := {
  ALLOWED_CONSTRAINT_PERMISSIONS : list string;
  ALLOWED_CONSTRAINT_PERMISSION_TYPES : list string;
  ALLOWED_CONSTRAINT_OBJECT_TYPES : list string;
  ALLOWED_CONSTRAINT_OPERATORS : list string;
  validate_object_name : string -> string -> bool * string
}.

(** [x in l] on a list of strings *)
Definition mem (x : string) (l : list string) : bool :=
  existsb (String.eqb x) l.

(** [str()] of an optional string *)
Definition str_of_option (o : option string) : string :=
  match o with
  | Some s => s
  | None => "None"
  end.

(** The loop over the declared variables; it back-fills defaults into
    [variable_values]. *)
Fixpoint check_variables (vars : list TemplateVariableDefinition)
    (variable_values : list (string * string))
    : outcome (list (string * string)) :=
  match vars with
  | [] => Return variable_values
  | var_def :: vars' =>
      if get_default (var_required var_def) false
         && negb (bool_decide (is_Some (var_get (var_name var_def) variable_values)))
      then
        match var_default var_def with
        | Some d =>
            check_variables vars' (var_set (var_name var_def) d variable_values)
        | None =>
            Raise (ValueError
                     ("Required variable '" +:+ var_name var_def
                      +:+ "' not provided in variableValues. "
                      +:+ "Description: " +:+ str_of_option (var_description var_def)))
        end
      else check_variables vars' variable_values
  end.

(** The first element of [l] for which [check] raises *)
Fixpoint first_error {A : Type} (check : A -> option exn) (l : list A) : option exn :=
  match l with
  | [] => None
  | x :: l' =>
      match check x with
      | Some e => Some e
      | None => first_error check l'
      end
  end.

Definition check_criteria (voc : Vocabulary) (criteria : ConstraintCriteriaModel)
    : option exn :=
  if negb (mem (operator criteria) (ALLOWED_CONSTRAINT_OPERATORS voc))
  then Some (ValueError ("Invalid operator '" +:+ operator criteria +:+ "'. "
                         +:+ "Allowed: "
                         +:+ join ", " (ALLOWED_CONSTRAINT_OPERATORS voc)))
  else None.

Definition check_permission (voc : Vocabulary) (perm : TemplateConstraintPermission)
    : option exn :=
  if negb (mem (action perm) (ALLOWED_CONSTRAINT_PERMISSIONS voc))
  then Some (ValueError ("Invalid permission action '" +:+ action perm +:+ "'. "
                         +:+ "Allowed: "
                         +:+ join ", " (ALLOWED_CONSTRAINT_PERMISSIONS voc)))
  else if negb (mem (get_default (type_ perm) "allow")
                      (ALLOWED_CONSTRAINT_PERMISSION_TYPES voc))
  then Some (ValueError ("Invalid permission type '"
                         +:+ get_default (type_ perm) "allow" +:+ "'. "
                         +:+ "Allowed: "
                         +:+ join ", " (ALLOWED_CONSTRAINT_PERMISSION_TYPES voc)))
  else None.

(** [not l] for an optional list *)
Definition falsy_list {A : Type} (o : option (list A)) : bool :=
  match o with
  | Some (_ :: _) => false
  | _ => true
  end.

Definition check_constraint (voc : Vocabulary) (constraint : TemplateConstraintDefinition)
    : option exn :=
  if negb (mem (tc_objectType constraint) (ALLOWED_CONSTRAINT_OBJECT_TYPES voc))
  then Some (ValueError ("Invalid objectType '" +:+ tc_objectType constraint +:+ "'. "
                         +:+ "Allowed: "
                         +:+ join ", " (ALLOWED_CONSTRAINT_OBJECT_TYPES voc)))
  else if falsy_list (tc_criteriaAnd constraint) && falsy_list (tc_criteriaOr constraint)
  then Some (ValueError ("Constraint '" +:+ tc_name constraint
                         +:+ "' must have at least one criteriaAnd or criteriaOr"))
  else
    match first_error (check_criteria voc)
            (get_default (tc_criteriaAnd constraint) []
             ++ get_default (tc_criteriaOr constraint) []) with
    | Some e => Some e
    | None => first_error (check_permission voc) (tc_groupPermissions constraint)
    end.

Definition with_variableValues (values : ImportConstraintsTemplateRequestModel)
    (variable_values : list (string * string)) : ImportConstraintsTemplateRequestModel :=
  {| template := template values;
     variables := variables values;
     variableValues := variable_values;
     constraints := constraints values |}.

Definition ROLE_NAME_missing : string :=
  "variableValues must include 'ROLE_NAME' (used as groupId for all constraints)".

(** The root validator of [ImportConstraintsTemplateRequestModel] *)
Definition validate_template_import (voc : Vocabulary)
    (values : ImportConstraintsTemplateRequestModel)
    : outcome ImportConstraintsTemplateRequestModel :=
  let variable_values := variableValues values in
  match var_get "ROLE_NAME" variable_values with
  | None => Raise (ValueError ROLE_NAME_missing)
  | Some role_name =>
      let (valid, message) := validate_object_name voc "ROLE_NAME" role_name in
      if negb valid then Raise (ValueError ("Invalid ROLE_NAME: " +:+ message))
      else
        match check_variables (variables values) variable_values with
        | Raise e => Raise e
        | Return variable_values =>
            match constraints values with
            | [] => Raise (ValueError "At least one constraint is required")
            | _ :: _ =>
                match first_error (check_constraint voc) (constraints values) with
                | Some e => Raise e
                | None => Return (with_variableValues values variable_values)
                end
            end
        end
  end.

(** ** Import orchestration *)

Definition criteria_dict (c : ConstraintCriteriaModel) : value :=
  VDict [("field", VStr (field c));
         ("operator", VStr (operator c));
         ("value", match crit_value c with
                   | inl s => VStr s
                   | inr l => VList (map VStr l)
                   end)].

Definition permission_dict (p : TemplateConstraintPermission) : value :=
  VDict (("action", VStr (action p))
         :: match type_ p with
            | Some t => [("type", VStr t)]
            | None => []
            end).

(** The dictionary [c_dict] built from a template constraint *)
Definition c_dict (c : TemplateConstraintDefinition) : dict :=
  [("name", VStr (tc_name c));
   ("description", VStr (tc_description c));
   ("objectType", VStr (tc_objectType c));
   ("criteriaAnd", VList (map criteria_dict (get_default (tc_criteriaAnd c) [])));
   ("criteriaOr", VList (map criteria_dict (get_default (tc_criteriaOr c) [])));
   ("groupPermissions", VList (map permission_dict (tc_groupPermissions c)))].

(** A value inside an f-string *)
Definition format_value (env : Env) (v : value) : string :=
  match v with
  | VStr s => s
  | _ => str_of env v
  end.

Definition unreplaced_message (unreplaced : gset string) : string :=
  "Unreplaced template variables found after substitution: "
  +:+ join ", " (sorted unreplaced) +:+ ". "
  +:+ "Provide values for these in variableValues.".

(** The body of the loop over the substituted constraints; it returns the
    identifier appended to [created_constraint_ids]. *)
Definition create_constraint (env : Env) (role_name : string)
    (claims_and_roles : Claims) (constraint : dict) : M string :=
  (constraint_data <- build_constraint_data env constraint role_name claims_and_roles ;;
   let constraint_id := identifier constraint_data in
   name_ <- lift (subscript (VDict constraint) "name") ;;
   log INFO ("Creating constraint '" +:+ format_value env name_
             +:+ "' with ID " +:+ constraint_id) ;;;
   now1 <- read_clock env ;;
   now2 <- read_clock env ;;
   let denormalized_items :=
     _transform_to_denormalized_format now1 now2 constraint_data in
   batch_write env denormalized_items ;;;
   log INFO ("Successfully wrote " +:+ pretty (length denormalized_items)
             +:+ " denormalized items for constraint " +:+ constraint_id) ;;;
   ret constraint_id)%py.

Definition template_name_of (template_data : ImportConstraintsTemplateRequestModel)
    : string :=
  match template template_data with
  | Some t => tm_name t
  | None => "unknown"
  end.

(** The steps after the role check: the loop over the substituted
    constraints and the summary. *)
Definition create_constraints (env : Env)
    (template_data : ImportConstraintsTemplateRequestModel)
    (role_name : string) (claims_and_roles : Claims)
    (substituted_constraints : list dict)
    : M ImportConstraintsTemplateResponseModel :=
  (created_constraint_ids <-
     for_each (create_constraint env role_name claims_and_roles)
              substituted_constraints ;;
   now <- read_clock env ;;
   let template_name := template_name_of template_data in
   ret {| success_ := true;
          message := "Successfully imported "
                     +:+ pretty (length created_constraint_ids)
                     +:+ " constraints from template '" +:+ template_name
                     +:+ "' for role '" +:+ role_name +:+ "'";
          constraintsCreated := length created_constraint_ids;
          constraintIds := created_constraint_ids;
          timestamp := now |})%py.

Definition role_missing_message (role_name : string) : string :=
  "Role '" +:+ role_name +:+ "' does not exist in roles table. "
  +:+ "Constraints will be created but may not be effective until the role is created.".

Definition import_template_constraints (env : Env)
    (template_data : ImportConstraintsTemplateRequestModel)
    (claims_and_roles : Claims) : M ImportConstraintsTemplateResponseModel :=
  let variable_values := variableValues template_data in
  (role_name <- lift (match var_get "ROLE_NAME" variable_values with
                      | Some r => Return r
                      | None => Raise (KeyError "ROLE_NAME")
                      end) ;;
   let constraints_dicts := map c_dict (constraints template_data) in
   let substituted_constraints :=
     substitute_variables constraints_dicts variable_values in
   let unreplaced := find_unreplaced_variables substituted_constraints in
   if negb (bool_decide (unreplaced = ∅))
   then raise (VAMSGeneralErrorResponse (unreplaced_message unreplaced))
   else
     role_exists <- validate_constraint_role_exists env role_name ;;
     (if negb role_exists
      then log WARNING (role_missing_message role_name)
      else ret tt) ;;;
     create_constraints env template_data role_name claims_and_roles
       substituted_constraints)%py.

(** ** Handler *)

Inductive response : Type :=
| authorization_error
| validation_error (msg : string)
| general_error (msg : string)
| internal_error
| success (body : ImportConstraintsTemplateResponseModel).

(** The request body as the handler finds it: absent, not JSON, neither a
    string nor a dictionary, or carrying the fields of the request model. *)
Inductive request_body : Type :=
| BodyMissing
| BodyInvalidJson
| BodyUnparsable
| BodyFields (values : ImportConstraintsTemplateRequestModel).

Definition exn_message (e : exn) : string :=
  match e with
  | KeyError k => "'" +:+ k +:+ "'"
  | TypeError m | ValueError m | VAMSGeneralErrorResponse m | ClientError m => m
  end.

(** [parse(body, model=ImportConstraintsTemplateRequestModel)]: an error of
    the root validator becomes a pydantic [ValidationError]. *)
Definition parse (voc : Vocabulary) (values : ImportConstraintsTemplateRequestModel)
    : outcome ImportConstraintsTemplateRequestModel :=
  validate_template_import voc values.

(** The handler from the authorization check on: [enforced] is the answer of
    the Casbin enforcer.  The message of a [ValidationError] is given by the
    message of the error raised in the root validator. *)
Definition lambda_handler (env : Env) (voc : Vocabulary)
    (claims_and_roles : Claims) (enforced : bool) (method : string)
    (body : request_body) : Store -> response * Store * list log_record :=
  fun s =>
    let method_allowed_on_api :=
      negb (Nat.eqb (length (tokens claims_and_roles)) 0) && enforced in
    if negb method_allowed_on_api then (authorization_error, s, [])
    else if negb (String.eqb method "POST")
    then (validation_error "Method not allowed. Only POST is supported.", s, [])
    else
      match body with
      | BodyMissing => (validation_error "Request body is required", s, [])
      | BodyInvalidJson =>
          (validation_error "Invalid JSON in request body", s,
           [(ERROR, "Invalid JSON in request body")])
      | BodyUnparsable =>
          (validation_error "Request body cannot be parsed", s,
           [(ERROR, "Request body is not a string or dict")])
      | BodyFields values =>
          match parse voc values with
          | Raise v =>
              (validation_error (exn_message v), s,
               [(ERROR, "Validation error: " +:+ exn_message v)])
          | Return request_model =>
              match import_template_constraints env request_model claims_and_roles s with
              | (Return result, s', l) =>
                  (success result, s',
                   l ++ [(AUDIT, "constraintsTemplateImport "
                                 +:+ template_name_of request_model +:+ " "
                                 +:+ get_default (var_get "ROLE_NAME"
                                                    (variableValues request_model))
                                                 "unknown")])
              | (Raise (VAMSGeneralErrorResponse m), s', l) =>
                  (general_error m, s', l ++ [(ERROR, "VAMS error: " +:+ m)])
              | (Raise e, s', l) =>
                  (internal_error, s',
                   l ++ [(ERROR, "Internal error: " +:+ exn_message e)])
              end
          end
      end.

(** ** Template text *)

(** A text seen as literal characters and placeholders. *)
Inductive segment : Type :=
| Lit (c : ascii)
| Var (n : string).

Fixpoint render (segs : list segment) : string :=
  match segs with
  | [] => ""
  | Lit c :: segs' => String c (render segs')
  | Var n :: segs' => placeholder n +:+ render segs'
  end.

Fixpoint all_chars (P : ascii -> bool) (s : string) : bool :=
  match s with
  | "" => true
  | String c s' => P c && all_chars P s'
  end.

Definition not_open_brace (c : ascii) : bool := negb (Ascii.eqb c "{").

Definition not_brace (c : ascii) : bool :=
  negb (Ascii.eqb c "{") && negb (Ascii.eqb c "}").

(** A segment of a text all of whose opening braces belong to placeholders
    of the variables [names]. *)
Definition segment_ok (names : list string) (seg : segment) : bool :=
  match seg with
  | Lit c => not_open_brace c
  | Var n => all_chars not_brace n && mem n names
  end.

(** The text [s] is made of characters other than an opening brace and of
    placeholders of variables of [names]. *)
Definition closed_text (names : list string) (s : string) : Prop :=
  exists segs : list segment,
    s = render segs /\ forallb (segment_ok names) segs = true.

(** The variable map has brace-free names and values without an opening
    brace. *)
Definition plain_variables (var_values : list (string * string)) : bool :=
  forallb (fun kv => all_chars not_brace kv.1 && all_chars not_open_brace kv.2)
          var_values.

(** One pass of a variable over a segmented text *)
Definition subst_segment (A v : string) (seg : segment) : list segment :=
  match seg with
  | Lit c => [Lit c]
  | Var n => if String.eqb n A then map Lit (String.list_ascii_of_string v)
             else [Var n]
  end.

(** ** The strings of a template constraint *)

Definition subst_criteria (var_values : list (string * string))
    (c : ConstraintCriteriaModel) : ConstraintCriteriaModel :=
  {| field := replace_in_string var_values (field c);
     operator := replace_in_string var_values (operator c);
     crit_value := match crit_value c with
                   | inl s => inl (replace_in_string var_values s)
                   | inr l => inr (map (replace_in_string var_values) l)
                   end |}.

Definition subst_permission (var_values : list (string * string))
    (p : TemplateConstraintPermission) : TemplateConstraintPermission :=
  {| action := replace_in_string var_values (action p);
     type_ := option_map (replace_in_string var_values) (type_ p) |}.

(** The template constraint whose dictionary is the substituted dictionary
    of [c] *)
Definition subst_constraint (var_values : list (string * string))
    (c : TemplateConstraintDefinition) : TemplateConstraintDefinition :=
  {| tc_name := replace_in_string var_values (tc_name c);
     tc_description := replace_in_string var_values (tc_description c);
     tc_objectType := replace_in_string var_values (tc_objectType c);
     tc_criteriaAnd := option_map (map (subst_criteria var_values)) (tc_criteriaAnd c);
     tc_criteriaOr := option_map (map (subst_criteria var_values)) (tc_criteriaOr c);
     tc_groupPermissions := map (subst_permission var_values) (tc_groupPermissions c) |}.

Definition criteria_strings (c : ConstraintCriteriaModel) : list string :=
  field c :: operator c ::
  match crit_value c with
  | inl s => [s]
  | inr l => l
  end.

Definition permission_strings (p : TemplateConstraintPermission) : list string :=
  action p ::
  match type_ p with
  | Some t => [t]
  | None => []
  end.

(** Every string of a template constraint that reaches [c_dict] *)
Definition template_strings (c : TemplateConstraintDefinition) : list string :=
  tc_name c :: tc_description c :: tc_objectType c ::
  flat_map criteria_strings (get_default (tc_criteriaAnd c) [])
  ++ flat_map criteria_strings (get_default (tc_criteriaOr c) [])
  ++ flat_map permission_strings (tc_groupPermissions c).

(** ** Example templates *)

(** The end-to-end scenario: one constraint over two variables. *)
Definition db_admin_template : ImportConstraintsTemplateRequestModel :=
  {| template := None;
     variables :=
       [ {| var_name := "ROLE_NAME"; var_required := Some true;
            var_description := None; var_default := None |};
         {| var_name := "DATABASE_ID"; var_required := Some true;
            var_description := None; var_default := None |} ];
     variableValues := [("ROLE_NAME", "db-admin"); ("DATABASE_ID", "proj1")];
     constraints :=
       [ {| tc_name := "{{ROLE_NAME}}-access";
            tc_description := "Access for {{ROLE_NAME}}";
            tc_objectType := "asset";
            tc_criteriaAnd :=
              Some [ {| field := "databaseId"; operator := "equals";
                        crit_value := inl "{{DATABASE_ID}}" |} ];
            tc_criteriaOr := None;
            tc_groupPermissions :=
              [ {| action := "GET"; type_ := Some "allow" |} ] |} ] |}.

(** A template that refers to a variable it neither declares nor supplies. *)
Definition undeclared_variable_template : ImportConstraintsTemplateRequestModel :=
  {| template := None;
     variables :=
       [ {| var_name := "ROLE_NAME"; var_required := Some true;
            var_description := None; var_default := None |} ];
     variableValues := [("ROLE_NAME", "db-admin")];
     constraints :=
       [ {| tc_name := "{{ROLE_NAME}}-{{ZONE}}-{{AREA}}";
            tc_description := "Access";
            tc_objectType := "asset";
            tc_criteriaAnd :=
              Some [ {| field := "databaseId"; operator := "equals";
                        crit_value := inl "{{AREA}}" |} ];
            tc_criteriaOr := None;
            tc_groupPermissions :=
              [ {| action := "GET"; type_ := Some "allow" |} ] |} ] |}.

(** ** Example collaborators *)

(** A vocabulary for the examples; the object-name check accepts a
    non-empty name. *)
Definition example_vocabulary : Vocabulary :=
  {| ALLOWED_CONSTRAINT_PERMISSIONS := ["GET"; "PUT"; "POST"; "DELETE"];
     ALLOWED_CONSTRAINT_PERMISSION_TYPES := ["allow"; "deny"];
     ALLOWED_CONSTRAINT_OBJECT_TYPES := ["database"; "asset"; "api"; "web"];
     ALLOWED_CONSTRAINT_OPERATORS := ["equals"; "contains"; "starts_with"];
     validate_object_name :=
       fun _ s => (negb (String.eqb s ""), "name must not be empty") |}.

(** Identifiers [id0], [id1], ..., clock readings [t0], [t1], ..., the
    given role registry, and a table whose batch number [n] fails when
    [fails n] holds, having flushed nothing. *)
Definition example_env (registry : option (string -> get_item_result))
    (fails : nat -> bool) : Env :=
  {| uuid4 := fun n => "id" +:+ pretty n;
     utcnow := fun n => "t" +:+ pretty n;
     roles_table := registry;
     batch := fun n => if fails n then BatchFails 0 "ProvisionedThroughputExceeded"
                       else BatchOk;
     str_of := fun _ => "" |}.

Definition example_claims : Claims := {| tokens := ["alice"] |}.

Definition assets_constraint : TemplateConstraintDefinition :=
  {| tc_name := "{{ROLE_NAME}}-assets";
     tc_description := "Assets";
     tc_objectType := "asset";
     tc_criteriaAnd :=
       Some [ {| field := "assetType"; operator := "contains";
                 crit_value := inl "model" |} ];
     tc_criteriaOr := None;
     tc_groupPermissions :=
       [ {| action := "GET"; type_ := Some "allow" |};
         {| action := "PUT"; type_ := Some "allow" |} ] |}.

Definition databases_constraint : TemplateConstraintDefinition :=
  {| tc_name := "{{ROLE_NAME}}-databases";
     tc_description := "Databases";
     tc_objectType := "database";
     tc_criteriaAnd := None;
     tc_criteriaOr :=
       Some [ {| field := "databaseId"; operator := "starts_with";
                 crit_value := inr ["proj"; "test"] |} ];
     tc_groupPermissions :=
       [ {| action := "GET"; type_ := Some "allow" |} ] |}.

(** A template of two constraints *)
Definition two_constraint_template : ImportConstraintsTemplateRequestModel :=
  {| template := None;
     variables := [];
     variableValues := [("ROLE_NAME", "db-admin")];
     constraints := [assets_constraint; databases_constraint] |}.

(** The result of the scan on the substituted constraints of a template *)
Definition unreplaced_of (template_data : ImportConstraintsTemplateRequestModel)
    : gset string :=
  find_unreplaced_variables
    (substitute_variables (map c_dict (constraints template_data))
       (variableValues template_data)).

(** The collaborators of [env] with another role registry *)
Definition with_roles_table (env : Env)
    (registry : option (string -> get_item_result)) : Env :=
  {| uuid4 := uuid4 env;
     utcnow := utcnow env;
     roles_table := registry;
     batch := batch env;
     str_of := str_of env |}.

(** ** What a computation does to the table *)

(** The table of [s'] is the table of [s] followed by items that satisfy
    [P]. *)
Definition puts_extend (P : Item -> Prop) (s s' : Store) : Prop :=
  exists new : list Item, puts s' = puts s ++ new /\ Forall P new.

(** Every run of [m] extends the table by items that satisfy [P], and a
    value it returns satisfies [V]. *)
Definition sat {A : Type} (P : Item -> Prop) (V : A -> Prop) (m : M A) : Prop :=
  forall s : Store,
    puts_extend P s (m s).1.2
    /\ match (m s).1.1 with
       | Return a => V a
       | Raise _ => True
       end.

(** An item written for a constraint of the role [role_name] *)
Definition role_scoped (role_name : string) (it : Item) : Prop :=
  (it_groupId it = Some role_name \/ it_groupId it = None)
  /\ it_userId it = None
  /\ match it_groupPermissions (base it) with
     | dumps perms => Forall (fun p => groupId p = Some role_name) perms
     end.

(** Constraint data whose group permissions are all for [role_name] and
    that has no user permission *)
Definition role_bound (role_name : string) (cd : ConstraintData) : Prop :=
  (exists perms : list GroupPermission,
      groupPermissions cd = Some perms
      /\ Forall (fun p => groupId p = Some role_name) perms)
  /\ userPermissions cd = Some [].

(** The table holds an item of the constraint [constraint_id]: its
    partition key starts with the identifier. *)
Definition persisted (constraint_id : string) (s : Store) : Prop :=
  exists it : Item,
    it ∈ puts s /\ startswith constraint_id (constraintId it) = true.

(** ** All the strings of a value *)

(** The strings [scan_value] reaches: those of the value itself, of the
    elements of its lists and of the values (not the keys) of its
    dictionaries, at any depth. *)
Fixpoint strings_of (v : value) : list string :=
  match v with
  | VStr s => [s]
  | VList l => flat_map strings_of l
  | VDict d => flat_map (fun kv => strings_of kv.2) d
  | _ => []
  end.

(** A non-empty run of word characters: what [\w+] matches in full *)
Definition is_word (x : string) : bool :=
  negb (String.eqb x "") && all_chars is_word_char x.

(** ** Substitution of all the variables at once *)

(** A segment of a text whose opening braces all belong to placeholders of
    brace-free names *)
Definition wf_segment (seg : segment) : bool :=
  match seg with
  | Lit c => not_open_brace c
  | Var n => all_chars not_brace n
  end.

(** Every placeholder of a variable that has a value becomes that value;
    the other segments stay. *)
Definition subst_all (var_values : list (string * string)) (segs : list segment)
    : list segment :=
  flat_map (fun seg =>
              match seg with
              | Lit c => [Lit c]
              | Var n =>
                  match var_get n var_values with
                  | Some v => map Lit (String.list_ascii_of_string v)
                  | None => [Var n]
                  end
              end) segs.

(** A template that declares a variable with a default and does not supply
    it *)
Definition defaulted_template : ImportConstraintsTemplateRequestModel :=
  {| template := Some {| tm_name := "Database Admin"; tm_description := None;
                         tm_version := Some "1.0" |};
     variables :=
       [ {| var_name := "ROLE_NAME"; var_required := Some true;
            var_description := None; var_default := None |};
         {| var_name := "DATABASE_ID"; var_required := Some true;
            var_description := Some "Database"; var_default := Some "GLOBAL" |} ];
     variableValues := [("ROLE_NAME", "db-admin")];
     constraints := constraints db_admin_template |}.

(** ** Runs of a computation *)

(** From [s] the computation returns [a] and leaves the store [s']. *)
Definition runs {A : Type} (m : M A) (s : Store) (a : A) (s' : Store) : Prop :=
  exists l : list log_record, m s = (Return a, s', l).

(** From [s] the computation raises [e] and leaves the store [s']. *)
Definition raises {A : Type} (m : M A) (s : Store) (e : exn) (s' : Store) : Prop :=
  exists l : list log_record, m s = (Raise e, s', l).

(** Every permission of the constraint sets its type. *)
Definition types_set (c : TemplateConstraintDefinition) : Prop :=
  Forall (fun p => is_Some (type_ p)) (tc_groupPermissions c).

(** A template whose permission leaves its type unset *)
Definition untyped_permission_template : ImportConstraintsTemplateRequestModel :=
  {| template := None;
     variables := [];
     variableValues := [("ROLE_NAME", "db-admin")];
     constraints :=
       [ {| tc_name := "{{ROLE_NAME}}-assets";
            tc_description := "Assets";
            tc_objectType := "asset";
            tc_criteriaAnd :=
              Some [ {| field := "assetType"; operator := "contains";
                        crit_value := inl "model" |} ];
            tc_criteriaOr := None;
            tc_groupPermissions := [ {| action := "GET"; type_ := None |} ] |} ] |}.

(** The set of the non-empty group ids and of the non-empty user ids of a
    constraint *)
Definition group_grantees (cd : ConstraintData) : gset string :=
  list_to_set (grantee_ids (map groupId (get_default (groupPermissions cd) []))).

Definition user_grantees (cd : ConstraintData) : gset string :=
  list_to_set (grantee_ids (map userId (get_default (userPermissions cd) []))).

(** ** The exceptions of a computation *)

(** Every exception [m] raises satisfies [E]. *)
Definition raises_only {A : Type} (E : exn -> Prop) (m : M A) : Prop :=
  forall s : Store,
    match (m s).1.1 with
    | Raise e => E e
    | Return _ => True
    end.

(** An exception other than [VAMSGeneralErrorResponse] *)
Definition not_general (e : exn) : Prop :=
  match e with
  | VAMSGeneralErrorResponse _ => False
  | _ => True
  end.

(** ** The template applicator ([tools/permissionsSetup/apply_template.py]) *)

(** The exceptions the command-line tools meet besides the built-in ones:
    an attribute that is missing, [open] failing, [subprocess.run] raising,
    and click's own exception. *)
Inductive pyerr : Type :=
| Builtin (e : exn)
| AttributeError (msg : string)
| OSError
| SubprocessError
| ClickException (msg : string).

(** A result, [sys.exit(code)] after printing [printed], or an exception
    that nothing catches *)
Inductive tool_outcome (A : Type) : Type :=
| Done : A -> tool_outcome A
| SysExit : nat -> string -> tool_outcome A
| Crash : pyerr -> tool_outcome A.
Arguments Done {A} _.
Arguments SysExit {A} _ _.
Arguments Crash {A} _.

Definition and_then {A B : Type} (o : tool_outcome A) (k : A -> tool_outcome B)
    : tool_outcome B :=
  match o with
  | Done a => k a
  | SysExit c m => SysExit c m
  | Crash e => Crash e
  end.

(** An expression gives a value or raises *)
Inductive py_result (A : Type) : Type :=
| Ok : A -> py_result A
| Fails : pyerr -> py_result A.
Arguments Ok {A} _.
Arguments Fails {A} _.

Definition then_ {A B : Type} (r : py_result A) (k : A -> py_result B)
    : py_result B :=
  match r with
  | Ok a => k a
  | Fails e => Fails e
  end.

Declare Scope pure_scope.
Delimit Scope pure_scope with pure.
Notation "x <- m ;; k" := (then_ m (fun x => k))
  (at level 100, m at next level, right associativity) : pure_scope.

Definition of_outcome {A : Type} (o : outcome A) : py_result A :=
  match o with
  | Return a => Ok a
  | Raise e => Fails (Builtin e)
  end.

Definition of_result {A : Type} (r : py_result A) : tool_outcome A :=
  match r with
  | Ok a => Done a
  | Fails e => Crash e
  end.

(** [d[k] = v]: the value of an existing key is replaced in place, a new key
    goes to the end. *)
Fixpoint dict_set (k : string) (v : value) (d : dict) : dict :=
  match d with
  | [] => [(k, v)]
  | (k', v') :: d' =>
      if String.eqb k k' then (k', v) :: d' else (k', v') :: dict_set k v d'
  end.

(** [d.update(other)] *)
Definition dict_update (d other : dict) : dict :=
  fold_left (fun d kv => dict_set kv.1 kv.2 d) other d.

(** [type(v).__name__] *)
Definition type_name (v : value) : string :=
  match v with
  | VNone => "NoneType"
  | VBool _ => "bool"
  | VInt _ => "int"
  | VStr _ => "str"
  | VList _ => "list"
  | VDict _ => "dict"
  end.

(** [v.get(key, default)] *)
Definition value_get (v : value) (key : string) (default : value)
    : py_result value :=
  match v with
  | VDict d => Ok (get_default (dict_get key d) default)
  | _ => Fails (AttributeError ("'" +:+ type_name v +:+ "' object has no attribute 'get'"))
  end.

(** [len(v)] *)
Definition py_len (v : value) : py_result nat :=
  match v with
  | VStr s => Ok (String.length s)
  | VList l => Ok (length l)
  | VDict d => Ok (length d)
  | _ => Fails (Builtin (TypeError ("object of type '" +:+ type_name v +:+ "' has no len()")))
  end.

(** Truth value of a value *)
Definition py_truthy (v : value) : bool :=
  match v with
  | VNone => false
  | VBool b => b
  | VInt n => negb (n =? 0)%Z
  | VStr s => negb (String.eqb s "")
  | VList l => negb (bool_decide (l = []))
  | VDict d => negb (bool_decide (d = []))
  end.

(** What [json.loads] and [json.load] give: a decoding error or a value *)
Inductive json_result : Type :=
| JSONDecodeError (e : string)
| Json (v : value).

(** What the tool finds at a path: no file, or a file and what [json.load]
    makes of it.  A file that is there can be opened and read as text. *)
Inductive file_result : Type :=
| NotAFile
| FileJson (r : json_result).

(** The result of a finished child process *)
Record CompletedProcess : Type := {
  returncode : Z;
  stdout : string;
  stderr : string
}.

(** What [subprocess.run] does: the child finishes, or the call raises (the
    program is not found, or it times out). *)
Inductive run_result : Type :=
| Completed (p : CompletedProcess)
| RunRaises.

(** The commands launched so far, in order *)
Definition Trace : Type := list (list string).

(** The collaborators of the tool: the file system read through [json.load],
    [json.loads] and [json.dumps], [str()] on values that are not strings,
    and what a command does given the commands launched before it. *)
Record ToolEnv : Type := {
  read_json_file : string -> file_result;
  json_loads : string -> json_result;
  json_dumps : value -> string;
  tool_str : value -> string;
  subprocess_run : Trace -> list string -> run_result
}.

(** The parsed command line *)
Record Args : Type := {
  arg_template : string;
  arg_role_name : string;
  arg_role_description : option string;
  arg_mfa_required : bool;
  arg_variables : option string;
  arg_variables_file : option string;
  arg_var : list string;
  arg_profile : option string;
  arg_dry_run : bool;
  arg_delete : bool;
  arg_assign_user : option string
}.

(** A tool computation launches commands.  What the tool prints is not part
    of the model, the message before a [sys.exit] apart; the expressions it
    prints are evaluated where they can raise. *)
Definition T (A : Type) : Type := Trace -> tool_outcome A * Trace.

Definition tret {A : Type} (a : A) : T A := fun tr => (Done a, tr).

Definition tlift {A : Type} (o : tool_outcome A) : T A := fun tr => (o, tr).

Definition tpure {A : Type} (r : py_result A) : T A := tlift (of_result r).

Definition tbind {A B : Type} (m : T A) (k : A -> T B) : T B :=
  fun tr =>
    match m tr with
    | (Done a, tr') => k a tr'
    | (SysExit c msg, tr') => (SysExit c msg, tr')
    | (Crash e, tr') => (Crash e, tr')
    end.

Declare Scope tool_scope.
Delimit Scope tool_scope with tool.
Notation "x <- m ;; k" := (tbind m (fun x => k))
  (at level 100, m at next level, right associativity) : tool_scope.

(** An optional string argument that is given and not empty *)
Definition given (o : option string) : option string :=
  if truthy o then o else None.

(** [str(v)], as an f-string formats a value *)
Definition tool_format (tenv : ToolEnv) (v : value) : string :=
  match v with
  | VStr s => s
  | _ => tool_str tenv v
  end.

(** *** Loading the template *)

Definition load_template (tenv : ToolEnv) (template_path : string)
    : tool_outcome dict :=
  match read_json_file tenv template_path with
  | NotAFile => Crash OSError
  | FileJson (JSONDecodeError e) =>
      SysExit 1 ("ERROR: Invalid JSON in template file '" +:+ template_path
                 +:+ "': " +:+ e)
  | FileJson (Json (VDict data)) =>
      match dict_get "constraints" data with
      | None => SysExit 1 "ERROR: Template file missing required 'constraints' key"
      | Some _ => Done data
      end
  | FileJson (Json data) =>
      SysExit 1 ("ERROR: Template file must contain a JSON object (got "
                 +:+ type_name data +:+ ")")
  end.

(** *** Running vamscli *)

(** The command line [run_vamscli] builds *)
Definition vamscli_command (profile : option string) (args : list string)
    : list string :=
  ["vamscli"]
  ++ match given profile with
     | Some p => ["--profile"; p]
     | None => []
     end
  ++ args.

Definition run_vamscli (tenv : ToolEnv) (args : list string)
    (profile : option string) : T CompletedProcess :=
  fun tr =>
    let cmd := vamscli_command profile args in
    match subprocess_run tenv tr cmd with
    | Completed result => (Done result, tr ++ [cmd])
    | RunRaises => (Crash SubprocessError, tr ++ [cmd])
    end.

(** A command-line word must be a string: [subprocess.run] raises
    [TypeError] on anything else, before it launches the command. *)
Definition command_word (v : value) : T string :=
  match v with
  | VStr s => tret s
  | _ => tpure (Fails (Builtin (TypeError
           ("expected str, bytes or os.PathLike object, not " +:+ type_name v))))
  end.

(** [c.isspace()]: below 256, the space, the controls 9 to 13 and 28 to
    31, the next-line control (133) and the no-break space (160) *)
Definition is_space (c : ascii) : bool :=
  let n := nat_of_ascii c in
  (n =? 32) || ((9 <=? n) && (n <=? 13)) || ((28 <=? n) && (n <=? 31))
  || (n =? 133) || (n =? 160).

Fixpoint lstrip (s : string) : string :=
  match s with
  | "" => ""
  | String c s' => if is_space c then lstrip s' else s
  end.

Definition reverse_string (s : string) : string :=
  String.string_of_list_ascii (rev (String.list_ascii_of_string s)).

(** [s.strip()] *)
Definition py_strip (s : string) : string :=
  reverse_string (lstrip (reverse_string (lstrip s))).

(** [c.lower()]: below 256, the capital letters of ASCII (65 to 90) and of
    Latin-1 (192 to 222 without the multiplication sign 215) move up by 32;
    every other character stays. *)
Definition lower_char (c : ascii) : ascii :=
  let n := nat_of_ascii c in
  if ((65 <=? n) && (n <=? 90))
     || ((192 <=? n) && (n <=? 214))
     || ((216 <=? n) && (n <=? 222))
  then ascii_of_nat (n + 32) else c.

(** [s.lower()] *)
Fixpoint py_lower (s : string) : string :=
  match s with
  | "" => ""
  | String c s' => String (lower_char c) (py_lower s')
  end.

(** [x or y] on strings *)
Definition str_or (x y : string) : string :=
  if String.eqb x "" then y else x.

(** The test [create_role] makes on a failed command: its output says that
    the role already exists. *)
Definition reports_existing_role (result : CompletedProcess) : bool :=
  let stderr := if negb (String.eqb (stderr result) "")
                then py_strip (stderr result) else "" in
  contains "already exists" (py_lower stderr)
  || contains "already exists" (py_lower (str_or (stdout result) "")).

Definition create_role (tenv : ToolEnv) (role_name : value) (description : string)
    (mfa_required : bool) (profile : option string) (dry_run : bool) : T bool :=
  if dry_run then tret true
  else
    (r <- command_word role_name ;;
     result <- run_vamscli tenv
                 (["role"; "create"; "-r"; r; "--description"; description]
                  ++ (if mfa_required then ["--mfa-required"] else []))
                 profile ;;
     if (returncode result =? 0)%Z then tret true
     else if reports_existing_role result then tret true
     else tret false)%tool.

Definition delete_role (tenv : ToolEnv) (role_name : value)
    (profile : option string) (dry_run : bool) : T bool :=
  if dry_run then tret true
  else
    (r <- command_word role_name ;;
     result <- run_vamscli tenv
                 ["role"; "delete"; "-r"; r; "--confirm"; "--json-output"] profile ;;
     if (returncode result =? 0)%Z then tret true else tret false)%tool.

Definition assign_user_to_role (tenv : ToolEnv) (user_id : string)
    (role_name : value) (profile : option string) (dry_run : bool) : T bool :=
  if dry_run then tret true
  else
    (r <- command_word role_name ;;
     result <- run_vamscli tenv
                 ["role"; "user"; "create"; "-u"; user_id; "--role-name"; r] profile ;;
     if (returncode result =? 0)%Z then tret true else tret false)%tool.

(** *** Importing the constraints *)

(** [for x in l: body(x)] *)
Fixpoint each {A : Type} (body : A -> py_result unit) (l : list A)
    : py_result unit :=
  match l with
  | [] => Ok tt
  | x :: l' => (_ <- body x ;; each body l')%pure
  end.

(** One line of the dry-run summary: what it reads of constraint [c] *)
Definition summary_line (c : value) : py_result unit :=
  (name <- value_get c "name" (VStr "unnamed") ;;
   obj_type <- value_get c "objectType" (VStr "unknown") ;;
   perms <- value_get c "groupPermissions" (VList []) ;;
   ps <- of_outcome (py_iter perms) ;;
   _ <- each (fun p => (action <- value_get p "action" (VStr "?") ;;
                        type <- value_get p "type" (VStr "?") ;;
                        Ok tt)%pure) ps ;;
   criteriaAnd <- value_get c "criteriaAnd" (VList []) ;;
   criteria_and <- py_len criteriaAnd ;;
   criteriaOr <- value_get c "criteriaOr" (VList []) ;;
   criteria_or <- py_len criteriaOr ;;
   Ok tt)%pure.

Definition import_constraints (tenv : ToolEnv) (template_data : dict)
    (profile : option string) (dry_run : bool) : T bool :=
  let metadata := get_default (dict_get "metadata" template_data) (VDict []) in
  (template_name <- tpure (value_get metadata "name" (VStr "Unknown")) ;;
   let constraints := get_default (dict_get "constraints" template_data) (VList []) in
   let variable_values :=
     get_default (dict_get "variableValues" template_data) (VDict []) in
   role_name <- tpure (value_get variable_values "ROLE_NAME" (VStr "unknown")) ;;
   if dry_run
   then
     tpure (n <- py_len constraints ;;
            cs <- of_outcome (py_iter constraints) ;;
            _ <- each summary_line cs ;;
            Ok true)%pure
   else
     let template_json := json_dumps tenv (VDict template_data) in
     result <- run_vamscli tenv
                 ["role"; "constraint"; "template"; "import"; "-j"; template_json;
                  "--json-output"] profile ;;
     if (returncode result =? 0)%Z
     then
       match json_loads tenv (stdout result) with
       | Json (VDict response) =>
           tpure (n <- py_len constraints ;; Ok true)%pure
       | _ => tret true
       end
     else tret false)%tool.

(** *** Resolving the variables *)

(** [s.split("=", 1)] when ["=" in s]: the text before the first [=] and
    the text after it *)
Fixpoint split_eq (s : string) : option (string * string) :=
  match s with
  | "" => None
  | String c s' =>
      if Ascii.eqb c "="
      then Some ("", s')
      else match split_eq s' with
           | Some (key, value) => Some (String c key, value)
           | None => None
           end
  end.

(** Step 1: the variables file *)
Definition load_variables_file (tenv : ToolEnv) (args : Args)
    (var_values : dict) : tool_outcome dict :=
  match given (arg_variables_file args) with
  | None => Done var_values
  | Some path =>
      match read_json_file tenv path with
      | NotAFile => SysExit 1 ("ERROR: Variables file not found: " +:+ path)
      | FileJson (JSONDecodeError e) =>
          SysExit 1 ("ERROR: Invalid JSON in variables file '" +:+ path
                     +:+ "': " +:+ e)
      | FileJson (Json (VDict file_vars)) => Done (dict_update var_values file_vars)
      | FileJson (Json file_vars) =>
          SysExit 1 ("ERROR: Variables file must contain a JSON object (got "
                     +:+ type_name file_vars +:+ ")")
      end
  end.

(** Step 2: the JSON string *)
Definition load_variables_string (tenv : ToolEnv) (args : Args)
    (var_values : dict) : tool_outcome dict :=
  match given (arg_variables args) with
  | None => Done var_values
  | Some text =>
      match json_loads tenv text with
      | JSONDecodeError e => SysExit 1 ("ERROR: Invalid JSON in --variables: " +:+ e)
      | Json (VDict json_vars) => Done (dict_update var_values json_vars)
      | Json json_vars =>
          SysExit 1 ("ERROR: --variables must be a JSON object (got "
                     +:+ type_name json_vars +:+ ")")
      end
  end.

(** Step 3: the [--var] overrides *)
Fixpoint apply_var_overrides (vars : list string) (var_values : dict)
    : tool_outcome dict :=
  match vars with
  | [] => Done var_values
  | var_str :: vars' =>
      match split_eq var_str with
      | None =>
          SysExit 1 ("ERROR: --var must be in KEY=VALUE format: '" +:+ var_str +:+ "'")
      | Some (key, value) =>
          apply_var_overrides vars' (dict_set key (VStr value) var_values)
      end
  end.

(** [v != s] for a string [s] *)
Definition differs_from_str (v : value) (s : string) : bool :=
  match v with
  | VStr t => negb (String.eqb t s)
  | _ => true
  end.

Definition newline : string := String (ascii_of_nat 10) "".

(** Step 4: ROLE_NAME *)
Definition set_role_name (tenv : ToolEnv) (args : Args) (var_values : dict)
    : tool_outcome dict :=
  let conflict :=
    match dict_get "ROLE_NAME" var_values with
    | Some v => if differs_from_str v (arg_role_name args) then Some v else None
    | None => None
    end in
  match conflict with
  | Some v =>
      SysExit 1
        ("ERROR: ROLE_NAME in variables ('" +:+ tool_format tenv v
         +:+ "') conflicts with --role-name ('" +:+ arg_role_name args
         +:+ "')." +:+ newline
         +:+ "  The --role-name parameter is the authoritative source for ROLE_NAME."
         +:+ newline
         +:+ "  Either remove ROLE_NAME from your variables input or make it match --role-name.")
  | None => Done (dict_set "ROLE_NAME" (VStr (arg_role_name args)) var_values)
  end.

Definition resolve_variables (tenv : ToolEnv) (args : Args) : tool_outcome dict :=
  and_then (load_variables_file tenv args []) (fun var_values =>
  and_then (load_variables_string tenv args var_values) (fun var_values =>
  and_then (apply_var_overrides (arg_var args) var_values) (fun var_values =>
  set_role_name tenv args var_values))).

(** *** The workflow *)

Definition apply_template (tenv : ToolEnv) (template_path : string)
    (var_values : dict) (profile : option string) (dry_run delete : bool)
    (assign_user role_description : option string) (mfa_required : bool)
    : T unit :=
  (role_name <- tpure (of_outcome (subscript (VDict var_values) "ROLE_NAME")) ;;
   template_data <- tlift (load_template tenv template_path) ;;
   let metadata := get_default (dict_get "metadata" template_data) (VDict []) in
   template_name <- tpure (value_get metadata "name" (VStr "Unknown")) ;;
   template_version <- tpure (value_get metadata "version" (VStr "1.0")) ;;
   let constraints := get_default (dict_get "constraints" template_data) (VList []) in
   let template_data := dict_set "variableValues" (VDict var_values) template_data in
   let role_description :=
     match given role_description with
     | Some d => d
     | None => tool_format tenv template_name +:+ " - " +:+ tool_format tenv role_name
     end in
   if delete
   then
     (_ <- delete_role tenv role_name profile dry_run ;;
      tret tt)
   else
     (role_success <- create_role tenv role_name role_description mfa_required
                        profile dry_run ;;
      if negb role_success && negb dry_run
      then tlift (SysExit 1 "FATAL: Could not create role. Aborting.")
      else
        (n <- tpure (py_len constraints) ;;
         import_success <- import_constraints tenv template_data profile dry_run ;;
         _ <- match given assign_user with
              | Some user_id =>
                  assign_user_to_role tenv user_id role_name profile dry_run
              | None => tret true
              end ;;
         tret tt)))%tool.

Definition main (tenv : ToolEnv) (args : Args) : T unit :=
  match read_json_file tenv (arg_template args) with
  | NotAFile =>
      tlift (SysExit 1 ("ERROR: Template file not found: " +:+ arg_template args))
  | FileJson _ =>
      (var_values <- tlift (resolve_variables tenv args) ;;
       apply_template tenv (arg_template args) var_values (arg_profile args)
         (arg_dry_run args) (arg_delete args) (arg_assign_user args)
         (arg_role_description args) (arg_mfa_required args))%tool
  end.

(** *** What the variable sources say *)

(** The last value a list of pairs gives to [k] *)
Definition last_value (k : string) (l : dict) : option value :=
  fold_left (fun acc kv => if String.eqb k kv.1 then Some kv.2 else acc) l None.

(** The object a source supplies, when the source is given *)
Definition file_object (tenv : ToolEnv) (args : Args) : dict :=
  match given (arg_variables_file args) with
  | Some path =>
      match read_json_file tenv path with
      | FileJson (Json (VDict d)) => d
      | _ => []
      end
  | None => []
  end.

Definition string_object (tenv : ToolEnv) (args : Args) : dict :=
  match given (arg_variables args) with
  | Some text =>
      match json_loads tenv text with
      | Json (VDict d) => d
      | _ => []
      end
  | None => []
  end.

(** The pairs the [--var] entries give *)
Definition var_pairs (vars : list string) : dict :=
  omap (fun var_str => match split_eq var_str with
                       | Some (key, value) => Some (key, VStr value)
                       | None => None
                       end) vars.

(** What the sources say about [k]: a [--var] entry before the JSON string,
    the JSON string before the file *)
Definition by_priority (tenv : ToolEnv) (args : Args) (k : string) : option value :=
  match last_value k (var_pairs (arg_var args)) with
  | Some v => Some v
  | None =>
      match last_value k (string_object tenv args) with
      | Some v => Some v
      | None => last_value k (file_object tenv args)
      end
  end.

(** ** The command-line client: [vamscli role constraint template import] *)

(** [key in v] for a string [key] *)
Definition py_in (key : string) (v : value) : py_result bool :=
  match v with
  | VDict d => Ok (match dict_get key d with Some _ => true | None => false end)
  | VList l =>
      Ok (existsb (fun x => match x with
                            | VStr t => String.eqb t key
                            | _ => false
                            end) l)
  | VStr s => Ok (contains key s)
  | _ => Fails (Builtin (TypeError
           ("argument of type '" +:+ type_name v +:+ "' is not iterable")))
  end.

(** Where the command stands after its checks: it calls the API with the
    template and has read the role name, the number of constraints and the
    template name; or it raises; or [output_error], which is not in this
    part of the repository, did not return. *)
Inductive cli_step : Type :=
| CallApi (template_data role_name : value) (constraint_count : nat)
    (template_name : value)
| CliRaises (e : pyerr)
| OutputErrorEnds (error : string).

(** [output_error(ValueError(error), ...)] followed by
    [raise click.ClickException(message)] *)
Definition reject (output_error_returns : bool) (error message : string)
    : cli_step :=
  if output_error_returns
  then CliRaises (ClickException message)
  else OutputErrorEnds error.

Definition checked {A : Type} (r : py_result A) (k : A -> cli_step) : cli_step :=
  match r with
  | Ok a => k a
  | Fails e => CliRaises e
  end.

(** The body of [template_import] from the parsed input to the API call.
    An exception that is not click's is raised again by the handler at the
    end of the command. *)
Definition template_import (output_error_returns : bool) (template_data : value)
    : cli_step :=
  if negb (py_truthy template_data)
  then reject output_error_returns "Template data is empty" "Template data is empty"
  else
    checked (py_in "variableValues" template_data) (fun has_values =>
    if negb has_values
    then reject output_error_returns "Missing 'variableValues' field"
           "Missing 'variableValues' field in template data"
    else
      checked (value_get template_data "variableValues" (VDict [])) (fun values =>
      checked (py_in "ROLE_NAME" values) (fun has_role =>
      if negb has_role
      then reject output_error_returns "Missing 'ROLE_NAME' in variableValues"
             "Missing 'ROLE_NAME' in variableValues"
      else
        checked (py_in "constraints" template_data) (fun has_constraints =>
        checked (if has_constraints
                 then of_outcome (subscript template_data "constraints")
                 else Ok VNone) (fun constraints =>
        if negb has_constraints || negb (py_truthy constraints)
        then reject output_error_returns "Missing or empty 'constraints' field"
               "Missing or empty 'constraints' field in template data"
        else
          checked (of_outcome (subscript template_data "variableValues")) (fun values =>
          checked (of_outcome (subscript values "ROLE_NAME")) (fun role_name =>
          checked (of_outcome (subscript template_data "constraints")) (fun constraints =>
          checked (py_len constraints) (fun constraint_count =>
          checked (value_get template_data "metadata" (VDict [])) (fun metadata =>
          checked (value_get metadata "name" (VStr "unknown")) (fun template_name =>
          CallApi template_data role_name constraint_count template_name))))))))))).

(** *** When the variables resolve *)





(** *** An example run *)

Definition dq : string := String (ascii_of_nat 34) "".

Definition example_variables_json : string :=
  "{" +:+ dq +:+ "DATABASE_ID" +:+ dq +:+ ": " +:+ dq +:+ "from-string" +:+ dq +:+ "}".

Definition example_template_file : dict :=
  [("metadata", VDict [("name", VStr "Database Admin"); ("version", VStr "1.0")]);
   ("variables", VList [VDict [("name", VStr "DATABASE_ID"); ("required", VBool true)]]);
   ("constraints",
    VList [VDict [("name", VStr "{{ROLE_NAME}}-database");
                  ("objectType", VStr "database");
                  ("criteriaAnd",
                   VList [VDict [("field", VStr "databaseId");
                                 ("operator", VStr "equals");
                                 ("value", VStr "{{DATABASE_ID}}")]]);
                  ("groupPermissions",
                   VList [VDict [("action", VStr "GET"); ("type", VStr "allow")]])]])].

(** A tool environment: two files, one JSON text, and [run] for the
    commands *)
Definition example_tool_env (run : Trace -> list string -> run_result) : ToolEnv :=
  {| read_json_file := fun path =>
       if String.eqb path "vars.json"
       then FileJson (Json (VDict [("DATABASE_ID", VStr "from-file");
                                   ("TAG_VALUE", VStr "locked")]))
       else if String.eqb path "database-admin.json"
       then FileJson (Json (VDict example_template_file))
       else if String.eqb path "no-constraints.json"
       then FileJson (Json (VDict [("metadata", VDict []); ("constraints", VNone)]))
       else NotAFile;
     json_loads := fun text =>
       if String.eqb text example_variables_json
       then Json (VDict [("DATABASE_ID", VStr "from-string")])
       else if String.eqb text "{}" then Json (VDict [])
       else JSONDecodeError "Expecting value";
     json_dumps := fun _ => "<template>";
     tool_str := fun _ => "<value>";
     subprocess_run := run |}.

(** Every command succeeds and prints an empty object *)
Definition all_succeed : Trace -> list string -> run_result :=
  fun _ _ => Completed {| returncode := 0; stdout := "{}"; stderr := "" |}.

(** Every command fails *)
Definition all_fail : Trace -> list string -> run_result :=
  fun _ _ => Completed {| returncode := 1; stdout := ""; stderr := "Forbidden" |}.

(** The arguments of a run that takes variables from all three sources *)
Definition example_args : Args :=
  {| arg_template := "database-admin.json";
     arg_role_name := "my-db-admin";
     arg_role_description := None;
     arg_mfa_required := false;
     arg_variables := Some example_variables_json;
     arg_variables_file := Some "vars.json";
     arg_var := ["DATABASE_ID=from-var"; "FILTER=a=b"];
     arg_profile := None;
     arg_dry_run := false;
     arg_delete := false;
     arg_assign_user := Some "john.doe" |}.

Definition example_resolved : dict :=
  [("DATABASE_ID", VStr "from-var"); ("TAG_VALUE", VStr "locked");
   ("FILTER", VStr "a=b"); ("ROLE_NAME", VStr "my-db-admin")].

(** *** The commands of a run *)

Definition create_command (args : Args) (description : string) : list string :=
  vamscli_command (arg_profile args)
    (["role"; "create"; "-r"; arg_role_name args; "--description"; description]
     ++ (if arg_mfa_required args then ["--mfa-required"] else [])).

Definition import_command (args : Args) (template_json : string) : list string :=
  vamscli_command (arg_profile args)
    ["role"; "constraint"; "template"; "import"; "-j"; template_json; "--json-output"].

Definition assign_command (args : Args) (user_id : string) : list string :=
  vamscli_command (arg_profile args)
    ["role"; "user"; "create"; "-u"; user_id; "--role-name"; arg_role_name args].

Definition delete_command (args : Args) : list string :=
  vamscli_command (arg_profile args)
    ["role"; "delete"; "-r"; arg_role_name args; "--confirm"; "--json-output"].

(** The role is there after [create_role]'s command *)
Definition role_ready (result : CompletedProcess) : bool :=
  (returncode result =? 0)%Z || reports_existing_role result.

(** A computation that launches no command *)
Definition quiet {A : Type} (m : T A) : Prop :=
  forall tr o tr', m tr = (o, tr') -> tr' = tr.

(** The description [apply_template] gives the role *)
Definition role_description_of (tenv : ToolEnv) (args : Args) (template_name : value)
    : string :=
  match given (arg_role_description args) with
  | Some d => d
  | None => tool_format tenv template_name +:+ " - " +:+ arg_role_name args
  end.

(** The template [apply_template] sends: the loaded one with the resolved
    variables as its [variableValues] *)
Definition sent_template (template_data var_values : dict) : dict :=
  dict_set "variableValues" (VDict var_values) template_data.

(** [template_data.get("metadata", {}).get("name", default)] and
    [template_data.get("constraints", [])] *)
Definition metadata_name (template_data : dict) (default : string)
    : py_result value :=
  value_get (get_default (dict_get "metadata" template_data) (VDict []))
    "name" (VStr default).

Definition constraints_of (template_data : dict) : value :=
  get_default (dict_get "constraints" template_data) (VList []).

Definition example_dry_run_args : Args :=
  {| arg_template := "database-admin.json";
     arg_role_name := "my-db-admin";
     arg_role_description := None;
     arg_mfa_required := true;
     arg_variables := None;
     arg_variables_file := None;
     arg_var := ["DATABASE_ID=db1"];
     arg_profile := Some "staging";
     arg_dry_run := true;
     arg_delete := false;
     arg_assign_user := Some "john.doe" |}.

(** The commands of the example run when every command can be launched *)
Definition example_trace : Trace :=
  [create_command example_args "Database Admin - my-db-admin";
   import_command example_args "<template>";
   assign_command example_args "john.doe"].

(** The import command fails, the other commands succeed *)
Definition import_fails : Trace -> list string -> run_result :=
  fun tr cmd => if length tr =? 1 then all_fail tr cmd else all_succeed tr cmd.

Definition example_delete_args : Args :=
  {| arg_template := "database-admin.json";
     arg_role_name := "my-db-admin";
     arg_role_description := None;
     arg_mfa_required := false;
     arg_variables := None;
     arg_variables_file := None;
     arg_var := [];
     arg_profile := Some "staging";
     arg_dry_run := false;
     arg_delete := true;
     arg_assign_user := None |}.

(** A run on a template whose [constraints] is [null] *)
Definition example_null_args : Args :=
  {| arg_template := "no-constraints.json";
     arg_role_name := "my-db-admin";
     arg_role_description := Some "Admin";
     arg_mfa_required := false;
     arg_variables := None;
     arg_variables_file := None;
     arg_var := [];
     arg_profile := None;
     arg_dry_run := false;
     arg_delete := false;
     arg_assign_user := None |}.

(** ** What a run wrote and logged *)

(** The run from [s] to [s'] added an item of the constraint
    [constraint_id] to the table. *)
Definition written (constraint_id : string) (s s' : Store) : Prop :=
  exists (new : list Item) (it : Item),
    puts s' = puts s ++ new
    /\ it ∈ new
    /\ startswith constraint_id (constraintId it) = true.

(** Every record the computation logs has the level [lv]. *)
Definition logs_at {A : Type} (lv : level) (m : M A) : Prop :=
  forall s : Store, Forall (fun r : log_record => r.1 = lv) (m s).2.

(** A name outside ASCII: [café], whose last character is the code point
    233 *)
Definition accented_name : string := "caf" +:+ String (ascii_of_nat 233) "".

(** * Properties of the denormalizer *)

Lemma elem_of_first_occurrences (l : list string) :
  forall (seen : gset string) (x : string),
    x ∈ first_occurrences seen l <-> x ∈ l /\ x ∉ seen.
Proof.
  induction l as [|y l IH]; intros seen x; simpl.
  - rewrite elem_of_nil. tauto.
  - case_bool_decide as Hy.
    + rewrite IH, elem_of_cons. split; [tauto|].
      intros [[->|Hx] Hn]; [contradiction|tauto].
    + rewrite !elem_of_cons, IH, not_elem_of_union, not_elem_of_singleton.
      split.
      * intros [->|(Hx & Hne & Hn)]; tauto.
      * intros [[->|Hx] Hn]; [tauto|].
        destruct (decide (x = y)) as [->|Hne]; tauto.
Qed.

Lemma NoDup_first_occurrences (l : list string) :
  forall seen : gset string, NoDup (first_occurrences seen l).
Proof.
  induction l as [|y l IH]; intros seen; simpl.
  - constructor.
  - case_bool_decide as Hy; [apply IH|].
    constructor; [|apply IH].
    rewrite elem_of_first_occurrences, not_elem_of_union, not_elem_of_singleton.
    tauto.
Qed.

Lemma length_first_occurrences (l : list string) :
  length (first_occurrences ∅ l) = size (list_to_set l : gset string).
Proof.
  rewrite <- (size_list_to_set (C := gset string) (first_occurrences ∅ l))
    by apply NoDup_first_occurrences.
  f_equal. apply set_eq. intros x.
  rewrite !elem_of_list_to_set, elem_of_first_occurrences.
  pose proof (not_elem_of_empty (C := gset string) x). tauto.
Qed.

Lemma elem_of_grantee_ids (l : list (option string)) (x : string) :
  x ∈ grantee_ids l <-> Some x ∈ l /\ x <> "".
Proof.
  unfold grantee_ids. rewrite list_elem_of_omap. split.
  - intros (o & Ho & Hx). destruct o as [s|]; simpl in Hx; [|discriminate].
    destruct (String.eqb_spec s ""); simpl in Hx; [discriminate|].
    injection Hx as ->. auto.
  - intros [Hin Hne]. exists (Some x). split; [assumption|]. simpl.
    destruct (String.eqb_spec x ""); [contradiction|reflexivity].
Qed.

Lemma fold_fan_out (mk : string -> Item) (l : list (option string)) :
  forall (seen : gset string) (items : list Item),
    (fold_left (fan_out_step mk) l (seen, items)).2
    = items ++ map mk (first_occurrences seen (grantee_ids l)).
Proof.
  induction l as [|o l IH]; intros seen items; simpl.
  - by rewrite app_nil_r.
  - destruct o as [s|]; simpl; [|apply IH].
    destruct (String.eqb_spec s ""); simpl; [apply IH|].
    case_bool_decide as Hs; simpl.
    + apply IH.
    + rewrite IH. simpl. by rewrite <- app_assoc.
Qed.

Lemma fan_out_spec (mk : string -> Item) (l : list (option string))
    (items : list Item) :
  fan_out mk l items = items ++ map mk (first_occurrences ∅ (grantee_ids l)).
Proof. apply fold_fan_out. Qed.

#[local] Instance group_key_inj (cid : string) : Inj (=) (=) (group_key cid).
Proof.
  intros g g' H. unfold group_key in H.
  by apply (inj (String.app cid)), (inj (String.app "#group#")) in H.
Qed.

#[local] Instance user_key_inj (cid : string) : Inj (=) (=) (user_key cid).
Proof.
  intros u u' H. unfold user_key in H.
  by apply (inj (String.app cid)), (inj (String.app "#user#")) in H.
Qed.

Lemma group_key_not_user_key (cid g u : string) : group_key cid g <> user_key cid u.
Proof.
  unfold group_key, user_key. intros H.
  apply (inj (String.app cid)) in H. discriminate H.
Qed.

Lemma string_app_length (s t : string) :
  String.length (s +:+ t) = String.length s + String.length t.
Proof. induction s as [|a s IH]; simpl; [reflexivity|]. by rewrite IH. Qed.

Lemma group_key_not_bare (cid g : string) : group_key cid g <> cid.
Proof.
  intros H. apply (f_equal String.length) in H.
  unfold group_key in H. rewrite !string_app_length in H. simpl in H. lia.
Qed.

Lemma user_key_not_bare (cid u : string) : user_key cid u <> cid.
Proof.
  intros H. apply (f_equal String.length) in H.
  unfold user_key in H. rewrite !string_app_length in H. simpl in H. lia.
Qed.

Section DenormalizeFacts.

Variables (now1 now2 : string) (cd : ConstraintData).

Let cid := identifier cd.
Let b := base_item now1 now2 cd.
Let gids := grantee_ids (map groupId (get_default (groupPermissions cd) [])).
Let uids := grantee_ids (map userId (get_default (userPermissions cd) [])).
Let G := first_occurrences ∅ gids.
Let U := first_occurrences ∅ uids.

Lemma denormalize_items :
  _transform_to_denormalized_format now1 now2 cd
  = match G ++ U with
    | [] => [bare_item b cid]
    | _ => map (group_item b cid) G ++ map (user_item b cid) U
    end.
Proof.
  unfold _transform_to_denormalized_format. rewrite !fan_out_spec. simpl.
  fold b cid gids uids G U.
  destruct G as [|g G']; [destruct U as [|u U']|]; reflexivity.
Qed.

Lemma denormalize_keys :
  keys (_transform_to_denormalized_format now1 now2 cd)
  = match G ++ U with
    | [] => [cid]
    | _ => map (group_key cid) G ++ map (user_key cid) U
    end.
Proof.
  rewrite denormalize_items. unfold keys.
  destruct (G ++ U); [reflexivity|].
  rewrite map_app, !map_map. reflexivity.
Qed.

Lemma denormalize_length :
  length (_transform_to_denormalized_format now1 now2 cd)
  = Nat.max 1 (size (list_to_set gids : gset string)
               + size (list_to_set uids : gset string)).
Proof.
  rewrite denormalize_items, <- !length_first_occurrences. fold G U.
  destruct G as [|g G']; [destruct U as [|u U']|]; simpl;
    rewrite ?length_app, ?length_map; simpl; lia.
Qed.

Lemma denormalize_keys_NoDup :
  NoDup (keys (_transform_to_denormalized_format now1 now2 cd)).
Proof.
  rewrite denormalize_keys.
  destruct (G ++ U); [apply NoDup_singleton|].
  apply NoDup_app. split; [|split].
  - apply (NoDup_fmap_2 (group_key cid)).
    apply NoDup_first_occurrences.
  - intros k Hg Hu.
    apply list_elem_of_fmap in Hg as (g & -> & _).
    apply list_elem_of_fmap in Hu as (u & Hk & _).
    by apply group_key_not_user_key in Hk.
  - apply (NoDup_fmap_2 (user_key cid)).
    apply NoDup_first_occurrences.
Qed.

End DenormalizeFacts.

Example fan_out_AAB_U :
  keys (_transform_to_denormalized_format "t1" "t2"
          (constraint_of_grantees "c1" [Some "A"; Some "A"; Some "B"] [Some "U"]))
  = ["c1#group#A"; "c1#group#B"; "c1#user#U"].
Proof. vm_compute. reflexivity. Qed.

(** C2.  A constraint whose group and user permission lists are both empty
    is denormalized to exactly one item, keyed by the bare constraint id and
    carrying neither a group id nor a user id. *)
Theorem no_grantee_fallback (now1 now2 : string) (cd : ConstraintData) :
  get_default (groupPermissions cd) [] = [] ->
  get_default (userPermissions cd) [] = [] ->
  exists it : Item,
    _transform_to_denormalized_format now1 now2 cd = [it]
    /\ constraintId it = identifier cd
    /\ it_groupId it = None
    /\ it_userId it = None.
Proof.
  intros Hg Hu. rewrite denormalize_items, Hg, Hu. simpl.
  eexists. split; [reflexivity|]. simpl. auto.
Qed.

Lemma no_grantee_fallback_witness :
  exists it : Item,
    _transform_to_denormalized_format "t1" "t2" (constraint_of_grantees "c1" [] [])
    = [it]
    /\ constraintId it = "c1" /\ it_groupId it = None /\ it_userId it = None.
Proof.
  apply (no_grantee_fallback "t1" "t2" (constraint_of_grantees "c1" [] []));
    reflexivity.
Defined.

(** C10.  Only permission entries with a non-empty grantee id count: the
    number of items is [max 1 (distinct non-empty group ids + distinct
    non-empty user ids)], and when every entry has an absent or empty grantee
    id the result is the single base item keyed by the bare constraint id. *)
Theorem empty_grantees_contribute_nothing (now1 now2 : string) (cd : ConstraintData) :
  let gperms := get_default (groupPermissions cd) [] in
  let uperms := get_default (userPermissions cd) [] in
  let items := _transform_to_denormalized_format now1 now2 cd in
  length items
  = Nat.max 1
      (size (list_to_set (grantee_ids (map groupId gperms)) : gset string)
       + size (list_to_set (grantee_ids (map userId uperms)) : gset string))
  /\ (forall x : string, x ∈ grantee_ids (map groupId gperms)
                         <-> Some x ∈ map groupId gperms /\ x <> "")
  /\ (forall x : string, x ∈ grantee_ids (map userId uperms)
                         <-> Some x ∈ map userId uperms /\ x <> "")
  /\ (Forall (fun p => truthy (groupId p) = false) gperms ->
      Forall (fun p => truthy (userId p) = false) uperms ->
      exists it : Item,
        items = [it] /\ constraintId it = identifier cd
        /\ it_groupId it = None /\ it_userId it = None).
Proof.
  intros gperms uperms items.
  split; [apply denormalize_length|].
  split; [intros x; apply elem_of_grantee_ids|].
  split; [intros x; apply elem_of_grantee_ids|].
  intros Hg Hu. subst items. rewrite denormalize_items.
  fold gperms uperms.
  assert (Hnil : forall (A : Type) (f : A -> option string) (l : list A),
             Forall (fun p => truthy (f p) = false) l ->
             grantee_ids (map f l) = []).
  { intros A f l. induction 1 as [|p l Hp _ IH]; [reflexivity|].
    unfold grantee_ids in *. simpl. rewrite Hp. exact IH. }
  rewrite (Hnil _ _ _ Hg), (Hnil _ _ _ Hu). simpl.
  eexists. split; [reflexivity|]. simpl. auto.
Qed.

Lemma empty_grantees_contribute_nothing_witness :
  exists it : Item,
    _transform_to_denormalized_format "t1" "t2"
      (constraint_of_grantees "c1" [Some ""; None] [Some ""])
    = [it]
    /\ constraintId it = "c1" /\ it_groupId it = None /\ it_userId it = None.
Proof.
  apply (empty_grantees_contribute_nothing "t1" "t2"
           (constraint_of_grantees "c1" [Some ""; None] [Some ""])).
  - repeat constructor.
  - repeat constructor.
Defined.

Lemma grantee_ids_cons (x : string) (l : list (option string)) :
  x <> "" -> grantee_ids (Some x :: l) = x :: grantee_ids l.
Proof.
  intros Hx. unfold grantee_ids.
  change (omap ?f (Some x :: l))
    with (match (if truthy (Some x) then Some x else None) with
          | Some y => y :: omap f l
          | None => omap f l
          end).
  unfold truthy. by destruct (String.eqb_spec x "").
Qed.

Lemma first_occurrences_aab (a b : string) :
  a <> b -> first_occurrences ∅ [a; a; b] = [a; b].
Proof.
  intros Hab. cbn [first_occurrences].
  rewrite (bool_decide_eq_false_2 (a ∈ (∅ : gset string)))
    by apply not_elem_of_empty.
  rewrite (bool_decide_eq_true_2 (a ∈ ({[a]} ∪ ∅ : gset string)))
    by (apply elem_of_union; left; by apply elem_of_singleton).
  rewrite (bool_decide_eq_false_2 (b ∈ ({[a]} ∪ ∅ : gset string))).
  - reflexivity.
  - intros [Hb|Hb]%elem_of_union.
    + apply elem_of_singleton in Hb. congruence.
    + by apply not_elem_of_empty in Hb.
Qed.

Lemma first_occurrences_one (u : string) : first_occurrences ∅ [u] = [u].
Proof.
  cbn [first_occurrences].
  by rewrite (bool_decide_eq_false_2 (u ∈ (∅ : gset string)))
    by apply not_elem_of_empty.
Qed.

(** C1 as stated fails on an entry whose group id is the empty string: the
    id appears in groupPermissions, yet no item keyed
    [constraintId#group#] is emitted (the loop tests the id for truth). *)
Lemma fan_out_per_distinct_id_counterexample :
  ~ (forall (now1 now2 : string) (cd : ConstraintData) (g : string),
       Some g ∈ map groupId (get_default (groupPermissions cd) []) ->
       group_key (identifier cd) g
         ∈ keys (_transform_to_denormalized_format now1 now2 cd)).
Proof.
  intros H.
  specialize (H "t1" "t2" (constraint_of_grantees "c1" [Some ""] []) "").
  assert (Hk : keys (_transform_to_denormalized_format "t1" "t2"
                       (constraint_of_grantees "c1" [Some ""] [])) = ["c1"])
    by (vm_compute; reflexivity).
  rewrite Hk in H.
  assert (Hin : group_key "c1" "" ∈ ["c1"]) by (apply H; simpl; left).
  apply list_elem_of_singleton in Hin. discriminate Hin.
Qed.

(** C1, amended.  The partition keys of the emitted items are pairwise
    distinct; every non-empty group id of groupPermissions has its item
    [constraintId#group#groupId], every non-empty user id of userPermissions
    its item [constraintId#user#userId]; every emitted item is one of
    these, or the base item when there is no non-empty grantee id; and
    group permissions for the groups A, A, B with user permissions for U
    (non-empty ids, A other than B) give exactly the three items keyed
    [constraintId#group#A], [constraintId#group#B], [constraintId#user#U]. *)
Theorem fan_out_one_item_per_grantee (now1 now2 : string) (cd : ConstraintData) :
  let cid := identifier cd in
  let gperms := get_default (groupPermissions cd) [] in
  let uperms := get_default (userPermissions cd) [] in
  let items := _transform_to_denormalized_format now1 now2 cd in
  NoDup (keys items)
  /\ (forall g : string,
        Some g ∈ map groupId gperms -> g <> "" -> group_key cid g ∈ keys items)
  /\ (forall u : string,
        Some u ∈ map userId uperms -> u <> "" -> user_key cid u ∈ keys items)
  /\ (forall it : Item, it ∈ items ->
        (exists g : string,
            Some g ∈ map groupId gperms /\ g <> ""
            /\ constraintId it = group_key cid g /\ it_groupId it = Some g)
        \/ (exists u : string,
            Some u ∈ map userId uperms /\ u <> ""
            /\ constraintId it = user_key cid u /\ it_userId it = Some u)
        \/ (constraintId it = cid
            /\ grantee_ids (map groupId gperms) = []
            /\ grantee_ids (map userId uperms) = []))
  /\ (forall A B U : string,
        A <> "" -> B <> "" -> U <> "" -> A <> B ->
        map groupId gperms = [Some A; Some A; Some B] ->
        map userId uperms = [Some U] ->
        keys items = [group_key cid A; group_key cid B; user_key cid U]).
Proof.
  intros cid gperms uperms items.
  split; [apply denormalize_keys_NoDup|].
  assert (Hfo : forall (l : list string) (x : string),
             x ∈ first_occurrences ∅ l <-> x ∈ l).
  { intros l x. rewrite elem_of_first_occurrences.
    pose proof (not_elem_of_empty (C := gset string) x). tauto. }
  split; [|split; [|split]].
  - intros g Hin Hne. subst items. rewrite denormalize_keys.
    fold cid gperms uperms.
    assert (Hg : g ∈ first_occurrences ∅ (grantee_ids (map groupId gperms)))
      by (apply Hfo, elem_of_grantee_ids; auto).
    destruct (first_occurrences ∅ (grantee_ids (map groupId gperms)) ++ _) eqn:E.
    + apply app_eq_nil in E as [E _]. rewrite E in Hg. inversion Hg.
    + apply elem_of_app. left. apply list_elem_of_fmap. eauto.
  - intros u Hin Hne. subst items. rewrite denormalize_keys.
    fold cid gperms uperms.
    assert (Hu : u ∈ first_occurrences ∅ (grantee_ids (map userId uperms)))
      by (apply Hfo, elem_of_grantee_ids; auto).
    destruct (_ ++ first_occurrences ∅ (grantee_ids (map userId uperms))) eqn:E.
    + apply app_eq_nil in E as [_ E]. rewrite E in Hu. inversion Hu.
    + apply elem_of_app. right. apply list_elem_of_fmap. eauto.
  - intros it. subst items. rewrite denormalize_items.
    fold cid gperms uperms.
    destruct (first_occurrences ∅ (grantee_ids (map groupId gperms)) ++ _) eqn:E.
    + apply app_eq_nil in E as [Eg Eu].
      intros ->%list_elem_of_singleton. right. right. simpl.
      split; [reflexivity|].
      split.
      * destruct (grantee_ids (map groupId gperms)) as [|x l] eqn:El;
          [reflexivity|].
        assert (Hx : x ∈ first_occurrences ∅ (x :: l)) by (apply Hfo; left).
        rewrite Eg in Hx. inversion Hx.
      * destruct (grantee_ids (map userId uperms)) as [|x l] eqn:El;
          [reflexivity|].
        assert (Hx : x ∈ first_occurrences ∅ (x :: l)) by (apply Hfo; left).
        rewrite Eu in Hx. inversion Hx.
    + intros [Hit|Hit]%elem_of_app.
      * left. apply list_elem_of_fmap in Hit as (g & -> & Hg).
        apply Hfo, elem_of_grantee_ids in Hg as [Hin Hne].
        exists g. simpl. auto.
      * right. left. apply list_elem_of_fmap in Hit as (u & -> & Hu).
        apply Hfo, elem_of_grantee_ids in Hu as [Hin Hne].
        exists u. simpl. auto.
  - intros A B U HA HB HU HAB Hg Hu. subst items.
    rewrite denormalize_keys. fold cid gperms uperms. rewrite Hg, Hu.
    rewrite !grantee_ids_cons by assumption.
    change (grantee_ids []) with (@nil string).
    by rewrite first_occurrences_aab, first_occurrences_one.
Qed.

Lemma fan_out_one_item_per_grantee_witness :
  group_key "c1" "A"
    ∈ keys (_transform_to_denormalized_format "t1" "t2"
              (constraint_of_grantees "c1" [Some "A"; Some "A"; Some "B"] [Some "U"]))
  /\ user_key "c1" "U"
    ∈ keys (_transform_to_denormalized_format "t1" "t2"
              (constraint_of_grantees "c1" [Some "A"; Some "A"; Some "B"] [Some "U"])).
Proof.
  pose proof (fan_out_one_item_per_grantee "t1" "t2"
    (constraint_of_grantees "c1" [Some "A"; Some "A"; Some "B"] [Some "U"]))
    as (_ & Hg & Hu & _ & _).
  split.
  - apply Hg; [simpl; left | discriminate].
  - apply Hu; [simpl; left | discriminate].
Defined.

(** * Properties of the substitution *)

Lemma string_app_cons (c : ascii) (s t : string) :
  String c s +:+ t = String c (s +:+ t).
Proof. reflexivity. Qed.

Lemma string_app_nil_l (t : string) : "" +:+ t = t.
Proof. reflexivity. Qed.

Lemma startswith_app_l (p s t : string) :
  startswith p s = true -> startswith p (s +:+ t) = true.
Proof.
  revert s. induction p as [|a p IH]; intros s H; [reflexivity|].
  destruct s as [|b s]; [discriminate|].
  rewrite string_app_cons. simpl in *.
  apply andb_true_iff in H as [Hab Hp]. rewrite Hab. simpl. auto.
Qed.

Lemma contains_app_l (t s r : string) :
  contains t s = true -> contains t (s +:+ r) = true.
Proof.
  induction s as [|c s IH]; intros H.
  - simpl in H. rewrite orb_false_r in H.
    destruct t; [|discriminate]. destruct r; reflexivity.
  - cbn [contains] in H.
    apply orb_true_iff in H as [H|H].
    + apply (startswith_app_l _ _ r) in H. rewrite string_app_cons in *.
      cbn [contains]. by rewrite H.
    + rewrite string_app_cons. cbn [contains].
      rewrite (IH H). apply orb_true_r.
Qed.

Lemma contains_app_r (t s r : string) :
  contains t r = true -> contains t (s +:+ r) = true.
Proof.
  intros H. induction s as [|c s IH]; [exact H|].
  rewrite string_app_cons. cbn [contains]. rewrite IH. apply orb_true_r.
Qed.

(** A replacement leaves in the result whatever the new text contains. *)
Lemma replace_from_introduces (old new t : string) (s : string) :
  contains old s = true -> old <> "" -> contains t new = true ->
  contains t (replace_from old new 0 s) = true.
Proof.
  intros Hs Hold Ht. induction s as [|c s IH].
  - simpl in Hs. rewrite orb_false_r in Hs. destruct old; [done|discriminate].
  - cbn [replace_from].
    destruct (startswith old (String c s)) eqn:Hsw.
    + by apply contains_app_l.
    + cbn [contains] in Hs. rewrite Hsw in Hs. simpl in Hs.
      cbn [contains]. rewrite (IH Hs). apply orb_true_r.
Qed.

(** A text in which [old] does not occur is left as it is. *)
Lemma replace_from_absent (old new s : string) :
  contains old s = false -> replace_from old new 0 s = s.
Proof.
  induction s as [|c s IH]; intros H; [reflexivity|].
  cbn [contains] in H. apply orb_false_iff in H as [Hsw Hc].
  cbn [replace_from]. rewrite Hsw. f_equal. auto.
Qed.

Lemma placeholder_not_empty (var_name : string) : placeholder var_name <> "".
Proof. discriminate. Qed.

Lemma str_replace_placeholder (var_name new s : string) :
  str_replace (placeholder var_name) new s
  = replace_from (placeholder var_name) new 0 s.
Proof. reflexivity. Qed.

Lemma replace_in_string_app (pre post : list (string * string)) (s : string) :
  replace_in_string (pre ++ post) s
  = replace_in_string post (replace_in_string pre s).
Proof. unfold replace_in_string. apply fold_left_app. Qed.

Lemma replace_in_string_absent (post : list (string * string)) (s : string) :
  Forall (fun kv => contains (placeholder kv.1) s = false) post ->
  replace_in_string post s = s.
Proof.
  induction 1 as [|kv post Hkv _ IH]; [reflexivity|].
  unfold replace_in_string in *. cbn [fold_left].
  rewrite str_replace_placeholder, (replace_from_absent _ _ _ Hkv). exact IH.
Qed.

(** C4 as stated fails: with [A] before [B] in [variableValues], the
    [{{B}}] brought in by the value of [A] is replaced in its turn. *)
Lemma substitution_non_recursive_counterexample :
  ~ (forall (var_values : list (string * string)) (A B vA s : string),
       var_get A var_values = Some vA ->
       contains (placeholder B) vA = true ->
       contains (placeholder A) s = true ->
       contains (placeholder B) (replace_in_string var_values s) = true).
Proof.
  intros H.
  specialize (H [("A", "{{B}}"); ("B", "x")] "A" "B" "{{B}}" "{{A}}"
                eq_refl eq_refl eq_refl).
  vm_compute in H. discriminate H.
Qed.

Lemma startswith_refl (p : string) : startswith p p = true.
Proof.
  induction p as [|a p IH]; [reflexivity|].
  cbn [startswith]. by rewrite Ascii.eqb_refl.
Qed.

Lemma startswith_app (p r : string) : startswith p (p +:+ r) = true.
Proof. apply startswith_app_l, startswith_refl. Qed.

(** Passing over the rest of a match *)
Lemma replace_from_skip (old new p r : string) :
  replace_from old new (String.length p) (p +:+ r) = replace_from old new 0 r.
Proof.
  induction p as [|c p IH]; [reflexivity|].
  rewrite string_app_cons. cbn [replace_from String.length]. exact IH.
Qed.

Lemma replace_from_match (old new r : string) :
  old <> "" ->
  replace_from old new 0 (old +:+ r) = new +:+ replace_from old new 0 r.
Proof.
  destruct old as [|a old]; [done|]. intros _.
  rewrite string_app_cons. cbn [replace_from].
  rewrite <- string_app_cons, startswith_app. f_equal.
  replace (String.length (String a old) - 1) with (String.length old)
    by (cbn [String.length]; lia).
  apply replace_from_skip.
Qed.

Lemma string_app_nil_r (s : string) : s +:+ "" = s.
Proof.
  induction s as [|c s IH]; [reflexivity|].
  by rewrite string_app_cons, IH.
Qed.

Lemma str_replace_whole (var_name new : string) :
  str_replace (placeholder var_name) new (placeholder var_name) = new.
Proof.
  rewrite str_replace_placeholder.
  rewrite <- (string_app_nil_r (placeholder var_name)) at 2.
  rewrite replace_from_match by apply placeholder_not_empty.
  apply string_app_nil_r.
Qed.

(** C4, amended.  Each variable is replaced in one pass, in the iteration
    order of [variableValues].  When the turn of [A] comes with [{{A}}] in
    the text, whatever the value of [A] contains (a [{{B}}], say) is in the
    text after that pass, and it is still in the output when no variable
    after [A] in the order has its placeholder in that text: the value is
    scanned again only by the variables that follow [A].  A [{{B}}] that
    the value of [A] brings in is replaced when [B] follows [A]. *)
Theorem substitution_rescans_only_later_variables :
  (forall (pre post : list (string * string)) (A vA s t : string),
      let before := replace_in_string pre s in
      let after := str_replace (placeholder A) vA before in
      contains (placeholder A) before = true ->
      contains t vA = true ->
      Forall (fun kv => contains (placeholder kv.1) after = false) post ->
      contains t after = true
      /\ replace_in_string (pre ++ (A, vA) :: post) s = after)
  /\ (forall A B x : string,
        replace_in_string [(A, placeholder B); (B, x)] (placeholder A) = x).
Proof.
  split.
  - intros pre post A vA s t before after HA Ht Hpost.
    split.
    + apply replace_from_introduces;
        [assumption|apply placeholder_not_empty|assumption].
    + rewrite replace_in_string_app. fold before.
      change (replace_in_string ((A, vA) :: post) before)
        with (replace_in_string post after).
      by apply replace_in_string_absent.
  - intros A B x. unfold replace_in_string. cbn [fold_left fst snd].
    by rewrite !str_replace_whole.
Qed.

Lemma substitution_rescans_only_later_variables_witness :
  contains "{{B}}" (str_replace (placeholder "A") "{{B}}"
                      (replace_in_string [("B", "x")] "{{A}}")) = true
  /\ replace_in_string ([("B", "x")] ++ ("A", "{{B}}") :: [("C", "y")]) "{{A}}"
     = str_replace (placeholder "A") "{{B}}"
         (replace_in_string [("B", "x")] "{{A}}").
Proof.
  apply (proj1 substitution_rescans_only_later_variables
           [("B", "x")] [("C", "y")] "A" "{{B}}" "{{A}}" "{{B}}").
  - reflexivity.
  - reflexivity.
  - repeat constructor.
Defined.

(** ** Substitution on segmented text *)

Lemma placeholder_unfold (n : string) :
  placeholder n = String "{" (String "{" (n +:+ "}}")).
Proof. reflexivity. Qed.

Lemma string_app_assoc (s t u : string) : (s +:+ t) +:+ u = s +:+ (t +:+ u).
Proof.
  induction s as [|c s IH]; [reflexivity|].
  rewrite !string_app_cons. by rewrite IH.
Qed.

(** Characters other than the first of [old] are copied. *)
Lemma replace_from_pass (a : ascii) (old new p r : string) :
  all_chars (fun c => negb (Ascii.eqb a c)) p = true ->
  replace_from (String a old) new 0 (p +:+ r)
  = p +:+ replace_from (String a old) new 0 r.
Proof.
  induction p as [|c p IH]; intros Hp; [reflexivity|].
  cbn [all_chars] in Hp. apply andb_true_iff in Hp as [Hc Hp].
  rewrite !string_app_cons. cbn [replace_from startswith].
  apply negb_true_iff in Hc. rewrite Hc. cbn [andb]. f_equal. auto.
Qed.

Lemma all_chars_app (P : ascii -> bool) (s t : string) :
  all_chars P (s +:+ t) = all_chars P s && all_chars P t.
Proof.
  induction s as [|c s IH]; [reflexivity|].
  rewrite string_app_cons. cbn [all_chars]. by rewrite IH, andb_assoc.
Qed.

Lemma all_chars_impl (P Q : ascii -> bool) (s : string) :
  (forall c, P c = true -> Q c = true) ->
  all_chars P s = true -> all_chars Q s = true.
Proof.
  intros HPQ. induction s as [|c s IH]; [reflexivity|].
  cbn [all_chars]. intros [Hc Hs]%andb_true_iff.
  rewrite (HPQ _ Hc). auto.
Qed.

(** Two brace-free names followed by closing braces: one is a prefix of the
    other only when the names are the same. *)
Lemma startswith_name (A n r : string) :
  all_chars not_brace A = true -> all_chars not_brace n = true ->
  startswith (A +:+ "}}") (n +:+ "}}" +:+ r) = true -> A = n.
Proof.
  revert n. induction A as [|a A IH]; intros n HA Hn H.
  - destruct n as [|b n]; [reflexivity|].
    rewrite string_app_nil_l, string_app_cons in H.
    cbn [all_chars] in Hn. apply andb_true_iff in Hn as [Hb _].
    unfold not_brace in Hb. apply andb_true_iff in Hb as [_ Hb].
    apply negb_true_iff in Hb.
    cbn [startswith] in H. apply andb_true_iff in H as [H _].
    rewrite Ascii.eqb_sym in H. congruence.
  - cbn [all_chars] in HA. apply andb_true_iff in HA as [Ha HA].
    rewrite string_app_cons in H.
    destruct n as [|b n].
    + rewrite string_app_nil_l in H.
      unfold not_brace in Ha. apply andb_true_iff in Ha as [_ Ha].
      apply negb_true_iff in Ha.
      change ("}}" +:+ r) with (String "}" (String "}" r)) in H.
      cbn [startswith] in H. apply andb_true_iff in H as [H _]. congruence.
    + rewrite string_app_cons in H.
      cbn [all_chars] in Hn. apply andb_true_iff in Hn as [_ Hn].
      cbn [startswith] in H. apply andb_true_iff in H as [Hab H].
      apply Ascii.eqb_eq in Hab as ->. f_equal. eauto.
Qed.

Lemma render_app (a b : list segment) : render (a ++ b) = render a +:+ render b.
Proof.
  induction a as [|[c|n] a IH]; simpl; [reflexivity| |].
  - by rewrite IH.
  - by rewrite IH, string_app_assoc.
Qed.

Lemma render_lits (v : string) :
  render (map Lit (String.list_ascii_of_string v)) = v.
Proof. induction v as [|c v IH]; simpl; [reflexivity|]. by rewrite IH. Qed.

(** A placeholder of another variable is copied. *)
Lemma replace_from_other_placeholder (A v n r : string) :
  all_chars not_brace A = true -> all_chars not_brace n = true -> n <> A ->
  replace_from (placeholder A) v 0 (placeholder n +:+ r)
  = placeholder n +:+ replace_from (placeholder A) v 0 r.
Proof.
  intros HA Hn Hne.
  rewrite (placeholder_unfold n), !string_app_cons, string_app_assoc.
  rewrite (placeholder_unfold A).
  cbn [replace_from].
  assert (H1 : startswith (String "{" (String "{" (A +:+ "}}")))
                 (String "{" (String "{" (n +:+ "}}" +:+ r))) = false).
  { cbn [startswith]. rewrite Ascii.eqb_refl. cbn [andb].
    destruct (startswith (A +:+ "}}") (n +:+ "}}" +:+ r)) eqn:E; [|reflexivity].
    apply startswith_name in E; [congruence|assumption..]. }
  rewrite H1. f_equal.
  assert (H2 : startswith (String "{" (String "{" (A +:+ "}}")))
                 (String "{" (n +:+ "}}" +:+ r)) = false).
  { cbn [startswith]. rewrite Ascii.eqb_refl. cbn [andb].
    destruct n as [|b n]; [reflexivity|].
    rewrite string_app_cons. cbn [startswith].
    cbn [all_chars] in Hn. apply andb_true_iff in Hn as [Hb _].
    unfold not_brace in Hb. apply andb_true_iff in Hb as [Hb _].
    apply negb_true_iff in Hb. rewrite Ascii.eqb_sym in Hb.
    by rewrite Hb. }
  rewrite H2. f_equal.
  rewrite <- !string_app_assoc. apply replace_from_pass.
  rewrite all_chars_app. apply andb_true_iff. split; [|reflexivity].
  revert Hn. apply all_chars_impl. intros c Hc.
  unfold not_brace in Hc. apply andb_true_iff in Hc as [Hc _].
  by rewrite Ascii.eqb_sym.
Qed.

(** One pass of [A] over a well-formed segmented text replaces exactly the
    placeholders of [A]. *)
Lemma replace_from_render (names : list string) (A v : string) (segs : list segment) :
  all_chars not_brace A = true ->
  forallb (segment_ok names) segs = true ->
  replace_from (placeholder A) v 0 (render segs)
  = render (flat_map (subst_segment A v) segs).
Proof.
  intros HA. induction segs as [|[c|n] segs IH]; intros Hs; [reflexivity| |].
  - cbn [forallb segment_ok] in Hs. apply andb_true_iff in Hs as [Hc Hs].
    cbn [render flat_map subst_segment app].
    rewrite placeholder_unfold. cbn [replace_from startswith].
    unfold not_open_brace in Hc. apply negb_true_iff in Hc.
    rewrite Ascii.eqb_sym in Hc. rewrite Hc. cbn [andb]. f_equal.
    rewrite <- placeholder_unfold. auto.
  - cbn [forallb segment_ok] in Hs. apply andb_true_iff in Hs as [Hn Hs].
    apply andb_true_iff in Hn as [Hn _].
    cbn [render flat_map subst_segment].
    rewrite render_app. destruct (String.eqb_spec n A) as [->|Hne].
    + rewrite render_lits, replace_from_match by apply placeholder_not_empty.
      f_equal. auto.
    + rewrite replace_from_other_placeholder by assumption.
      cbn [render]. rewrite string_app_assoc. f_equal.
      rewrite string_app_nil_l. auto.
Qed.

(** After every variable has had its pass, a closed text has no opening
    brace left. *)
Lemma replace_in_string_render (var_values : list (string * string)) :
  plain_variables var_values = true ->
  forall segs : list segment,
    forallb (segment_ok (map fst var_values)) segs = true ->
    all_chars not_open_brace (replace_in_string var_values (render segs)) = true.
Proof.
  induction var_values as [|[A v] vv IH]; intros Hvv segs Hsegs.
  - unfold replace_in_string. cbn [fold_left].
    induction segs as [|[c|n] segs IHs]; [reflexivity| |].
    + cbn [forallb segment_ok] in Hsegs.
      apply andb_true_iff in Hsegs as [Hc Hsegs].
      cbn [render all_chars]. rewrite Hc. auto.
    + cbn [forallb segment_ok map mem existsb] in Hsegs.
      rewrite andb_false_r in Hsegs. discriminate.
  - cbn [plain_variables forallb fst snd] in Hvv.
    apply andb_true_iff in Hvv as [HAv Hvv].
    apply andb_true_iff in HAv as [HA Hv].
    change (replace_in_string ((A, v) :: vv) (render segs))
      with (replace_in_string vv (str_replace (placeholder A) v (render segs))).
    rewrite str_replace_placeholder.
    rewrite (replace_from_render _ _ _ _ HA Hsegs).
    apply (IH Hvv). clear IH.
    induction segs as [|[c|n] segs IHs]; [reflexivity| |].
    + cbn [forallb segment_ok] in Hsegs.
      apply andb_true_iff in Hsegs as [Hc Hsegs].
      cbn [flat_map subst_segment app forallb segment_ok].
      rewrite Hc. auto.
    + cbn [forallb segment_ok] in Hsegs.
      apply andb_true_iff in Hsegs as [Hn Hsegs].
      apply andb_true_iff in Hn as [Hn Hmem].
      cbn [flat_map subst_segment]. rewrite forallb_app.
      apply andb_true_iff. split; [|auto].
      destruct (String.eqb_spec n A) as [->|Hne].
      * clear -Hv. induction v as [|c v IHv]; [reflexivity|].
        cbn [all_chars] in Hv. apply andb_true_iff in Hv as [Hc Hv].
        cbn [String.list_ascii_of_string map forallb segment_ok].
        rewrite Hc. auto.
      * cbn [forallb segment_ok]. rewrite Hn.
        cbn [map fst mem existsb] in Hmem.
        apply orb_true_iff in Hmem as [Heq|Hmem].
        -- apply String.eqb_eq in Heq. contradiction.
        -- unfold mem. by rewrite Hmem.
Qed.

Lemma findall_no_open_brace (s : string) :
  all_chars not_open_brace s = true -> findall s = [].
Proof.
  unfold findall. induction s as [|c s IH]; intros H; [reflexivity|].
  cbn [all_chars] in H. apply andb_true_iff in H as [Hc H].
  cbn [findall_from]. unfold match_placeholder.
  change "{{"%string with (String "{" (String "{" "")).
  cbn [startswith]. unfold not_open_brace in Hc.
  apply negb_true_iff in Hc. rewrite Ascii.eqb_sym in Hc. rewrite Hc.
  cbn [andb]. auto.
Qed.

(** Substitution completes a closed text. *)
Lemma replace_in_string_complete (var_values : list (string * string)) (s : string) :
  plain_variables var_values = true ->
  closed_text (map fst var_values) s ->
  findall (replace_in_string var_values s) = [].
Proof.
  intros Hvv (segs & -> & Hsegs).
  by apply findall_no_open_brace, replace_in_string_render.
Qed.

(** ** Substitution and scan on the dictionaries of a template *)

Lemma substitute_criteria_dict (vv : list (string * string)) (c : ConstraintCriteriaModel) :
  substitute_item vv (criteria_dict c) = criteria_dict (subst_criteria vv c).
Proof.
  unfold criteria_dict, subst_criteria. cbn.
  destruct (crit_value c) as [s|l]; cbn; [reflexivity|].
  by rewrite !map_map.
Qed.

Lemma substitute_permission_dict (vv : list (string * string))
    (p : TemplateConstraintPermission) :
  substitute_item vv (permission_dict p) = permission_dict (subst_permission vv p).
Proof.
  unfold permission_dict, subst_permission. cbn.
  destruct (type_ p); reflexivity.
Qed.

Lemma substitute_c_dict (vv : list (string * string)) (c : TemplateConstraintDefinition) :
  map (fun kv => (kv.1, substitute_field vv kv.2)) (c_dict c)
  = c_dict (subst_constraint vv c).
Proof.
  assert (Hc : forall o : option (list ConstraintCriteriaModel),
             map (substitute_item vv) (map criteria_dict (get_default o []))
             = map criteria_dict
                 (get_default (option_map (map (subst_criteria vv)) o) [])).
  { intros [l|]; cbn [get_default option_map map]; [|reflexivity].
    rewrite !map_map. apply map_ext, substitute_criteria_dict. }
  unfold c_dict, subst_constraint.
  cbn [map fst snd substitute_field tc_name tc_description tc_objectType
       tc_criteriaAnd tc_criteriaOr tc_groupPermissions].
  rewrite !Hc. repeat f_equal.
  rewrite !map_map. apply map_ext, substitute_permission_dict.
Qed.

Lemma substitute_variables_c_dict (vv : list (string * string))
    (cs : list TemplateConstraintDefinition) :
  substitute_variables (map c_dict cs) vv = map c_dict (map (subst_constraint vv) cs).
Proof.
  unfold substitute_variables. rewrite !map_map.
  apply map_ext, substitute_c_dict.
Qed.

Lemma template_strings_subst (vv : list (string * string))
    (c : TemplateConstraintDefinition) :
  template_strings (subst_constraint vv c)
  = map (replace_in_string vv) (template_strings c).
Proof.
  assert (Hc : forall l,
             flat_map criteria_strings (map (subst_criteria vv) l)
             = map (replace_in_string vv) (flat_map criteria_strings l)).
  { induction l as [|x l IH]; [reflexivity|].
    cbn [map flat_map]. rewrite map_app, IH. f_equal.
    unfold criteria_strings, subst_criteria. cbn.
    by destruct (crit_value x). }
  assert (Hp : forall l,
             flat_map permission_strings (map (subst_permission vv) l)
             = map (replace_in_string vv) (flat_map permission_strings l)).
  { induction l as [|x l IH]; [reflexivity|].
    cbn [map flat_map]. rewrite map_app, IH. f_equal.
    unfold permission_strings, subst_permission. cbn.
    by destruct (type_ x). }
  unfold template_strings, subst_constraint. cbn.
  rewrite !map_app, <- Hp. repeat f_equal.
  - destruct (tc_criteriaAnd c); cbn; [apply Hc|reflexivity].
  - destruct (tc_criteriaOr c); cbn; [apply Hc|reflexivity].
Qed.

Lemma union_list_empty (Xs : list (gset string)) :
  Forall (fun X => X = ∅) Xs -> ⋃ Xs = ∅.
Proof.
  induction 1 as [|X Xs -> _ IH]; [reflexivity|].
  change (⋃ (∅ :: Xs)) with ((∅ : gset string) ∪ ⋃ Xs).
  rewrite IH. apply (left_id_L ∅ (∪)).
Qed.

Lemma scan_string_empty (s : string) : findall s = [] -> scan_value (VStr s) = ∅.
Proof. intros H. cbn [scan_value]. by rewrite H. Qed.

Lemma scan_list_empty {A : Type} (f : A -> value) (strs : A -> list string)
    (l : list A) :
  (forall a, Forall (fun s => findall s = []) (strs a) -> scan_value (f a) = ∅) ->
  Forall (fun s => findall s = []) (flat_map strs l) ->
  scan_value (VList (map f l)) = ∅.
Proof.
  intros Hf Hl. cbn [scan_value]. apply union_list_empty.
  induction l as [|a l IH]; [constructor|].
  cbn [flat_map] in Hl. apply Forall_app in Hl as [Ha Hl].
  cbn [map]. constructor; auto.
Qed.

Lemma scan_criteria_dict_empty (c : ConstraintCriteriaModel) :
  Forall (fun s => findall s = []) (criteria_strings c) ->
  scan_value (criteria_dict c) = ∅.
Proof.
  unfold criteria_strings, criteria_dict.
  intros H. apply Forall_cons in H as [Hf H].
  apply Forall_cons in H as [Ho Hv].
  cbn [scan_value map snd]. apply union_list_empty.
  repeat constructor; [by rewrite Hf|by rewrite Ho|].
  destruct (crit_value c) as [s|l].
  - apply Forall_cons in Hv as [Hs _]. cbn [scan_value]. by rewrite Hs.
  - cbn [scan_value]. apply union_list_empty.
    induction Hv as [|s l Hs _ IH]; [constructor|].
    cbn [map]. constructor; [|exact IH].
    cbn [scan_value]. by rewrite Hs.
Qed.

Lemma scan_permission_dict_empty (p : TemplateConstraintPermission) :
  Forall (fun s => findall s = []) (permission_strings p) ->
  scan_value (permission_dict p) = ∅.
Proof.
  unfold permission_strings, permission_dict.
  intros H. apply Forall_cons in H as [Ha Ht].
  cbn [scan_value map snd]. apply union_list_empty.
  constructor; [by rewrite Ha|].
  destruct (type_ p) as [t|]; [|constructor].
  apply Forall_cons in Ht as [Ht _].
  cbn [map snd scan_value]. repeat constructor. by rewrite Ht.
Qed.

Lemma scan_c_dict_empty (c : TemplateConstraintDefinition) :
  Forall (fun s => findall s = []) (template_strings c) ->
  ⋃ (map (fun kv => scan_value kv.2) (c_dict c)) = ∅.
Proof.
  unfold template_strings, c_dict. intros H.
  apply Forall_cons in H as [Hn H].
  apply Forall_cons in H as [Hd H].
  apply Forall_cons in H as [Ho H].
  apply Forall_app in H as [Ha H].
  apply Forall_app in H as [Hr Hp].
  apply union_list_empty. cbn [map snd].
  repeat constructor.
  - by apply scan_string_empty.
  - by apply scan_string_empty.
  - by apply scan_string_empty.
  - apply (scan_list_empty _ criteria_strings);
      [apply scan_criteria_dict_empty|exact Ha].
  - apply (scan_list_empty _ criteria_strings);
      [apply scan_criteria_dict_empty|exact Hr].
  - apply (scan_list_empty _ permission_strings);
      [apply scan_permission_dict_empty|exact Hp].
Qed.

(** Why the values must not bring braces in, and why the text must not have
    braces of its own around a placeholder. *)
Example value_with_placeholder_is_reported :
  findall (replace_in_string [("A", "{{X}}")] "{{A}}") = ["X"].
Proof. reflexivity. Qed.

Example braces_around_placeholder_are_reported :
  findall (replace_in_string [("A", "B")] "{{{{A}}}}") = ["B"].
Proof. reflexivity. Qed.

(** C5 as stated fails: a template can have a value for every variable it
    declares and still refer to a variable it does not declare. *)
Lemma substitution_completeness_counterexample :
  ~ (forall td : ImportConstraintsTemplateRequestModel,
       Forall (fun d => is_Some (var_get (var_name d) (variableValues td)))
              (variables td) ->
       find_unreplaced_variables
         (substitute_variables (map c_dict (constraints td)) (variableValues td))
       = ∅).
Proof.
  intros H. specialize (H undeclared_variable_template).
  assert (Hd : Forall (fun d => is_Some (var_get (var_name d)
                                   (variableValues undeclared_variable_template)))
                 (variables undeclared_variable_template)).
  { repeat constructor. by eexists. }
  apply H in Hd. apply (f_equal elements) in Hd.
  vm_compute in Hd. discriminate Hd.
Qed.

(** C5, amended.  When the names of [variableValues] are brace-free, its
    values have no opening brace, and every string of every constraint of
    the template is made of characters other than an opening brace and of
    placeholders of variables that have a value, the scan of the substituted
    constraints finds nothing. *)
Theorem substitution_completeness (td : ImportConstraintsTemplateRequestModel) :
  plain_variables (variableValues td) = true ->
  Forall (fun c => Forall (closed_text (map fst (variableValues td)))
                     (template_strings c))
         (constraints td) ->
  find_unreplaced_variables
    (substitute_variables (map c_dict (constraints td)) (variableValues td))
  = ∅.
Proof.
  intros Hvv Hcs.
  rewrite substitute_variables_c_dict. unfold find_unreplaced_variables.
  apply union_list_empty.
  rewrite !map_map. apply Forall_map.
  eapply Forall_impl; [exact Hcs|].
  intros c Hc. cbn beta. apply scan_c_dict_empty.
  rewrite template_strings_subst. apply Forall_map.
  eapply Forall_impl; [exact Hc|].
  intros s Hs. cbn beta. by apply replace_in_string_complete.
Qed.

Lemma substitution_completeness_witness :
  find_unreplaced_variables
    (substitute_variables (map c_dict (constraints db_admin_template))
       (variableValues db_admin_template))
  = ∅.
Proof.
  apply (substitution_completeness db_admin_template).
  - reflexivity.
  - repeat constructor.
    + exists (Var "ROLE_NAME"
               :: map Lit (String.list_ascii_of_string "-access")).
      split; reflexivity.
    + exists (map Lit (String.list_ascii_of_string "Access for ")
               ++ [Var "ROLE_NAME"]).
      split; reflexivity.
    + exists (map Lit (String.list_ascii_of_string "asset")).
      split; reflexivity.
    + exists (map Lit (String.list_ascii_of_string "databaseId")).
      split; reflexivity.
    + exists (map Lit (String.list_ascii_of_string "equals")).
      split; reflexivity.
    + exists [Var "DATABASE_ID"]. split; reflexivity.
    + exists (map Lit (String.list_ascii_of_string "GET")).
      split; reflexivity.
    + exists (map Lit (String.list_ascii_of_string "allow")).
      split; reflexivity.
Defined.

(** * Properties of validation and of the orchestrator *)

Lemma var_get_var_set (k k' v : string) (d : list (string * string)) :
  var_get k (var_set k' v d) = if String.eqb k k' then Some v else var_get k d.
Proof.
  induction d as [|[k0 v0] d IH]; cbn [var_set var_get].
  - destruct (String.eqb k k'); reflexivity.
  - destruct (String.eqb_spec k' k0) as [->|Hne]; cbn [var_get].
    + destruct (String.eqb k k0); reflexivity.
    + rewrite IH. destruct (String.eqb_spec k k0) as [->|Hne']; [|reflexivity].
      destruct (String.eqb_spec k0 k'); [congruence|reflexivity].
Qed.

(** The back-filling of defaults keeps the values that were supplied. *)
Lemma check_variables_keeps (vars : list TemplateVariableDefinition) :
  forall (vv vv' : list (string * string)) (k r : string),
    var_get k vv = Some r ->
    check_variables vars vv = Return vv' ->
    var_get k vv' = Some r.
Proof.
  induction vars as [|d vars IH]; intros vv vv' k r Hk H; cbn [check_variables] in H.
  - by injection H as <-.
  - destruct (get_default (var_required d) false
              && negb (bool_decide (is_Some (var_get (var_name d) vv)))) eqn:E.
    + destruct (var_default d) as [dflt|]; [|discriminate].
      apply (IH _ _ k r) in H; [exact H|].
      rewrite var_get_var_set.
      destruct (String.eqb_spec k (var_name d)) as [->|Hne]; [|exact Hk].
      apply andb_true_iff in E as [_ E]. apply negb_true_iff in E.
      apply bool_decide_eq_false in E. destruct E. by rewrite Hk.
    + eauto.
Qed.

(** A validated template has its ROLE_NAME. *)
Lemma validated_has_role_name (voc : Vocabulary)
    (values td : ImportConstraintsTemplateRequestModel) :
  validate_template_import voc values = Return td ->
  exists role_name : string,
    var_get "ROLE_NAME" (variableValues values) = Some role_name
    /\ var_get "ROLE_NAME" (variableValues td) = Some role_name.
Proof.
  unfold validate_template_import.
  destruct (var_get "ROLE_NAME" (variableValues values)) as [r|] eqn:Hr;
    [|discriminate].
  destruct (validate_object_name voc "ROLE_NAME" r) as [valid msg].
  destruct (negb valid); [discriminate|].
  destruct (check_variables (variables values) (variableValues values))
    as [vv'|e] eqn:Hc; [|discriminate].
  destruct (constraints values); [discriminate|].
  destruct (first_error _ _); [discriminate|].
  intros [= <-]. exists r. split; [reflexivity|].
  cbn [variableValues with_variableValues].
  by apply (check_variables_keeps _ _ _ _ _ Hr Hc).
Qed.

Lemma contains_refl (x : string) : contains x x = true.
Proof. destruct x; cbn [contains]; by rewrite startswith_refl. Qed.

Lemma contains_join (sep x : string) (l : list string) :
  x ∈ l -> contains x (join sep l) = true.
Proof.
  induction l as [|y l IH]; intros Hx; [inversion Hx|].
  apply elem_of_cons in Hx as [->|Hx].
  - destruct l as [|z l]; cbn [join]; [apply contains_refl|].
    apply contains_app_l, contains_refl.
  - destruct l as [|z l]; [inversion Hx|].
    change (join sep (y :: z :: l)) with (y +:+ sep +:+ join sep (z :: l)).
    by apply contains_app_r, contains_app_r, IH.
Qed.

Lemma elem_of_sorted (X : gset string) (x : string) : x ∈ sorted X <-> x ∈ X.
Proof.
  unfold sorted. rewrite merge_sort_Permutation. apply elem_of_elements.
Qed.

Lemma Sorted_sorted (X : gset string) : Sorted String.le (sorted X).
Proof. apply (Sorted_merge_sort String.le). Qed.

Lemma NoDup_sorted (X : gset string) : NoDup (sorted X).
Proof.
  unfold sorted. rewrite merge_sort_Permutation. apply NoDup_elements.
Qed.

(** The outcome of the orchestrator when the scan finds something *)
Lemma import_unreplaced (env : Env) (td : ImportConstraintsTemplateRequestModel)
    (claims_and_roles : Claims) (s : Store) (role_name : string) :
  var_get "ROLE_NAME" (variableValues td) = Some role_name ->
  unreplaced_of td <> ∅ ->
  import_template_constraints env td claims_and_roles s
  = (Raise (VAMSGeneralErrorResponse (unreplaced_message (unreplaced_of td))), s, []).
Proof.
  intros Hr Hne. unfold import_template_constraints, bind, lift. rewrite Hr.
  fold (unreplaced_of td).
  rewrite bool_decide_eq_false_2 by assumption. reflexivity.
Qed.

(** C3.  For a template that passed validation, when the scan of the
    substituted constraints is not empty the orchestrator raises the general
    error whose message lists the scan result sorted, every unresolved name
    is in the message, and the store is as it was: nothing is written.  The
    handler answers with that general error. *)
Theorem unresolved_variables_fail_import (env : Env) (voc : Vocabulary)
    (claims_and_roles : Claims)
    (values td : ImportConstraintsTemplateRequestModel) (s : Store) :
  parse voc values = Return td ->
  unreplaced_of td <> ∅ ->
  tokens claims_and_roles <> [] ->
  let names := sorted (unreplaced_of td) in
  let msg := "Unreplaced template variables found after substitution: "
             +:+ join ", " names +:+ ". "
             +:+ "Provide values for these in variableValues." in
  import_template_constraints env td claims_and_roles s
  = (Raise (VAMSGeneralErrorResponse msg), s, [])
  /\ lambda_handler env voc claims_and_roles true "POST" (BodyFields values) s
     = (general_error msg, s, [(ERROR, "VAMS error: " +:+ msg)])
  /\ Sorted String.le names
  /\ NoDup names
  /\ (forall x : string, x ∈ names <-> x ∈ unreplaced_of td)
  /\ (forall x : string, x ∈ unreplaced_of td -> contains x msg = true).
Proof.
  intros Hparse Hne Htok names msg.
  destruct (validated_has_role_name _ _ _ Hparse) as (r & _ & Hr).
  pose proof (import_unreplaced env td claims_and_roles s r Hr Hne) as Himp.
  split; [exact Himp|].
  split.
  { unfold lambda_handler. rewrite Hparse, Himp.
    destruct (tokens claims_and_roles); [done|]. reflexivity. }
  split; [apply Sorted_sorted|].
  split; [apply NoDup_sorted|].
  split; [intros x; apply elem_of_sorted|].
  intros x Hx. subst msg.
  apply contains_app_r, contains_app_l, contains_join.
  by apply elem_of_sorted.
Qed.

Lemma unresolved_variables_fail_import_witness :
  lambda_handler (example_env None (fun _ => false)) example_vocabulary
    example_claims true "POST" (BodyFields undeclared_variable_template)
    initial_store
  = (general_error
       "Unreplaced template variables found after substitution: AREA, ZONE. Provide values for these in variableValues.",
     initial_store,
     [(ERROR, "VAMS error: Unreplaced template variables found after substitution: AREA, ZONE. Provide values for these in variableValues.")]).
Proof.
  assert (Hparse : parse example_vocabulary undeclared_variable_template
                   = Return undeclared_variable_template) by reflexivity.
  assert (Hne : unreplaced_of undeclared_variable_template <> ∅).
  { intros H. apply (f_equal elements) in H. vm_compute in H. discriminate H. }
  assert (Htok : tokens example_claims <> []) by discriminate.
  pose proof (unresolved_variables_fail_import
                (example_env None (fun _ => false)) example_vocabulary
                example_claims _ _ initial_store Hparse Hne Htok)
    as (_ & H & _).
  rewrite H. vm_compute. reflexivity.
Defined.

(** C7.  A template whose [variableValues] has no ROLE_NAME is rejected by
    the validator with the error that names ROLE_NAME, whatever its
    constraints are; the handler answers with that validation error and
    leaves the store as it was. *)
Theorem role_name_required (env : Env) (voc : Vocabulary) (claims_and_roles : Claims)
    (enforced : bool) (method : string)
    (values : ImportConstraintsTemplateRequestModel) (s : Store) :
  var_get "ROLE_NAME" (variableValues values) = None ->
  validate_template_import voc values
  = Raise (ValueError
             "variableValues must include 'ROLE_NAME' (used as groupId for all constraints)")
  /\ contains "ROLE_NAME"
       "variableValues must include 'ROLE_NAME' (used as groupId for all constraints)"
     = true
  /\ (lambda_handler env voc claims_and_roles enforced method (BodyFields values) s).1.2
     = s
  /\ (tokens claims_and_roles <> [] ->
      (lambda_handler env voc claims_and_roles true "POST" (BodyFields values) s).1.1
      = validation_error
          "variableValues must include 'ROLE_NAME' (used as groupId for all constraints)").
Proof.
  intros Hr.
  assert (Hv : validate_template_import voc values
               = Raise (ValueError ROLE_NAME_missing)).
  { unfold validate_template_import. by rewrite Hr. }
  split; [exact Hv|].
  split; [reflexivity|].
  split.
  - unfold lambda_handler.
    destruct (negb _); [reflexivity|].
    destruct (negb _); [reflexivity|].
    unfold parse. rewrite Hv. reflexivity.
  - intros Htok. unfold lambda_handler, parse. rewrite Hv.
    destruct (tokens claims_and_roles); [done|]. reflexivity.
Qed.

Lemma role_name_required_witness :
  (lambda_handler (example_env None (fun _ => false)) example_vocabulary
     example_claims true "POST"
     (BodyFields (with_variableValues db_admin_template [("DATABASE_ID", "proj1")]))
     initial_store).1.2
  = initial_store.
Proof.
  apply (role_name_required (example_env None (fun _ => false)) example_vocabulary
           example_claims true "POST"
           (with_variableValues db_admin_template [("DATABASE_ID", "proj1")])
           initial_store).
  reflexivity.
Defined.

(** The role check returns and leaves the store as it is. *)
Lemma role_check_store (env : Env) (group_id : string) (s : Store) :
  exists (b : bool) (l : list log_record),
    validate_constraint_role_exists env group_id s = (Return b, s, l).
Proof.
  unfold validate_constraint_role_exists.
  destruct (roles_table env) as [get_item|].
  - destruct (get_item group_id); eexists _, _; reflexivity.
  - eexists _, _. reflexivity.
Qed.

Lemma db_admin_template_complete : unreplaced_of db_admin_template = ∅.
Proof. vm_compute. reflexivity. Qed.

(** ** Rules for [sat] *)

Lemma puts_extend_refl (P : Item -> Prop) (s : Store) : puts_extend P s s.
Proof. exists []. by rewrite app_nil_r. Qed.

Lemma puts_extend_trans (P : Item -> Prop) (s1 s2 s3 : Store) :
  puts_extend P s1 s2 -> puts_extend P s2 s3 -> puts_extend P s1 s3.
Proof.
  intros (n1 & E1 & F1) (n2 & E2 & F2). exists (n1 ++ n2).
  split; [by rewrite E2, E1, app_assoc|by apply Forall_app].
Qed.

Lemma puts_extend_same (P : Item -> Prop) (s s' : Store) :
  puts s' = puts s -> puts_extend P s s'.
Proof. intros E. exists []. by rewrite app_nil_r. Qed.

Section SatRules.

Context {A B : Type} (P : Item -> Prop).

Lemma sat_ret (V : A -> Prop) (a : A) : V a -> sat P V (ret a).
Proof. intros Ha s. split; [apply puts_extend_refl|exact Ha]. Qed.

Lemma sat_lift (o : outcome A) : sat P (fun _ => True) (lift o).
Proof. intros s. split; [apply puts_extend_refl|by destruct o]. Qed.

Lemma sat_raise (V : A -> Prop) (e : exn) : sat P V (raise e).
Proof. intros s. split; [apply puts_extend_refl|exact I]. Qed.

Lemma sat_bind (V1 : A -> Prop) (V2 : B -> Prop) (m : M A) (k : A -> M B) :
  sat P V1 m -> (forall a, V1 a -> sat P V2 (k a)) -> sat P V2 (bind m k).
Proof.
  intros Hm Hk s. unfold bind.
  destruct (Hm s) as [He Hv].
  destruct (m s) as [[[a|e] s1] l1]; cbn [fst snd] in *.
  - destruct (Hk a Hv s1) as [He' Hv'].
    destruct (k a s1) as [[o s2] l2]; cbn [fst snd] in *.
    split; [by eapply puts_extend_trans|exact Hv'].
  - split; [exact He|exact I].
Qed.

Lemma sat_weaken (V V' : A -> Prop) (m : M A) :
  (forall a, V a -> V' a) -> sat P V m -> sat P V' m.
Proof.
  intros HV Hm s. destruct (Hm s) as [He Hv]. split; [exact He|].
  destruct ((m s).1.1); auto.
Qed.

End SatRules.

Lemma sat_for_each {A B : Type} (P : Item -> Prop) (V : B -> Prop)
    (body : A -> M B) (l : list A) :
  (forall x, sat P V (body x)) -> sat P (Forall V) (for_each body l).
Proof.
  intros Hb. induction l as [|x l IH]; cbn [for_each].
  - by apply sat_ret.
  - eapply sat_bind; [apply Hb|]. intros y Hy.
    eapply sat_bind; [apply IH|]. intros ys Hys.
    apply sat_ret. by constructor.
Qed.

Lemma sat_new_uuid (P : Item -> Prop) (env : Env) :
  sat P (fun _ => True) (new_uuid env).
Proof. intros s. split; [by apply puts_extend_same|exact I]. Qed.

Lemma sat_read_clock (P : Item -> Prop) (env : Env) :
  sat P (fun _ => True) (read_clock env).
Proof. intros s. split; [by apply puts_extend_same|exact I]. Qed.

Lemma sat_log (P : Item -> Prop) (lv : level) (msg : string) :
  sat P (fun _ => True) (log lv msg).
Proof. intros s. split; [apply puts_extend_refl|exact I]. Qed.

Lemma sat_batch_write (P : Item -> Prop) (env : Env) (items : list Item) :
  Forall P items -> sat P (fun _ => True) (batch_write env items).
Proof.
  intros Hi s. unfold batch_write.
  destruct (batch env (batches s)) as [|flushed e]; cbn [fst snd].
  - split; [|exact I]. by exists items.
  - split; [|exact I]. exists (take flushed items).
    split; [reflexivity|]. by apply Forall_take.
Qed.

Lemma sat_validate_constraint_role_exists (P : Item -> Prop) (env : Env)
    (group_id : string) :
  sat P (fun _ => True) (validate_constraint_role_exists env group_id).
Proof.
  unfold validate_constraint_role_exists.
  destruct (roles_table env) as [get_item|].
  - destruct (get_item group_id).
    + by apply sat_ret.
    + by apply sat_ret.
    + eapply sat_bind; [apply sat_log|]. intros _ _. by apply sat_ret.
  - eapply sat_bind; [apply sat_log|]. intros _ _. by apply sat_ret.
Qed.

(** ** The role of the generated group permissions *)

Lemma sat_build_group_permission (P : Item -> Prop) (env : Env)
    (role_name : string) (perm : value) :
  sat P (fun p => groupId p = Some role_name)
      (build_group_permission env role_name perm).
Proof.
  unfold build_group_permission.
  eapply sat_bind; [apply sat_new_uuid|]. intros id _.
  eapply sat_bind; [apply sat_lift|]. intros action_ _.
  eapply sat_bind; [apply sat_lift|]. intros type_ _.
  by apply sat_ret.
Qed.

Lemma sat_build_constraint_data (P : Item -> Prop) (env : Env)
    (constraint : dict) (role_name : string) (claims_and_roles : Claims) :
  sat P (role_bound role_name)
      (build_constraint_data env constraint role_name claims_and_roles).
Proof.
  unfold build_constraint_data.
  eapply sat_bind; [apply sat_new_uuid|]. intros constraint_id _.
  eapply sat_bind; [apply sat_read_clock|]. intros now _.
  eapply sat_bind; [apply sat_lift|]. intros perms _.
  eapply sat_bind;
    [apply sat_for_each; intros perm; apply sat_build_group_permission|].
  intros group_permissions Hg.
  eapply sat_bind; [apply sat_lift|]. intros name_ _.
  eapply sat_bind; [apply sat_lift|]. intros description_ _.
  eapply sat_bind; [apply sat_lift|]. intros objectType_ _.
  apply sat_ret. split; [|reflexivity].
  exists group_permissions. split; [reflexivity|exact Hg].
Qed.

(** The items of a constraint bound to a role are items of that role. *)
Lemma denormalize_role_bound (now1 now2 role_name : string) (cd : ConstraintData) :
  role_bound role_name cd ->
  Forall (role_scoped role_name)
         (_transform_to_denormalized_format now1 now2 cd).
Proof.
  intros [(perms & Hp & Hr) Hu].
  rewrite denormalize_items, Hp, Hu. cbn [get_default].
  change (first_occurrences ∅ (grantee_ids (map userId []))) with (@nil string).
  rewrite app_nil_r.
  assert (Hg : forall g, g ∈ first_occurrences ∅ (grantee_ids (map groupId perms))
                         -> g = role_name).
  { intros g Hg. apply elem_of_first_occurrences in Hg as [Hg _].
    apply elem_of_grantee_ids in Hg as [Hg _].
    apply list_elem_of_fmap in Hg as (p & Hgp & Hin).
    rewrite Forall_forall in Hr. rewrite (Hr p) in Hgp by exact Hin.
    by injection Hgp. }
  assert (Hb : match it_groupPermissions (base_item now1 now2 cd) with
               | dumps ps => Forall (fun p => groupId p = Some role_name) ps
               end).
  { cbn [base_item it_groupPermissions]. by rewrite Hp. }
  destruct (first_occurrences ∅ (grantee_ids (map groupId perms))) as [|g G].
  - constructor; [|constructor].
    split; [by right|]. split; [reflexivity|exact Hb].
  - change (map (user_item (base_item now1 now2 cd) (identifier cd)) [])
      with (@nil Item).
    rewrite app_nil_r.
    apply Forall_map, Forall_forall. intros g' Hg'.
    rewrite (Hg g' Hg').
    split; [by left|]. split; [reflexivity|exact Hb].
Qed.

Lemma sat_create_constraint (env : Env) (role_name : string)
    (claims_and_roles : Claims) (constraint : dict) :
  sat (role_scoped role_name) (fun _ => True)
      (create_constraint env role_name claims_and_roles constraint).
Proof.
  unfold create_constraint.
  eapply sat_bind; [apply sat_build_constraint_data|]. intros cd Hcd.
  eapply sat_bind; [apply sat_lift|]. intros name_ _.
  eapply sat_bind; [apply sat_log|]. intros _ _.
  eapply sat_bind; [apply sat_read_clock|]. intros now1 _.
  eapply sat_bind; [apply sat_read_clock|]. intros now2 _.
  eapply sat_bind;
    [apply sat_batch_write; by apply denormalize_role_bound|]. intros _ _.
  eapply sat_bind; [apply sat_log|]. intros _ _.
  by apply sat_ret.
Qed.

(** Whatever the items are, a run of the loop body only adds to the
    table. *)
Lemma sat_create_constraint_any (env : Env) (role_name : string)
    (claims_and_roles : Claims) (constraint : dict) :
  sat (fun _ => True) (fun _ => True)
      (create_constraint env role_name claims_and_roles constraint).
Proof.
  intros s.
  destruct (sat_create_constraint env role_name claims_and_roles constraint s)
    as [(new & E & _) _].
  split; [|by destruct (_.1.1)].
  exists new. split; [exact E|]. by apply Forall_forall.
Qed.

Lemma sat_import_template_constraints (env : Env)
    (td : ImportConstraintsTemplateRequestModel) (claims_and_roles : Claims)
    (role_name : string) :
  var_get "ROLE_NAME" (variableValues td) = Some role_name ->
  sat (role_scoped role_name) (fun _ => True)
      (import_template_constraints env td claims_and_roles).
Proof.
  intros Hr. unfold import_template_constraints. rewrite Hr.
  eapply sat_bind; [apply (sat_ret _ (fun r => r = role_name)); reflexivity|].
  intros r ->.
  destruct (negb _); [apply sat_raise|].
  eapply sat_bind; [apply sat_validate_constraint_role_exists|]. intros b _.
  eapply sat_bind; [destruct (negb b); [apply sat_log|by apply sat_ret]|].
  intros _ _. unfold create_constraints.
  eapply sat_bind; [apply sat_for_each; intros c; apply sat_create_constraint|].
  intros ids _.
  eapply sat_bind; [apply sat_read_clock|]. intros now _.
  by apply sat_ret.
Qed.

(** C9.  In an import whose ROLE_NAME is [role_name], every constraint
    built has all its group permissions on [role_name], and every item the
    import puts into the table carries group permissions on [role_name]
    only, with [role_name] as its group id if it has one. *)
Theorem group_permissions_bound_to_role_name (env : Env)
    (td : ImportConstraintsTemplateRequestModel) (claims_and_roles : Claims)
    (s : Store) (role_name : string) :
  var_get "ROLE_NAME" (variableValues td) = Some role_name ->
  (forall (constraint : dict) (s0 s1 : Store) (cd : ConstraintData)
          (l : list log_record),
      build_constraint_data env constraint role_name claims_and_roles s0
      = (Return cd, s1, l) ->
      exists perms : list GroupPermission,
        groupPermissions cd = Some perms
        /\ Forall (fun p => groupId p = Some role_name) perms)
  /\ (exists new : list Item,
        puts (import_template_constraints env td claims_and_roles s).1.2
        = puts s ++ new
        /\ Forall (role_scoped role_name) new).
Proof.
  intros Hr. split.
  - intros constraint s0 s1 cd l Hb.
    destruct (sat_build_constraint_data (fun _ => True) env constraint role_name
                claims_and_roles s0) as [_ Hv].
    rewrite Hb in Hv. exact (proj1 Hv).
  - exact (proj1 (sat_import_template_constraints env td claims_and_roles
                    role_name Hr s)).
Qed.

Lemma group_permissions_bound_to_role_name_witness :
  exists new : list Item,
    puts (import_template_constraints
            (example_env (Some (fun _ => ItemFound)) (fun _ => false))
            two_constraint_template example_claims initial_store).1.2
    = puts initial_store ++ new
    /\ Forall (role_scoped "db-admin") new.
Proof.
  apply (group_permissions_bound_to_role_name
           (example_env (Some (fun _ => ItemFound)) (fun _ => false))
           two_constraint_template example_claims initial_store "db-admin").
  reflexivity.
Defined.

(** ** Runs of the loop *)

Lemma bind_Return {A B : Type} (m : M A) (k : A -> M B) (s s' : Store)
    (b : B) (l : list log_record) :
  bind m k s = (Return b, s', l) ->
  exists (a : A) (s1 : Store) (l1 l2 : list log_record),
    m s = (Return a, s1, l1) /\ k a s1 = (Return b, s', l2) /\ l = l1 ++ l2.
Proof.
  unfold bind. destruct (m s) as [[[a|e] s1] l1]; [|discriminate].
  destruct (k a s1) as [[o s2] l2] eqn:Hk. intros [= -> -> <-].
  by exists a, s1, l1, l2.
Qed.

(** The loop stops at the first body that raises. *)
Lemma for_each_raise {A B : Type} (body : A -> M B) (c : A) (post : list A)
    (e : exn) :
  forall (pre : list A) (s s1 s2 : Store) (ys : list B) (l1 l2 : list log_record),
    for_each body pre s = (Return ys, s1, l1) ->
    body c s1 = (Raise e, s2, l2) ->
    for_each body (pre ++ c :: post) s = (Raise e, s2, l1 ++ l2).
Proof.
  induction pre as [|x pre IH]; intros s s1 s2 ys l1 l2 Hpre Hc.
  - injection Hpre as <- <- <-. cbn [app for_each]. unfold bind. by rewrite Hc.
  - cbn [for_each] in Hpre.
    apply bind_Return in Hpre as (y & sx & lx & l' & Hx & Hrest & ->).
    apply bind_Return in Hrest as (ys' & s' & l'' & l3 & Hpre & Hret & ->).
    injection Hret as <- <- <-.
    cbn [app for_each]. unfold bind at 1. rewrite Hx.
    unfold bind at 1. rewrite (IH _ _ _ _ _ _ Hpre Hc).
    by rewrite app_nil_r, app_assoc.
Qed.

Lemma for_each_length {A B : Type} (body : A -> M B) :
  forall (xs : list A) (s s' : Store) (ys : list B) (l : list log_record),
    for_each body xs s = (Return ys, s', l) -> length ys = length xs.
Proof.
  induction xs as [|x xs IH]; intros s s' ys l H; cbn [for_each] in H.
  - by injection H as <- _ _.
  - apply bind_Return in H as (y & sx & lx & l' & Hx & Hrest & ->).
    apply bind_Return in Hrest as (ys' & s1 & l'' & l3 & Hxs & Hret & ->).
    injection Hret as <- <- <-. cbn [length]. f_equal. eauto.
Qed.

Lemma persisted_extend (P : Item -> Prop) (constraint_id : string) (s s' : Store) :
  puts_extend P s s' -> persisted constraint_id s -> persisted constraint_id s'.
Proof.
  intros (new & E & _) (it & Hin & Hk). exists it. split; [|exact Hk].
  rewrite E. apply elem_of_app. by left.
Qed.

Lemma startswith_key (cid : string) (it : Item) (now1 now2 : string)
    (cd : ConstraintData) :
  cid = identifier cd ->
  it ∈ _transform_to_denormalized_format now1 now2 cd ->
  startswith cid (constraintId it) = true.
Proof.
  intros -> Hin. rewrite denormalize_items in Hin.
  destruct (_ ++ _) in Hin.
  - apply list_elem_of_singleton in Hin as ->. apply startswith_refl.
  - apply elem_of_app in Hin as [Hin|Hin];
      apply list_elem_of_fmap in Hin as (g & -> & _); apply startswith_app.
Qed.

Lemma denormalize_not_nil (now1 now2 : string) (cd : ConstraintData) :
  _transform_to_denormalized_format now1 now2 cd <> [].
Proof.
  intros H. apply (f_equal length) in H.
  rewrite denormalize_length in H. cbn [length] in H. lia.
Qed.

(** A constraint that was created has an item in the table. *)
Lemma create_constraint_persisted (env : Env) (role_name : string)
    (claims_and_roles : Claims) (constraint : dict) (s s' : Store)
    (id : string) (l : list log_record) :
  create_constraint env role_name claims_and_roles constraint s = (Return id, s', l) ->
  persisted id s'.
Proof.
  unfold create_constraint. intros H.
  apply bind_Return in H as (cd & s1 & ? & ? & _ & H & _).
  apply bind_Return in H as (name_ & s2 & ? & ? & _ & H & _).
  apply bind_Return in H as ([] & s3 & ? & ? & _ & H & _).
  apply bind_Return in H as (now1 & s4 & ? & ? & _ & H & _).
  apply bind_Return in H as (now2 & s5 & ? & ? & _ & H & _).
  apply bind_Return in H as ([] & s6 & ? & ? & Hw & H & _).
  apply bind_Return in H as ([] & s7 & ? & ? & Hlog & H & _).
  injection H as <- <- _. injection Hlog as <- _.
  unfold batch_write in Hw.
  destruct (batch env (batches s5)); [|discriminate].
  injection Hw as <- _. cbn [puts].
  pose proof (denormalize_not_nil now1 now2 cd) as Hne.
  destruct (_transform_to_denormalized_format now1 now2 cd) as [|it items] eqn:E;
    [done|].
  exists it. split.
  - apply elem_of_app. right. by left.
  - apply (startswith_key _ _ now1 now2 cd); [reflexivity|]. rewrite E. by left.
Qed.

(** The constraints created by a run of the loop all have an item in the
    table at its end. *)
Lemma for_each_created_persisted (env : Env) (role_name : string)
    (claims_and_roles : Claims) :
  forall (cs : list dict) (s s' : Store) (ids : list string) (l : list log_record),
    for_each (create_constraint env role_name claims_and_roles) cs s
    = (Return ids, s', l) ->
    Forall (fun id => persisted id s') ids.
Proof.
  induction cs as [|c cs IH]; intros s s' ids l H; cbn [for_each] in H.
  - injection H as <- _ _. constructor.
  - apply bind_Return in H as (id & sx & lx & l' & Hx & Hrest & ->).
    apply bind_Return in Hrest as (ids' & s1 & l'' & l3 & Hcs & Hret & ->).
    injection Hret as <- <- <-. constructor; [|eauto].
    pose proof (proj1 (sat_for_each (fun _ => True) (fun _ => True)
                         (create_constraint env role_name claims_and_roles) cs
                         (fun x => sat_weaken _ _ _ _ (fun _ _ => I)
                                     (sat_create_constraint_any env role_name
                                        claims_and_roles x)) sx)) as He.
    rewrite Hcs in He. cbn [fst snd] in He.
    eapply persisted_extend; [exact He|].
    by eapply create_constraint_persisted.
Qed.

(** C6 as stated fails: when the batch of the second constraint fails, the
    handler answers with the internal error of its catch-all clause, not
    with a general error, and no summary is returned; the item of the first
    constraint stays in the table. *)
Lemma storage_failure_counterexample :
  let r := lambda_handler
             (example_env (Some (fun _ => ItemFound)) (fun n => Nat.eqb n 1))
             example_vocabulary example_claims true "POST"
             (BodyFields two_constraint_template) initial_store in
  r.1.1 = internal_error
  /\ (forall msg : string, r.1.1 <> general_error msg)
  /\ (forall summary : ImportConstraintsTemplateResponseModel,
         r.1.1 <> success summary)
  /\ keys (puts r.1.2) = ["id0#group#db-admin"].
Proof.
  assert (H : (lambda_handler
                 (example_env (Some (fun _ => ItemFound)) (fun n => Nat.eqb n 1))
                 example_vocabulary example_claims true "POST"
                 (BodyFields two_constraint_template) initial_store).1.1
              = internal_error) by (vm_compute; reflexivity).
  cbv zeta. rewrite H.
  split; [reflexivity|]. split; [discriminate|]. split; [discriminate|].
  vm_compute. reflexivity.
Qed.

(** C6, amended.  When the constraints before the N-th were created and the
    batch of the N-th raises, the orchestrator raises that storage error
    from the store the failed batch left: every constraint created before
    has an item in it, and the table before the failure is a prefix of the
    table after it (nothing is deleted).  The handler answers with the
    internal error; it returns no summary. *)
Theorem storage_failure_keeps_earlier_constraints (env : Env) (voc : Vocabulary)
    (claims_and_roles : Claims)
    (values td : ImportConstraintsTemplateRequestModel)
    (role_name : string) (pre post : list dict) (c : dict)
    (s s1 s2 : Store) (ids : list string) (l1 l2 : list log_record) (e : string) :
  parse voc values = Return td ->
  tokens claims_and_roles <> [] ->
  var_get "ROLE_NAME" (variableValues td) = Some role_name ->
  unreplaced_of td = ∅ ->
  substitute_variables (map c_dict (constraints td)) (variableValues td)
  = pre ++ c :: post ->
  for_each (create_constraint env role_name claims_and_roles) pre s
  = (Return ids, s1, l1) ->
  create_constraint env role_name claims_and_roles c s1
  = (Raise (ClientError e), s2, l2) ->
  (import_template_constraints env td claims_and_roles s).1
  = (Raise (ClientError e), s2)
  /\ (lambda_handler env voc claims_and_roles true "POST" (BodyFields values) s).1
     = (internal_error, s2)
  /\ length ids = length pre
  /\ Forall (fun id => persisted id s2) ids
  /\ puts s `prefix_of` puts s1
  /\ puts s1 `prefix_of` puts s2.
Proof.
  intros Hparse Htok Hr Hu Hsub Hpre Hc.
  assert (Himp : (import_template_constraints env td claims_and_roles s).1
                 = (Raise (ClientError e), s2)).
  { unfold import_template_constraints, bind at 1, lift. rewrite Hr.
    fold (unreplaced_of td). rewrite Hu.
    rewrite (bool_decide_eq_true_2 _ eq_refl). cbn [negb].
    rewrite Hsub. unfold create_constraints.
    pose proof (for_each_raise _ c post _ _ _ _ _ _ _ _ Hpre Hc) as Hloop.
    destruct (role_check_store env role_name s) as (b & lw & Hw).
    unfold bind at 1. rewrite Hw.
    unfold bind at 1.
    assert (Hwarn : exists lw',
               (if negb b then log WARNING (role_missing_message role_name)
                else ret tt) s = (Return tt, s, lw')).
    { destruct (negb b); eexists; reflexivity. }
    destruct Hwarn as (lw' & ->).
    unfold bind at 1. rewrite Hloop. reflexivity. }
  assert (He1 : puts_extend (fun _ => True) s s1).
  { pose proof (proj1 (sat_for_each (fun _ => True) (fun _ => True) _ pre
                         (sat_create_constraint_any env role_name claims_and_roles)
                         s)) as He.
    by rewrite Hpre in He. }
  assert (He2 : puts_extend (fun _ => True) s1 s2).
  { pose proof (proj1 (sat_create_constraint_any env role_name claims_and_roles
                         c s1)) as He.
    by rewrite Hc in He. }
  split; [exact Himp|].
  split.
  { unfold lambda_handler. rewrite Hparse.
    destruct (tokens claims_and_roles); [done|].
    cbn [length Nat.eqb negb andb String.eqb].
    destruct (import_template_constraints env td claims_and_roles s)
      as [[o s'] lg]. cbn [fst] in Himp. injection Himp as -> ->. reflexivity. }
  split; [by eapply for_each_length|].
  split.
  { eapply Forall_impl; [by eapply for_each_created_persisted|].
    intros id Hid. cbn beta. by eapply persisted_extend. }
  split.
  - destruct He1 as (new & E & _). by exists new.
  - destruct He2 as (new & E & _). by exists new.
Qed.

Lemma storage_failure_keeps_earlier_constraints_witness :
  (lambda_handler
     (example_env (Some (fun _ => ItemFound)) (fun n => Nat.eqb n 1))
     example_vocabulary example_claims true "POST"
     (BodyFields two_constraint_template) initial_store).1.1
  = internal_error.
Proof.
  edestruct (storage_failure_keeps_earlier_constraints
               (example_env (Some (fun _ => ItemFound)) (fun n => Nat.eqb n 1))
               example_vocabulary example_claims
               two_constraint_template two_constraint_template "db-admin"
               (substitute_variables [c_dict assets_constraint]
                  [("ROLE_NAME", "db-admin")])
               []
               (c_dict (subst_constraint [("ROLE_NAME", "db-admin")]
                          databases_constraint))
               initial_store)
    as (_ & H & _).
  - reflexivity.
  - discriminate.
  - reflexivity.
  - vm_compute. reflexivity.
  - vm_compute. reflexivity.
  - vm_compute. reflexivity.
  - vm_compute. reflexivity.
  - rewrite H. reflexivity.
Defined.

(** * Further properties of the scan *)

Lemma value_nested_ind (P : value -> Prop) :
  P VNone ->
  (forall b, P (VBool b)) ->
  (forall z, P (VInt z)) ->
  (forall s, P (VStr s)) ->
  (forall l, Forall P l -> P (VList l)) ->
  (forall d, Forall (fun kv => P kv.2) d -> P (VDict d)) ->
  forall v, P v.
Proof.
  intros HN HB HI HS HL HD. fix IH 1. intros [|b|z|s|l|d].
  - exact HN.
  - apply HB.
  - apply HI.
  - apply HS.
  - apply HL. induction l as [|v l IHl]; constructor; [apply IH|exact IHl].
  - apply HD. induction d as [|[k v] d IHd]; constructor; [apply IH|exact IHd].
Qed.

Lemma drop_chars_nil (n : nat) : drop_chars n "" = "".
Proof. by destruct n. Qed.

Lemma findall_from_skip (k : nat) (s : string) :
  findall_from k s = findall_from 0 (drop_chars k s).
Proof.
  revert k. induction s as [|c s IH]; intros k.
  - by rewrite drop_chars_nil.
  - destruct k as [|k]; [reflexivity|]. cbn [findall_from drop_chars]. apply IH.
Qed.

Lemma drop_chars_app (p r : string) : drop_chars (String.length p) (p +:+ r) = r.
Proof.
  induction p as [|c p IH]; [by destruct r|].
  rewrite string_app_cons. cbn [String.length drop_chars]. exact IH.
Qed.

Lemma startswith_split (p s : string) :
  startswith p s = true -> s = p +:+ drop_chars (String.length p) s.
Proof.
  revert s. induction p as [|a p IH]; intros s H.
  - by destruct s.
  - destruct s as [|b s]; [discriminate|]. cbn [startswith] in H.
    apply andb_true_iff in H as [Hab H]. apply Ascii.eqb_eq in Hab as ->.
    rewrite string_app_cons. cbn [String.length drop_chars]. f_equal. auto.
Qed.

Lemma word_run_split (s : string) :
  s = word_run s +:+ drop_chars (String.length (word_run s)) s.
Proof.
  induction s as [|c s IH]; [reflexivity|]. cbn [word_run].
  destruct (is_word_char c); [|reflexivity].
  rewrite string_app_cons. cbn [String.length drop_chars]. by f_equal.
Qed.

Lemma word_run_word (s : string) : all_chars is_word_char (word_run s) = true.
Proof.
  induction s as [|c s IH]; [reflexivity|]. cbn [word_run].
  destruct (is_word_char c) eqn:E; [|reflexivity].
  cbn [all_chars]. by rewrite E.
Qed.

(** A word followed by a closing brace is the whole run. *)
Lemma word_run_closed (x r : string) :
  all_chars is_word_char x = true -> word_run (x +:+ String "}" r) = x.
Proof.
  induction x as [|c x IH]; intros H; [reflexivity|].
  cbn [all_chars] in H. apply andb_true_iff in H as [Hc H].
  rewrite string_app_cons. cbn [word_run]. rewrite Hc. f_equal. auto.
Qed.

Lemma is_word_spec (x : string) :
  is_word x = true <-> x <> "" /\ all_chars is_word_char x = true.
Proof.
  unfold is_word. rewrite andb_true_iff, negb_true_iff.
  by rewrite (String.eqb_neq x "").
Qed.

Lemma string_length_zero (w : string) : String.length w = 0 -> w = "".
Proof. by destruct w. Qed.

(** What a match at the head of a text is *)
Lemma match_placeholder_Some (s w : string) :
  match_placeholder s = Some w ->
  is_word w = true /\ exists r : string, s = placeholder w +:+ r.
Proof.
  unfold match_placeholder.
  destruct (startswith "{{" s) eqn:Hs; [|discriminate].
  set (t := drop_chars 2 s).
  set (rest := drop_chars (2 + String.length (word_run t)) s).
  destruct (negb (Nat.eqb (String.length (word_run t)) 0) && startswith "}}" rest)
    eqn:Hw; [|discriminate].
  intros E. assert (Ew : w = word_run t) by congruence. clear E. subst w.
  apply andb_true_iff in Hw as [Hne Hclose].
  apply negb_true_iff, Nat.eqb_neq in Hne.
  split.
  - apply is_word_spec. split; [|apply word_run_word].
    intros E. apply Hne. by rewrite E.
  - apply startswith_split in Hs. cbn [String.length] in Hs. fold t in Hs.
    assert (Ht : rest = drop_chars (String.length (word_run t)) t).
    { subst rest. rewrite Hs at 1. reflexivity. }
    rewrite Ht in Hclose. apply startswith_split in Hclose.
    exists (drop_chars (String.length "}}")
              (drop_chars (String.length (word_run t)) t)).
    rewrite Hs at 1. rewrite (word_run_split t) at 1. rewrite Hclose at 1.
    rewrite placeholder_unfold, !string_app_cons, string_app_assoc.
    reflexivity.
Qed.

Lemma match_placeholder_head (x r : string) :
  is_word x = true -> match_placeholder (placeholder x +:+ r) = Some x.
Proof.
  intros [Hne Hw]%is_word_spec. unfold match_placeholder.
  rewrite placeholder_unfold, !string_app_cons, string_app_assoc.
  cbn [startswith drop_chars Nat.add].
  change ("}}" +:+ r) with (String "}" (String "}" r)).
  rewrite !Ascii.eqb_refl. cbn [andb].
  rewrite (word_run_closed _ _ Hw).
  rewrite drop_chars_app. cbn [startswith]. rewrite !Ascii.eqb_refl.
  destruct x as [|c x]; [done|]. reflexivity.
Qed.

Lemma contains_cons (t s : string) (c : ascii) :
  contains t s = true -> contains t (String c s) = true.
Proof. intros H. cbn [contains]. rewrite H. apply orb_true_r. Qed.

Lemma word_char_not_open_brace (c : ascii) :
  is_word_char c = true -> not_open_brace c = true.
Proof.
  intros H. unfold not_open_brace. apply negb_true_iff.
  destruct (Ascii.eqb_spec c "{") as [->|]; [discriminate H|reflexivity].
Qed.

(** Every name the scan of a text finds is a word whose placeholder is in
    the text. *)
Lemma findall_from_sound (x s : string) :
  forall k : nat,
    x ∈ findall_from k s -> is_word x = true /\ contains (placeholder x) s = true.
Proof.
  induction s as [|c s IH]; intros k Hx; [inversion Hx|].
  destruct k as [|k]; cbn [findall_from] in Hx.
  - destruct (match_placeholder (String c s)) as [w|] eqn:M.
    + apply elem_of_cons in Hx as [->|Hx].
      * apply match_placeholder_Some in M as [Hw (r & ->)].
        split; [exact Hw|]. apply contains_app_l, contains_refl.
      * apply IH in Hx as [Hw Hc]. split; [exact Hw|by apply contains_cons].
    + apply IH in Hx as [Hw Hc]. split; [exact Hw|by apply contains_cons].
  - apply IH in Hx as [Hw Hc]. split; [exact Hw|by apply contains_cons].
Qed.

(** A pattern that starts with an opening brace is not found in a run of
    other characters. *)
Lemma contains_pass (t p r : string) :
  all_chars not_open_brace p = true ->
  contains (String "{" t) (p +:+ r) = contains (String "{" t) r.
Proof.
  induction p as [|c p IH]; intros Hp; [reflexivity|].
  cbn [all_chars] in Hp. apply andb_true_iff in Hp as [Hc Hp].
  rewrite string_app_cons. cbn [contains startswith].
  unfold not_open_brace in Hc. apply negb_true_iff in Hc.
  rewrite Ascii.eqb_sym in Hc. rewrite Hc. cbn [andb orb]. auto.
Qed.

(** Every placeholder of a word in a text is found by the scan. *)
Lemma findall_complete (x : string) :
  is_word x = true ->
  forall (n : nat) (s : string),
    String.length s <= n ->
    contains (placeholder x) s = true -> x ∈ findall_from 0 s.
Proof.
  intros Hx. induction n as [|n IH]; intros s Hn Hc.
  - apply Nat.le_0_r, string_length_zero in Hn. subst s. discriminate Hc.
  - destruct s as [|c s]; [discriminate Hc|].
    cbn [String.length] in Hn. cbn [findall_from].
    destruct (startswith (placeholder x) (String c s)) eqn:Hs.
    + apply startswith_split in Hs. rewrite Hs at 1.
      rewrite match_placeholder_head by exact Hx. by left.
    + cbn [contains] in Hc. rewrite Hs in Hc. cbn [orb] in Hc.
      destruct (match_placeholder (String c s)) as [w|] eqn:M;
        [|apply IH; [lia|exact Hc]].
      apply elem_of_cons. right.
      apply match_placeholder_Some in M as [[Hne Hw]%is_word_spec (r & E)].
      rewrite placeholder_unfold, !string_app_cons, string_app_assoc in E.
      injection E as -> ->.
      rewrite findall_from_skip.
      assert (Hp : all_chars not_open_brace (w +:+ "}}") = true).
      { rewrite all_chars_app. apply andb_true_iff. split; [|reflexivity].
        revert Hw. apply all_chars_impl, word_char_not_open_brace. }
      assert (Hd : drop_chars (String.length w + 3)
                     (String "{" (w +:+ "}}" +:+ r)) = r).
      { replace (String.length w + 3) with (S (String.length (w +:+ "}}")))
          by (rewrite string_app_length; cbn [String.length]; lia).
        cbn [drop_chars]. rewrite <- string_app_assoc. apply drop_chars_app. }
      rewrite Hd.
      assert (Hr : contains (placeholder x) r = true).
      { rewrite placeholder_unfold in Hc |- *.
        cbn [contains] in Hc.
        assert (Hh : startswith (String "{" (String "{" (x +:+ "}}")))
                       (String "{" (w +:+ "}}" +:+ r)) = false).
        { destruct w as [|a w]; [done|]. rewrite string_app_cons.
          cbn [startswith]. cbn [all_chars] in Hw.
          apply andb_true_iff in Hw as [Ha _].
          apply word_char_not_open_brace in Ha. unfold not_open_brace in Ha.
          apply negb_true_iff in Ha. rewrite Ascii.eqb_sym in Ha.
          by rewrite Ha, andb_false_r. }
        rewrite Hh in Hc. cbn [orb] in Hc.
        rewrite <- string_app_assoc in Hc. by rewrite contains_pass in Hc. }
      apply IH; [|exact Hr].
      cbn [String.length] in Hn. rewrite !string_app_length in Hn.
      cbn [String.length] in Hn. lia.
Qed.

(** The scan of a text finds exactly the words whose placeholder is in the
    text. *)
Lemma elem_of_findall (s x : string) :
  x ∈ findall s <-> is_word x = true /\ contains (placeholder x) s = true.
Proof.
  split.
  - apply findall_from_sound.
  - intros [Hw Hc]. by apply (findall_complete x Hw (String.length s)).
Qed.

Lemma elem_of_flat_map {A B : Type} (f : A -> list B) (l : list A) (y : B) :
  y ∈ flat_map f l <-> exists x : A, x ∈ l /\ y ∈ f x.
Proof.
  rewrite list_elem_of_In, in_flat_map. split.
  - intros (x & Hx & Hy). exists x. by rewrite !list_elem_of_In.
  - intros (x & Hx & Hy). exists x. by rewrite <- !list_elem_of_In.
Qed.

Lemma elem_of_scan_value (x : string) (v : value) :
  x ∈ scan_value v <-> exists s : string, s ∈ strings_of v /\ x ∈ findall s.
Proof.
  induction v as [|b|z|s|l IH|d IH] using value_nested_ind;
    cbn [scan_value strings_of].
  - split; [intros H; by apply not_elem_of_empty in H|intros (s & H & _); inversion H].
  - split; [intros H; by apply not_elem_of_empty in H|intros (s & H & _); inversion H].
  - split; [intros H; by apply not_elem_of_empty in H|intros (s & H & _); inversion H].
  - rewrite elem_of_list_to_set. split.
    + intros H. exists s. split; [by left|exact H].
    + intros (s' & ->%list_elem_of_singleton & H). exact H.
  - rewrite elem_of_union_list. split.
    + intros (X & HX & Hx). apply list_elem_of_fmap in HX as (v & -> & Hv).
      rewrite Forall_forall in IH. apply (IH v Hv) in Hx as (s & Hs & Hx).
      exists s. split; [|exact Hx]. apply elem_of_flat_map. eauto.
    + intros (s & Hs & Hx). apply elem_of_flat_map in Hs as (v & Hv & Hs).
      exists (scan_value v). split; [by apply list_elem_of_fmap_2|].
      rewrite Forall_forall in IH. apply (IH v Hv). eauto.
  - rewrite elem_of_union_list. split.
    + intros (X & HX & Hx). apply list_elem_of_fmap in HX as (kv & -> & Hkv).
      rewrite Forall_forall in IH. apply (IH kv Hkv) in Hx as (s & Hs & Hx).
      exists s. split; [|exact Hx]. apply elem_of_flat_map. eauto.
    + intros (s & Hs & Hx). apply elem_of_flat_map in Hs as (kv & Hkv & Hs).
      exists (scan_value kv.2). split.
      * apply list_elem_of_fmap. by exists kv.
      * rewrite Forall_forall in IH. apply (IH kv Hkv). eauto.
Qed.

(** X1.  The scan reports a name exactly when the name is a non-empty run
    of word characters, those of Python's [\w] on [str], and its placeholder
    occurs in some string of some constraint: a value of the constraint, or
    a string inside its lists and the values of its dictionaries at any
    depth.  Dictionary keys are not scanned. *)
Theorem scan_reports_exactly_the_placeholders
    (constraints_data : list dict) (x : string) :
  x ∈ find_unreplaced_variables constraints_data
  <-> is_word x = true
      /\ exists (constraint : dict) (kv : string * value) (s : string),
           constraint ∈ constraints_data /\ kv ∈ constraint
           /\ s ∈ strings_of kv.2 /\ contains (placeholder x) s = true.
Proof.
  unfold find_unreplaced_variables. rewrite elem_of_union_list. split.
  - intros (X & HX & Hx). apply list_elem_of_fmap in HX as (c & -> & Hc).
    apply elem_of_union_list in Hx as (Y & HY & Hx).
    apply list_elem_of_fmap in HY as (kv & -> & Hkv).
    apply elem_of_scan_value in Hx as (s & Hs & Hx).
    apply elem_of_findall in Hx as [Hw Hx].
    split; [exact Hw|]. by exists c, kv, s.
  - intros (Hw & c & kv & s & Hc & Hkv & Hs & Hx).
    eexists. split; [apply list_elem_of_fmap; by exists c|].
    apply elem_of_union_list.
    eexists. split; [apply list_elem_of_fmap; by exists kv|].
    apply elem_of_scan_value. exists s. split; [exact Hs|].
    by apply elem_of_findall.
Qed.

(** The scan reports a name with a letter outside ASCII, as [\w] matches
    it, and reports no name across a character that is neither a letter nor
    a digit (here the copyright sign, 169). *)
Lemma scan_reports_accented_names :
  findall (placeholder accented_name +:+ " " +:+ placeholder "ROLE_NAME" +:+ " "
           +:+ placeholder ("a" +:+ String (ascii_of_nat 169) "b"))
  = [accented_name; "ROLE_NAME"].
Proof. vm_compute. reflexivity. Qed.

(** * Further properties of the substitution *)

Lemma segment_ok_names (segs : list segment) :
  forallb wf_segment segs = true ->
  exists names : list string, forallb (segment_ok names) segs = true.
Proof.
  induction segs as [|[c|n] segs IH]; intros H.
  - by exists [].
  - cbn [forallb wf_segment] in H. apply andb_true_iff in H as [Hc H].
    destruct (IH H) as (names & Hn). exists names.
    cbn [forallb segment_ok]. by rewrite Hc.
  - cbn [forallb wf_segment] in H. apply andb_true_iff in H as [Hb H].
    destruct (IH H) as (names & Hn). exists (n :: names).
    cbn [forallb segment_ok mem existsb]. rewrite Hb, String.eqb_refl.
    cbn [andb orb]. clear -Hn.
    induction segs as [|[c|m] segs IHs]; [reflexivity| |].
    + cbn [forallb segment_ok] in Hn |- *.
      apply andb_true_iff in Hn as [-> Hn]. auto.
    + cbn [forallb segment_ok mem existsb] in Hn |- *.
      apply andb_true_iff in Hn as [Hm Hn].
      apply andb_true_iff in Hm as [-> Hm]. unfold mem in Hm.
      rewrite Hm, orb_true_r. auto.
Qed.

Lemma wf_subst_segment (A v : string) (segs : list segment) :
  all_chars not_open_brace v = true ->
  forallb wf_segment segs = true ->
  forallb wf_segment (flat_map (subst_segment A v) segs) = true.
Proof.
  intros Hv. induction segs as [|[c|n] segs IH]; intros H; [reflexivity| |].
  - cbn [forallb wf_segment] in H. apply andb_true_iff in H as [Hc H].
    cbn [flat_map subst_segment app forallb wf_segment]. rewrite Hc. auto.
  - cbn [forallb wf_segment] in H. apply andb_true_iff in H as [Hn H].
    cbn [flat_map subst_segment]. rewrite forallb_app.
    apply andb_true_iff. split; [|auto].
    destruct (String.eqb n A).
    + clear -Hv. induction v as [|c v IHv]; [reflexivity|].
      cbn [all_chars] in Hv. apply andb_true_iff in Hv as [Hc Hv].
      cbn [String.list_ascii_of_string map forallb wf_segment].
      rewrite Hc. auto.
    + cbn [forallb wf_segment]. by rewrite Hn.
Qed.

Lemma subst_all_lits (vv : list (string * string)) (l : list ascii) :
  subst_all vv (map Lit l) = map Lit l.
Proof. induction l as [|c l IH]; [reflexivity|]. cbn. by f_equal. Qed.

Lemma subst_all_app (vv : list (string * string)) (a b : list segment) :
  subst_all vv (a ++ b) = subst_all vv a ++ subst_all vv b.
Proof. apply flat_map_app. Qed.

(** One variable after the other is all of them at once. *)
Lemma subst_all_cons (A v : string) (vv : list (string * string))
    (segs : list segment) :
  subst_all vv (flat_map (subst_segment A v) segs) = subst_all ((A, v) :: vv) segs.
Proof.
  induction segs as [|[c|n] segs IH]; [reflexivity| |].
  - cbn [flat_map subst_segment app]. change (Lit c :: ?l) with ([Lit c] ++ l).
    rewrite !subst_all_app, IH. reflexivity.
  - cbn [flat_map subst_segment]. rewrite subst_all_app, IH.
    change (subst_all ((A, v) :: vv) (Var n :: segs))
      with (match var_get n ((A, v) :: vv) with
            | Some w => map Lit (String.list_ascii_of_string w)
            | None => [Var n]
            end ++ subst_all ((A, v) :: vv) segs).
    f_equal. cbn [var_get]. destruct (String.eqb n A).
    + apply subst_all_lits.
    + cbn. by rewrite app_nil_r.
Qed.

(** On a well-formed text the passes of [replace_in_string] amount to the
    substitution of all the variables at once. *)
Lemma replace_in_string_simultaneous (vv : list (string * string)) :
  plain_variables vv = true ->
  forall segs : list segment,
    forallb wf_segment segs = true ->
    replace_in_string vv (render segs) = render (subst_all vv segs).
Proof.
  induction vv as [|[A v] vv IH]; intros Hvv segs Hsegs.
  - unfold replace_in_string. cbn [fold_left]. f_equal.
    clear. induction segs as [|[c|n] segs IHs]; [reflexivity| |];
      cbn; by f_equal.
  - cbn [plain_variables forallb fst snd] in Hvv.
    apply andb_true_iff in Hvv as [HAv Hvv].
    apply andb_true_iff in HAv as [HA Hv].
    change (replace_in_string ((A, v) :: vv) (render segs))
      with (replace_in_string vv (str_replace (placeholder A) v (render segs))).
    rewrite str_replace_placeholder.
    destruct (segment_ok_names _ Hsegs) as (names & Hnames).
    rewrite (replace_from_render names _ _ _ HA Hnames).
    rewrite (IH Hvv) by by apply wf_subst_segment.
    by rewrite subst_all_cons.
Qed.

Lemma var_get_In (k v : string) (vv : list (string * string)) :
  var_get k vv = Some v -> (k, v) ∈ vv.
Proof.
  induction vv as [|[k' v'] vv IH]; [discriminate|]. cbn [var_get].
  destruct (String.eqb_spec k k') as [->|Hne].
  - intros [= ->]. by left.
  - intros H. right. auto.
Qed.

Lemma var_get_NoDup (k v : string) (vv : list (string * string)) :
  NoDup (map fst vv) -> (k, v) ∈ vv -> var_get k vv = Some v.
Proof.
  induction vv as [|[k' v'] vv IH]; intros Hnd Hin; [inversion Hin|].
  cbn [map fst] in Hnd. apply NoDup_cons in Hnd as [Hk' Hnd].
  cbn [var_get]. apply elem_of_cons in Hin as [[= -> ->]|Hin].
  - by rewrite String.eqb_refl.
  - destruct (String.eqb_spec k k') as [->|Hne]; [|auto].
    destruct Hk'. apply list_elem_of_fmap. by exists (k', v).
Qed.

(** With distinct names the lookup does not depend on the order. *)
Lemma var_get_Permutation (k : string) (vv vv' : list (string * string)) :
  NoDup (map fst vv) -> vv ≡ₚ vv' -> var_get k vv = var_get k vv'.
Proof.
  intros Hnd Hp.
  assert (Hnd' : NoDup (map fst vv')).
  { rewrite <- Hp. exact Hnd. }
  destruct (var_get k vv) as [v|] eqn:E.
  - symmetry. apply var_get_NoDup; [exact Hnd'|].
    rewrite <- Hp. by apply var_get_In.
  - destruct (var_get k vv') as [v'|] eqn:E'; [|reflexivity].
    apply var_get_In in E'. rewrite <- Hp in E'.
    apply (var_get_NoDup _ _ _ Hnd) in E'. congruence.
Qed.

(** X2.  On a text whose opening braces all belong to placeholders of
    brace-free names, with brace-free variable names and values that have
    no opening brace, the successive replacements give the text in which
    every placeholder of a variable that has a value is replaced by that
    value and everything else is kept. *)
Theorem substitution_is_simultaneous (var_values : list (string * string))
    (segs : list segment) :
  plain_variables var_values = true ->
  forallb wf_segment segs = true ->
  replace_in_string var_values (render segs)
  = render (subst_all var_values segs).
Proof. intros Hvv Hsegs. by apply replace_in_string_simultaneous. Qed.

Lemma substitution_is_simultaneous_witness :
  replace_in_string [("ROLE_NAME", "db-admin"); ("DATABASE_ID", "proj1")]
    (render [Var "DATABASE_ID"; Lit "/"; Var "ROLE_NAME"; Lit "}"; Var "OTHER"])
  = render (subst_all [("ROLE_NAME", "db-admin"); ("DATABASE_ID", "proj1")]
              [Var "DATABASE_ID"; Lit "/"; Var "ROLE_NAME"; Lit "}"; Var "OTHER"]).
Proof.
  apply (substitution_is_simultaneous
           [("ROLE_NAME", "db-admin"); ("DATABASE_ID", "proj1")]
           [Var "DATABASE_ID"; Lit "/"; Var "ROLE_NAME"; Lit "}"; Var "OTHER"]);
    reflexivity.
Defined.

(** X3.  Under the same conditions, and with pairwise distinct variable
    names, the result of the substitution does not depend on the order in
    which [variableValues] lists the variables. *)
Theorem substitution_order_irrelevant (var_values var_values' : list (string * string))
    (segs : list segment) :
  plain_variables var_values = true ->
  forallb wf_segment segs = true ->
  NoDup (map fst var_values) ->
  var_values ≡ₚ var_values' ->
  replace_in_string var_values (render segs)
  = replace_in_string var_values' (render segs).
Proof.
  intros Hvv Hsegs Hnd Hp.
  assert (Hvv' : plain_variables var_values' = true).
  { unfold plain_variables in *. rewrite forallb_forall in Hvv |- *.
    intros kv Hkv. apply Hvv. by rewrite Hp. }
  rewrite !replace_in_string_simultaneous by assumption.
  f_equal. unfold subst_all. apply flat_map_ext. intros [c|n]; [reflexivity|].
  by rewrite (var_get_Permutation n _ _ Hnd Hp).
Qed.

Lemma substitution_order_irrelevant_witness :
  replace_in_string [("ROLE_NAME", "db-admin"); ("DATABASE_ID", "proj1")]
    (render [Var "DATABASE_ID"; Lit "/"; Var "ROLE_NAME"])
  = replace_in_string [("DATABASE_ID", "proj1"); ("ROLE_NAME", "db-admin")]
      (render [Var "DATABASE_ID"; Lit "/"; Var "ROLE_NAME"]).
Proof.
  apply (substitution_order_irrelevant
           [("ROLE_NAME", "db-admin"); ("DATABASE_ID", "proj1")]
           [("DATABASE_ID", "proj1"); ("ROLE_NAME", "db-admin")]
           [Var "DATABASE_ID"; Lit "/"; Var "ROLE_NAME"]).
  - reflexivity.
  - reflexivity.
  - repeat constructor; set_solver.
  - apply perm_swap.
Defined.

Lemma map_fixed {A : Type} (f : A -> A) (l : list A) :
  (forall x, x ∈ l -> f x = x) -> map f l = l.
Proof.
  induction l as [|x l IH]; intros H; [reflexivity|].
  cbn [map]. rewrite (H x) by by left. f_equal. apply IH.
  intros y Hy. apply H. by right.
Qed.

Section Unchanged.

Variable vv : list (string * string).

(** No variable of [vv] has its placeholder in [s]. *)
Let quiet (s : string) : Prop :=
  Forall (fun kv => contains (placeholder kv.1) s = false) vv.

Lemma substitute_leaf_fixed (i : value) :
  (forall s, s ∈ strings_of i -> quiet s) -> substitute_leaf vv i = i.
Proof.
  intros H. destruct i as [| | |s| |]; try reflexivity.
  cbn [substitute_leaf]. f_equal. apply replace_in_string_absent, H. by left.
Qed.

Lemma substitute_entry_fixed (v : value) :
  (forall s, s ∈ strings_of v -> quiet s) -> substitute_entry vv v = v.
Proof.
  intros H. destruct v as [| | |s|l|]; try reflexivity.
  - cbn [substitute_entry]. f_equal. apply replace_in_string_absent, H. by left.
  - cbn [substitute_entry]. f_equal. apply map_fixed. intros i Hi.
    apply substitute_leaf_fixed. intros s Hs. apply H.
    cbn [strings_of]. apply elem_of_flat_map. eauto.
Qed.

Lemma substitute_item_fixed (item : value) :
  (forall s, s ∈ strings_of item -> quiet s) -> substitute_item vv item = item.
Proof.
  intros H. destruct item as [| | |s| |d]; try reflexivity.
  - cbn [substitute_item]. f_equal. apply replace_in_string_absent, H. by left.
  - cbn [substitute_item]. f_equal. apply map_fixed. intros [k v] Hkv.
    cbn [fst snd]. f_equal. apply substitute_entry_fixed. intros s Hs. apply H.
    cbn [strings_of]. apply elem_of_flat_map. by exists (k, v).
Qed.

Lemma substitute_field_fixed (v : value) :
  (forall s, s ∈ strings_of v -> quiet s) -> substitute_field vv v = v.
Proof.
  intros H. destruct v as [| | |s|l|]; try reflexivity.
  - cbn [substitute_field]. f_equal. apply replace_in_string_absent, H. by left.
  - cbn [substitute_field]. f_equal. apply map_fixed. intros i Hi.
    apply substitute_item_fixed. intros s Hs. apply H.
    cbn [strings_of]. apply elem_of_flat_map. eauto.
Qed.

End Unchanged.

(** X4.  Constraints in which no string, at any depth, contains the
    placeholder of a variable of [var_values] come out of the substitution
    as they went in. *)
Theorem substitution_without_placeholders_is_identity
    (constraints_data : list dict) (var_values : list (string * string)) :
  (forall (constraint : dict) (kv : string * value) (s : string) (var : string * string),
      constraint ∈ constraints_data -> kv ∈ constraint ->
      s ∈ strings_of kv.2 -> var ∈ var_values ->
      contains (placeholder var.1) s = false) ->
  substitute_variables constraints_data var_values = constraints_data.
Proof.
  intros H. unfold substitute_variables. apply map_fixed. intros c Hc.
  apply map_fixed. intros [k v] Hkv. cbn [fst snd]. f_equal.
  apply substitute_field_fixed. intros s Hs. apply Forall_forall.
  intros var Hvar. by apply (H c (k, v) s var).
Qed.

Lemma substitution_without_placeholders_is_identity_witness :
  substitute_variables
    [[("name", VStr "all-assets"); ("tags", VList [VStr "{{OTHER}}"; VInt 3])]]
    [("ROLE_NAME", "db-admin")]
  = [[("name", VStr "all-assets"); ("tags", VList [VStr "{{OTHER}}"; VInt 3])]].
Proof.
  apply substitution_without_placeholders_is_identity.
  intros c kv s var Hc Hkv Hs Hvar.
  apply list_elem_of_singleton in Hc as ->.
  apply list_elem_of_singleton in Hvar as ->.
  apply elem_of_cons in Hkv as [->|Hkv].
  - apply list_elem_of_singleton in Hs as ->. reflexivity.
  - apply list_elem_of_singleton in Hkv as ->.
    cbn in Hs. apply list_elem_of_singleton in Hs as ->. reflexivity.
Defined.

(** X5.  Substitution stops two levels down.  A list placed directly inside
    a list-valued field, and a dictionary placed as a value inside a
    dictionary item, are kept as they are, so the placeholder of a word
    inside one of them is reported by the scan that follows, whether or not
    the variable has a value. *)
Theorem placeholders_below_two_levels_are_reported
    (var_values : list (string * string)) (constraints_data : list dict)
    (constraint : dict) (k : string) (items : list value) (x s : string) :
  constraint ∈ constraints_data ->
  (k, VList items) ∈ constraint ->
  is_word x = true ->
  contains (placeholder x) s = true ->
  ((exists l : list value, VList l ∈ items /\ s ∈ strings_of (VList l))
   \/ (exists (d d' : dict) (k' : string),
          VDict d ∈ items /\ (k', VDict d') ∈ d /\ s ∈ strings_of (VDict d'))) ->
  x ∈ find_unreplaced_variables (substitute_variables constraints_data var_values).
Proof.
  intros Hc Hk Hw Hx Hdeep.
  unfold find_unreplaced_variables, substitute_variables.
  apply elem_of_union_list. eexists. split.
  { apply list_elem_of_fmap. eexists. split; [reflexivity|].
    apply list_elem_of_fmap. exists constraint. split; [reflexivity|exact Hc]. }
  apply elem_of_union_list. eexists. split.
  { apply list_elem_of_fmap. eexists. split; [reflexivity|].
    apply list_elem_of_fmap. exists (k, VList items). split; [reflexivity|exact Hk]. }
  cbn [fst snd substitute_field]. apply elem_of_scan_value. exists s.
  split; [|by apply elem_of_findall].
  cbn [strings_of]. apply elem_of_flat_map.
  destruct Hdeep as [(l & Hl & Hs)|(d & d' & k' & Hd & Hk' & Hs)].
  - exists (VList l). split; [|exact Hs].
    apply list_elem_of_fmap. exists (VList l). split; [reflexivity|exact Hl].
  - exists (substitute_item var_values (VDict d)). split.
    + apply list_elem_of_fmap. exists (VDict d). split; [reflexivity|exact Hd].
    + cbn [substitute_item strings_of]. apply elem_of_flat_map.
      exists (k', VDict d'). split; [|exact Hs].
      apply list_elem_of_fmap. exists (k', VDict d'). split; [reflexivity|exact Hk'].
Qed.

Lemma placeholders_below_two_levels_are_reported_witness :
  "ROLE_NAME"
    ∈ find_unreplaced_variables
        (substitute_variables
           [[("name", VStr "{{ROLE_NAME}}");
             ("groups", VList [VList [VStr "{{ROLE_NAME}}"]])]]
           [("ROLE_NAME", "db-admin")]).
Proof.
  apply (placeholders_below_two_levels_are_reported
           [("ROLE_NAME", "db-admin")] _
           [("name", VStr "{{ROLE_NAME}}");
            ("groups", VList [VList [VStr "{{ROLE_NAME}}"]])]
           "groups" [VList [VStr "{{ROLE_NAME}}"]] "ROLE_NAME" "{{ROLE_NAME}}").
  - by left.
  - right. by left.
  - reflexivity.
  - reflexivity.
  - left. exists [VStr "{{ROLE_NAME}}"]. split; by left.
Defined.

(** * Further properties of the validator *)

Lemma first_error_None {A : Type} (check : A -> option exn) (l : list A) :
  first_error check l = None <-> forall x, x ∈ l -> check x = None.
Proof.
  induction l as [|x l IH]; cbn [first_error].
  - split; [intros _ x Hx; inversion Hx|reflexivity].
  - destruct (check x) eqn:E.
    + split; [discriminate|]. intros H. rewrite <- E. apply H. by left.
    + rewrite IH. split.
      * intros H y [->|Hy]%elem_of_cons; auto.
      * intros H y Hy. apply H. by right.
Qed.

Lemma mem_spec (x : string) (l : list string) : mem x l = true <-> x ∈ l.
Proof.
  unfold mem. rewrite existsb_exists. split.
  - intros (y & Hy & ->%String.eqb_eq). by apply list_elem_of_In.
  - intros H. exists x. split; [by apply list_elem_of_In|apply String.eqb_refl].
Qed.

(** After the loop over the declared variables every required one has a
    value. *)
Lemma check_variables_required (vars : list TemplateVariableDefinition) :
  forall vv vv' : list (string * string),
    check_variables vars vv = Return vv' ->
    forall d, d ∈ vars -> get_default (var_required d) false = true ->
              is_Some (var_get (var_name d) vv').
Proof.
  induction vars as [|d0 vars IH]; intros vv vv' H d Hd Hreq;
    [inversion Hd|].
  cbn [check_variables] in H.
  apply elem_of_cons in Hd as [->|Hd].
  - rewrite Hreq in H. cbn [andb] in H.
    destruct (var_get (var_name d0) vv) as [v|] eqn:E.
    + rewrite bool_decide_eq_true_2 in H by by eexists. cbn [negb] in H.
      exists v. by apply (check_variables_keeps _ _ _ _ _ E H).
    + rewrite bool_decide_eq_false_2 in H by by intros [? ?]. cbn [negb] in H.
      destruct (var_default d0) as [dflt|]; [|discriminate].
      exists dflt.
      assert (Hset : var_get (var_name d0)
                       (var_set (var_name d0) dflt vv) = Some dflt)
        by by rewrite var_get_var_set, String.eqb_refl.
      by apply (check_variables_keeps _ _ _ _ _ Hset H).
  - destruct (_ && _) in H; [|by eapply IH].
    destruct (var_default d0); [|discriminate]. by eapply IH.
Qed.

(** A value that appears during the loop is the default of a required
    variable of that name. *)
Lemma check_variables_new (vars : list TemplateVariableDefinition) (k v : string) :
  forall vv vv' : list (string * string),
    check_variables vars vv = Return vv' ->
    var_get k vv = None ->
    var_get k vv' = Some v ->
    exists d, d ∈ vars /\ var_name d = k
              /\ get_default (var_required d) false = true
              /\ var_default d = Some v.
Proof.
  induction vars as [|d0 vars IH]; intros vv vv' H Hk Hv; cbn [check_variables] in H.
  - injection H as <-. congruence.
  - destruct (get_default (var_required d0) false
              && negb (bool_decide (is_Some (var_get (var_name d0) vv)))) eqn:E.
    + destruct (var_default d0) as [dflt|] eqn:Ed; [|discriminate].
      apply andb_true_iff in E as [Hreq _].
      destruct (String.eqb_spec k (var_name d0)) as [->|Hne].
      * assert (Hset : var_get (var_name d0)
                         (var_set (var_name d0) dflt vv) = Some dflt)
          by by rewrite var_get_var_set, String.eqb_refl.
        rewrite (check_variables_keeps _ _ _ _ _ Hset H) in Hv.
        injection Hv as <-. exists d0. split; [by left|]. auto.
      * destruct (IH _ _ H) as (d & Hd & Hrest); [|exact Hv|].
        -- rewrite var_get_var_set.
           by destruct (String.eqb_spec k (var_name d0)).
        -- exists d. split; [by right|exact Hrest].
    + destruct (IH _ _ H Hk Hv) as (d & Hd & Hrest).
      exists d. split; [by right|exact Hrest].
Qed.

(** The parts of a successful validation *)
Lemma validate_template_import_Return (voc : Vocabulary)
    (values td : ImportConstraintsTemplateRequestModel) :
  validate_template_import voc values = Return td ->
  exists (role_name : string) (vv' : list (string * string)),
    var_get "ROLE_NAME" (variableValues values) = Some role_name
    /\ (validate_object_name voc "ROLE_NAME" role_name).1 = true
    /\ check_variables (variables values) (variableValues values) = Return vv'
    /\ constraints values <> []
    /\ first_error (check_constraint voc) (constraints values) = None
    /\ td = with_variableValues values vv'.
Proof.
  unfold validate_template_import.
  destruct (var_get "ROLE_NAME" (variableValues values)) as [r|] eqn:Hr;
    [|discriminate].
  destruct (validate_object_name voc "ROLE_NAME" r) as [valid msg] eqn:Hv.
  destruct valid; [|discriminate]. cbn [negb].
  destruct (check_variables (variables values) (variableValues values))
    as [vv'|e] eqn:Hc; [|discriminate].
  destruct (constraints values) as [|c cs] eqn:Hcs; [discriminate|].
  destruct (first_error _ _) eqn:Hf; [discriminate|].
  intros [= <-]. exists r, vv'. rewrite Hv. by repeat split.
Qed.

(** X6.  A template the root validator accepts keeps its metadata,
    declarations and constraints, has a ROLE_NAME that passes the
    object-name check, a value for every required declared variable, and at
    least one constraint; each constraint has an allowed object type, at
    least one criterion, allowed operators in all its criteria, and allowed
    actions and types in all its permissions. *)
Theorem accepted_template_is_well_formed (voc : Vocabulary)
    (values td : ImportConstraintsTemplateRequestModel) :
  validate_template_import voc values = Return td ->
  (template td = template values /\ variables td = variables values
   /\ constraints td = constraints values)
  /\ (exists role_name : string,
         var_get "ROLE_NAME" (variableValues td) = Some role_name
         /\ (validate_object_name voc "ROLE_NAME" role_name).1 = true)
  /\ (forall d, d ∈ variables td -> var_required d = Some true ->
                is_Some (var_get (var_name d) (variableValues td)))
  /\ constraints td <> []
  /\ (forall c, c ∈ constraints td ->
        tc_objectType c ∈ ALLOWED_CONSTRAINT_OBJECT_TYPES voc
        /\ (get_default (tc_criteriaAnd c) [] <> []
            \/ get_default (tc_criteriaOr c) [] <> [])
        /\ (forall criteria,
               criteria ∈ get_default (tc_criteriaAnd c) []
                          ++ get_default (tc_criteriaOr c) [] ->
               operator criteria ∈ ALLOWED_CONSTRAINT_OPERATORS voc)
        /\ (forall perm, perm ∈ tc_groupPermissions c ->
               action perm ∈ ALLOWED_CONSTRAINT_PERMISSIONS voc
               /\ get_default (type_ perm) "allow"
                  ∈ ALLOWED_CONSTRAINT_PERMISSION_TYPES voc)).
Proof.
  intros H.
  destruct (validate_template_import_Return _ _ _ H)
    as (r & vv' & Hr & Hobj & Hc & Hne & Hf & ->).
  cbn [template variables constraints variableValues with_variableValues].
  split; [auto|]. split.
  { exists r. split; [|exact Hobj]. by apply (check_variables_keeps _ _ _ _ _ Hr Hc). }
  split.
  { intros d Hd Hreq. apply (check_variables_required _ _ _ Hc d Hd).
    by rewrite Hreq. }
  split; [exact Hne|].
  intros c Hin. rewrite first_error_None in Hf. specialize (Hf c Hin).
  unfold check_constraint in Hf.
  destruct (negb (mem (tc_objectType c) _)) eqn:Ho; [discriminate|].
  apply negb_false_iff, mem_spec in Ho.
  destruct (falsy_list (tc_criteriaAnd c) && falsy_list (tc_criteriaOr c)) eqn:Hcr;
    [discriminate|].
  destruct (first_error (check_criteria voc) _) eqn:Hops; [discriminate|].
  split; [exact Ho|]. split.
  { apply andb_false_iff in Hcr as [Hcr|Hcr]; [left|right].
    - destruct (tc_criteriaAnd c) as [[|? ?]|]; done.
    - destruct (tc_criteriaOr c) as [[|? ?]|]; done. }
  split.
  - intros criteria Hcrit. rewrite first_error_None in Hops.
    specialize (Hops criteria Hcrit). unfold check_criteria in Hops.
    destruct (negb (mem _ _)) eqn:Hm; [discriminate|].
    by apply negb_false_iff, mem_spec in Hm.
  - intros perm Hperm. rewrite first_error_None in Hf.
    specialize (Hf perm Hperm). unfold check_permission in Hf.
    destruct (negb (mem (action perm) _)) eqn:Ha; [discriminate|].
    destruct (negb (mem (get_default (type_ perm) "allow") _)) eqn:Ht;
      [discriminate|].
    apply negb_false_iff, mem_spec in Ha. apply negb_false_iff, mem_spec in Ht.
    by split.
Qed.

Lemma accepted_template_is_well_formed_witness :
  constraints two_constraint_template <> [].
Proof.
  pose proof (accepted_template_is_well_formed example_vocabulary
                two_constraint_template two_constraint_template eq_refl)
    as (_ & _ & _ & H & _).
  exact H.
Defined.

(** X7.  The defaults the validator fills in never replace a value that was
    supplied, and every value that validation adds to [variableValues] is
    the default of a required declared variable of that name. *)
Theorem defaults_fill_only_missing_variables (voc : Vocabulary)
    (values td : ImportConstraintsTemplateRequestModel) (k : string) :
  validate_template_import voc values = Return td ->
  (forall v, var_get k (variableValues values) = Some v ->
             var_get k (variableValues td) = Some v)
  /\ (forall v, var_get k (variableValues values) = None ->
                var_get k (variableValues td) = Some v ->
                exists d, d ∈ variables values /\ var_name d = k
                          /\ var_required d = Some true
                          /\ var_default d = Some v).
Proof.
  intros H.
  destruct (validate_template_import_Return _ _ _ H)
    as (r & vv' & Hr & Hobj & Hc & Hne & Hf & ->).
  cbn [variableValues with_variableValues]. split.
  - intros v Hv. by apply (check_variables_keeps _ _ _ _ _ Hv Hc).
  - intros v Hnone Hv.
    destruct (check_variables_new _ _ _ _ _ Hc Hnone Hv)
      as (d & Hd & Hname & Hreq & Hdef).
    exists d. repeat split; try assumption.
    destruct (var_required d) as [[|]|]; done.
Qed.

Lemma defaults_fill_only_missing_variables_witness :
  exists d, d ∈ variables defaulted_template /\ var_name d = "DATABASE_ID"
            /\ var_required d = Some true /\ var_default d = Some "GLOBAL".
Proof.
  eapply (defaults_fill_only_missing_variables example_vocabulary
            defaulted_template _ "DATABASE_ID").
  - reflexivity.
  - reflexivity.
  - reflexivity.
Defined.

(** * Further properties of the handler and of the orchestrator *)

Lemma import_without_role_name (env : Env)
    (td : ImportConstraintsTemplateRequestModel) (claims_and_roles : Claims)
    (s : Store) :
  var_get "ROLE_NAME" (variableValues td) = None ->
  import_template_constraints env td claims_and_roles s
  = (Raise (KeyError "ROLE_NAME"), s, []).
Proof.
  intros H. unfold import_template_constraints, bind, lift. by rewrite H.
Qed.

(** Whatever the template, the orchestrator only adds to the table; when
    the scan finds something it leaves the store as it is. *)
Lemma import_store (env : Env) (td : ImportConstraintsTemplateRequestModel)
    (claims_and_roles : Claims) (s : Store) :
  puts s `prefix_of` puts (import_template_constraints env td claims_and_roles s).1.2
  /\ ((import_template_constraints env td claims_and_roles s).1.2 <> s ->
      unreplaced_of td = ∅).
Proof.
  destruct (var_get "ROLE_NAME" (variableValues td)) as [r|] eqn:Hr.
  - split.
    + destruct (sat_import_template_constraints env td claims_and_roles r Hr s)
        as [(new & E & _) _]. by exists new.
    + intros Hs. destruct (decide (unreplaced_of td = ∅)) as [|Hne]; [done|].
      by rewrite (import_unreplaced env td claims_and_roles s r Hr Hne) in Hs.
  - rewrite import_without_role_name by exact Hr. cbn [fst snd].
    split; [done|]. intros Hs. by destruct Hs.
Qed.

(** X8.  The handler never removes an item from the table, and it changes
    the store only for a caller with a token whom the enforcer allows, on a
    POST whose body passes validation and whose substituted constraints have
    no placeholder left; a caller without a token or refused by the enforcer
    gets the authorization error, whatever the method and the body. *)
Theorem handler_writes_only_for_valid_authorized_posts (env : Env)
    (voc : Vocabulary) (claims_and_roles : Claims) (enforced : bool)
    (method : string) (body : request_body) (s : Store) :
  let r := lambda_handler env voc claims_and_roles enforced method body s in
  puts s `prefix_of` puts r.1.2
  /\ (r.1.2 <> s ->
      tokens claims_and_roles <> [] /\ enforced = true /\ method = "POST"
      /\ exists values td : ImportConstraintsTemplateRequestModel,
           body = BodyFields values
           /\ validate_template_import voc values = Return td
           /\ unreplaced_of td = ∅)
  /\ (tokens claims_and_roles = [] \/ enforced = false ->
      r = (authorization_error, s, [])).
Proof.
  cbv zeta. unfold lambda_handler.
  destruct (tokens claims_and_roles) as [|t ts] eqn:Htok;
    [cbn; split; [done|]; split; [done|auto]|].
  destruct enforced;
    [|cbn; split; [done|]; split; [done|auto]].
  cbn [length Nat.eqb negb andb].
  destruct (String.eqb_spec method "POST") as [->|Hm];
    cbn [negb]; [|split; [done|]; split; [done|intros [|]; done]].
  destruct body as [| | |values];
    try (cbn; split; [done|]; split; [done|intros [|]; done]).
  unfold parse.
  destruct (validate_template_import voc values) as [td|e] eqn:Hv;
    [|cbn; split; [done|]; split; [done|intros [|]; done]].
  pose proof (import_store env td claims_and_roles s) as [Hpre Hch].
  destruct (import_template_constraints env td claims_and_roles s)
    as [[o s'] l]. cbn [fst snd] in Hpre, Hch.
  assert (Hgoal : puts s `prefix_of` puts s'
                  /\ (s' <> s ->
                      t :: ts <> [] /\ true = true /\ "POST" = "POST"
                      /\ exists values0 td0,
                           BodyFields values = BodyFields values0
                           /\ validate_template_import voc values0 = Return td0
                           /\ unreplaced_of td0 = ∅)).
  { split; [exact Hpre|]. intros Hs. repeat split; [done|].
    exists values, td. auto. }
  destruct o as [result|[]]; cbn [fst snd];
    (split; [apply Hgoal|]; split; [apply Hgoal|intros [|]; done]).
Qed.

Lemma handler_writes_only_for_valid_authorized_posts_witness :
  lambda_handler (example_env None (fun _ => false)) example_vocabulary
    {| tokens := [] |} true "POST" (BodyFields db_admin_template) initial_store
  = (authorization_error, initial_store, []).
Proof.
  apply (handler_writes_only_for_valid_authorized_posts
           (example_env None (fun _ => false)) example_vocabulary
           {| tokens := [] |} true "POST" (BodyFields db_admin_template)
           initial_store).
  by left.
Defined.

(** ** Runs *)

Lemma runs_bind {A B : Type} (m : M A) (k : A -> M B) (s s1 s2 : Store)
    (a : A) (b : B) :
  runs m s a s1 -> runs (k a) s1 b s2 -> runs (bind m k) s b s2.
Proof.
  intros (l1 & H1) (l2 & H2). exists (l1 ++ l2). unfold bind. by rewrite H1, H2.
Qed.

Lemma raises_bind_l {A B : Type} (m : M A) (k : A -> M B) (s s1 : Store) (e : exn) :
  raises m s e s1 -> raises (bind m k) s e s1.
Proof. intros (l1 & H1). exists l1. unfold bind. by rewrite H1. Qed.

Lemma raises_bind_r {A B : Type} (m : M A) (k : A -> M B) (s s1 s2 : Store)
    (a : A) (e : exn) :
  runs m s a s1 -> raises (k a) s1 e s2 -> raises (bind m k) s e s2.
Proof.
  intros (l1 & H1) (l2 & H2). exists (l1 ++ l2). unfold bind. by rewrite H1, H2.
Qed.

Lemma runs_ret {A : Type} (a : A) (s : Store) : runs (ret a) s a s.
Proof. by exists []. Qed.

Lemma runs_lift {A : Type} (a : A) (s : Store) : runs (lift (Return a)) s a s.
Proof. by exists []. Qed.

Lemma runs_log (lv : level) (msg : string) (s : Store) : runs (log lv msg) s tt s.
Proof. by eexists. Qed.

Lemma runs_new_uuid (env : Env) (s : Store) :
  exists s', runs (new_uuid env) s (uuid4 env (uuids s)) s' /\ puts s' = puts s.
Proof. eexists. split; [by exists []|reflexivity]. Qed.

Lemma runs_read_clock (env : Env) (s : Store) :
  exists now s', runs (read_clock env) s now s' /\ puts s' = puts s.
Proof. eexists _, _. split; [by exists []|reflexivity]. Qed.

Lemma runs_role_check (env : Env) (group_id : string) (s : Store) :
  exists b, runs (validate_constraint_role_exists env group_id) s b s.
Proof.
  destruct (role_check_store env group_id s) as (b & l & H). exists b. by exists l.
Qed.

(** ** Building the permissions of a template constraint *)

Lemma build_group_permission_typed (env : Env) (role_name : string)
    (p : TemplateConstraintPermission) (s : Store) :
  is_Some (type_ p) ->
  exists gp s',
    runs (build_group_permission env role_name (permission_dict p)) s gp s'
    /\ puts s' = puts s.
Proof.
  intros [t Ht]. unfold build_group_permission, permission_dict. rewrite Ht.
  destruct (runs_new_uuid env s) as (s1 & H1 & E1).
  eexists _, s1. split; [|exact E1].
  eapply runs_bind; [exact H1|].
  eapply runs_bind; [apply runs_lift|].
  eapply runs_bind; [apply runs_lift|].
  apply runs_ret.
Qed.

Lemma build_group_permission_untyped (env : Env) (role_name : string)
    (p : TemplateConstraintPermission) (s : Store) :
  type_ p = None ->
  exists s',
    raises (build_group_permission env role_name (permission_dict p)) s
           (KeyError "type") s'
    /\ puts s' = puts s.
Proof.
  intros Ht. unfold build_group_permission, permission_dict. rewrite Ht.
  destruct (runs_new_uuid env s) as (s1 & H1 & E1).
  exists s1. split; [|exact E1].
  eapply raises_bind_r; [exact H1|].
  eapply raises_bind_r; [apply runs_lift|].
  apply raises_bind_l. by exists [].
Qed.

Lemma build_permissions_typed (env : Env) (role_name : string)
    (perms : list TemplateConstraintPermission) :
  Forall (fun p => is_Some (type_ p)) perms ->
  forall s, exists gps s',
    runs (for_each (build_group_permission env role_name)
            (map permission_dict perms)) s gps s'
    /\ puts s' = puts s.
Proof.
  induction 1 as [|p perms Hp _ IH]; intros s.
  - exists [], s. split; [apply runs_ret|reflexivity].
  - destruct (build_group_permission_typed env role_name p s Hp)
      as (gp & s1 & H1 & E1).
    destruct (IH s1) as (gps & s2 & H2 & E2).
    exists (gp :: gps), s2. split; [|congruence].
    cbn [map for_each].
    eapply runs_bind; [exact H1|].
    eapply runs_bind; [exact H2|]. apply runs_ret.
Qed.

Lemma build_permissions_untyped (env : Env) (role_name : string)
    (perms : list TemplateConstraintPermission) :
  Exists (fun p => type_ p = None) perms ->
  forall s, exists s',
    raises (for_each (build_group_permission env role_name)
              (map permission_dict perms)) s (KeyError "type") s'
    /\ puts s' = puts s.
Proof.
  induction perms as [|p perms IH]; intros Hex s; [inversion Hex|].
  cbn [map for_each].
  destruct (type_ p) as [t|] eqn:Ht.
  - assert (Hex' : Exists (fun p => type_ p = None) perms).
    { apply Exists_cons in Hex as [Hp|Hex]; [congruence|exact Hex]. }
    destruct (build_group_permission_typed env role_name p s) as (gp & s1 & H1 & E1);
      [by rewrite Ht|].
    destruct (IH Hex' s1) as (s2 & H2 & E2).
    exists s2. split; [|congruence].
    eapply raises_bind_r; [exact H1|]. by apply raises_bind_l.
  - destruct (build_group_permission_untyped env role_name p s Ht) as (s1 & H1 & E1).
    exists s1. split; [|exact E1]. by apply raises_bind_l.
Qed.

Lemma build_constraint_data_typed (env : Env) (role_name : string)
    (claims_and_roles : Claims) (c : TemplateConstraintDefinition) (s : Store) :
  types_set c ->
  exists cd s',
    runs (build_constraint_data env (c_dict c) role_name claims_and_roles) s cd s'
    /\ identifier cd = uuid4 env (uuids s).
Proof.
  intros Hc. unfold build_constraint_data.
  destruct (runs_new_uuid env s) as (s1 & H1 & E1).
  destruct (runs_read_clock env s1) as (now & s2 & H2 & E2).
  destruct (build_permissions_typed env role_name _ Hc s2) as (gps & s3 & H3 & E3).
  eexists _, s3. split.
  - eapply runs_bind; [exact H1|].
    eapply runs_bind; [exact H2|].
    eapply runs_bind; [apply runs_lift|].
    eapply runs_bind; [exact H3|].
    eapply runs_bind; [apply runs_lift|].
    eapply runs_bind; [apply runs_lift|].
    eapply runs_bind; [apply runs_lift|].
    apply runs_ret.
  - reflexivity.
Qed.

Lemma build_constraint_data_untyped (env : Env) (role_name : string)
    (claims_and_roles : Claims) (c : TemplateConstraintDefinition) (s : Store) :
  Exists (fun p => type_ p = None) (tc_groupPermissions c) ->
  exists s',
    raises (build_constraint_data env (c_dict c) role_name claims_and_roles) s
           (KeyError "type") s'
    /\ puts s' = puts s.
Proof.
  intros Hc. unfold build_constraint_data.
  destruct (runs_new_uuid env s) as (s1 & H1 & E1).
  destruct (runs_read_clock env s1) as (now & s2 & H2 & E2).
  destruct (build_permissions_untyped env role_name _ Hc s2) as (s3 & H3 & E3).
  exists s3. split; [|congruence].
  eapply raises_bind_r; [exact H1|].
  eapply raises_bind_r; [exact H2|].
  eapply raises_bind_r; [apply runs_lift|].
  by apply raises_bind_l.
Qed.

Lemma runs_batch_write (env : Env) (items : list Item) (s : Store) :
  batch env (batches s) = BatchOk ->
  exists s', runs (batch_write env items) s tt s'.
Proof. intros H. eexists. exists []. unfold batch_write. by rewrite H. Qed.

Lemma create_constraint_typed (env : Env) (role_name : string)
    (claims_and_roles : Claims) (c : TemplateConstraintDefinition) (s : Store) :
  (forall n, batch env n = BatchOk) ->
  types_set c ->
  exists s',
    runs (create_constraint env role_name claims_and_roles (c_dict c)) s
         (uuid4 env (uuids s)) s'.
Proof.
  intros Hb Hc. unfold create_constraint.
  destruct (build_constraint_data_typed env role_name claims_and_roles c s Hc)
    as (cd & s1 & H1 & Eid).
  destruct (runs_read_clock env s1) as (now1 & s2 & H2 & _).
  destruct (runs_read_clock env s2) as (now2 & s3 & H3 & _).
  destruct (runs_batch_write env
              (_transform_to_denormalized_format now1 now2 cd) s3 (Hb _))
    as (s4 & H4).
  exists s4. rewrite <- Eid.
  eapply runs_bind; [exact H1|].
  eapply runs_bind; [apply runs_lift|].
  eapply runs_bind; [apply runs_log|].
  eapply runs_bind; [exact H2|].
  eapply runs_bind; [exact H3|].
  eapply runs_bind; [exact H4|].
  eapply runs_bind; [apply runs_log|].
  apply runs_ret.
Qed.

Lemma create_constraints_typed (env : Env) (role_name : string)
    (claims_and_roles : Claims) (cs : list TemplateConstraintDefinition) :
  (forall n, batch env n = BatchOk) ->
  Forall types_set cs ->
  forall s, exists ids s',
    runs (for_each (create_constraint env role_name claims_and_roles)
            (map c_dict cs)) s ids s'.
Proof.
  intros Hb. induction 1 as [|c cs Hc _ IH]; intros s.
  - exists [], s. apply runs_ret.
  - destruct (create_constraint_typed env role_name claims_and_roles c s Hb Hc)
      as (s1 & H1).
    destruct (IH s1) as (ids & s2 & H2).
    eexists _, s2. cbn [map for_each].
    eapply runs_bind; [exact H1|].
    eapply runs_bind; [exact H2|]. apply runs_ret.
Qed.

Lemma types_set_subst (vv : list (string * string)) (c : TemplateConstraintDefinition) :
  types_set c -> types_set (subst_constraint vv c).
Proof.
  unfold types_set. cbn [subst_constraint tc_groupPermissions].
  intros H. apply Forall_map. eapply Forall_impl; [exact H|].
  intros p [t Ht]. cbn. rewrite Ht. by eexists.
Qed.

Lemma persisted_puts (id : string) (s s' : Store) :
  puts s' = puts s -> persisted id s -> persisted id s'.
Proof. intros E (it & Hin & Hk). exists it. by rewrite E. Qed.

(** The orchestrator on a template whose permissions all set their type,
    with nothing left to substitute and a table that takes every batch *)
Lemma import_typed (env : Env) (td : ImportConstraintsTemplateRequestModel)
    (claims_and_roles : Claims) (s : Store) (role_name : string) :
  var_get "ROLE_NAME" (variableValues td) = Some role_name ->
  unreplaced_of td = ∅ ->
  Forall types_set (constraints td) ->
  (forall n, batch env n = BatchOk) ->
  exists body s',
    runs (import_template_constraints env td claims_and_roles) s body s'
    /\ success_ body = true
    /\ constraintsCreated body = length (constraints td)
    /\ length (constraintIds body) = length (constraints td)
    /\ Forall (fun id => persisted id s') (constraintIds body)
    /\ message body
       = "Successfully imported " +:+ pretty (length (constraints td))
         +:+ " constraints from template '" +:+ template_name_of td
         +:+ "' for role '" +:+ role_name +:+ "'".
Proof.
  intros Hr Hu Hty Hb.
  assert (Hty' : Forall types_set
                   (map (subst_constraint (variableValues td)) (constraints td))).
  { apply Forall_map. eapply Forall_impl; [exact Hty|].
    intros c Hc. by apply types_set_subst. }
  destruct (create_constraints_typed env role_name claims_and_roles _ Hb Hty' s)
    as (ids & s1 & Hrun).
  destruct (runs_read_clock env s1) as (now & s2 & Hclock & Eputs).
  assert (Hlen : length ids = length (constraints td)).
  { destruct Hrun as (l & Hrun). apply for_each_length in Hrun.
    by rewrite Hrun, !length_map. }
  assert (Hpers : Forall (fun id => persisted id s2) ids).
  { destruct Hrun as (l & Hrun). apply for_each_created_persisted in Hrun.
    eapply Forall_impl; [exact Hrun|]. intros id Hid. cbn beta.
    by apply (persisted_puts id s1 s2). }
  eexists _, s2. split.
  - unfold import_template_constraints. rewrite Hr.
    eapply runs_bind; [apply runs_lift|]. cbv beta.
    fold (unreplaced_of td). rewrite Hu.
    rewrite (bool_decide_eq_true_2 _ eq_refl). cbn [negb].
    destruct (runs_role_check env role_name s) as (b & Hcheck).
    eapply runs_bind; [exact Hcheck|].
    eapply runs_bind.
    { instantiate (1 := s). instantiate (1 := tt).
      destruct (negb b); [apply runs_log|apply runs_ret]. }
    unfold create_constraints. rewrite substitute_variables_c_dict.
    eapply runs_bind; [exact Hrun|].
    eapply runs_bind; [exact Hclock|]. apply runs_ret.
  - cbn [success_ constraintsCreated constraintIds message].
    rewrite Hlen. by repeat split.
Qed.

(** ** Items written and records logged by the loop *)

Lemma puts_unchanged {A : Type} (V : A -> Prop) (m : M A) (s s' : Store)
    (o : outcome A) (l : list log_record) :
  sat (fun _ => False) V m -> m s = (o, s', l) -> puts s' = puts s.
Proof.
  intros Hm H. destruct (Hm s) as [(new & E & Hnew) _].
  rewrite H in E. cbn [fst snd] in E.
  destruct new as [|it new]; [by rewrite app_nil_r in E|].
  by apply Forall_cons in Hnew as [[] _].
Qed.

Lemma written_later (id : string) (s s1 s' : Store) (new : list Item) :
  puts s' = puts s1 ++ new -> written id s s1 -> written id s s'.
Proof.
  intros E (new1 & it & E1 & Hin & Hk). exists (new1 ++ new), it.
  split; [by rewrite E, E1, app_assoc|]. split; [|exact Hk].
  apply elem_of_app. by left.
Qed.

Lemma written_earlier (id : string) (s s1 s' : Store) (new : list Item) :
  puts s1 = puts s ++ new -> written id s1 s' -> written id s s'.
Proof.
  intros E (new1 & it & E1 & Hin & Hk). exists (new ++ new1), it.
  split; [by rewrite E1, E, app_assoc|]. split; [|exact Hk].
  apply elem_of_app. by right.
Qed.

(** A constraint that was created has an item among those its run wrote. *)
Lemma create_constraint_written (env : Env) (role_name : string)
    (claims_and_roles : Claims) (constraint : dict) (s s' : Store)
    (id : string) (l : list log_record) :
  create_constraint env role_name claims_and_roles constraint s = (Return id, s', l) ->
  written id s s'.
Proof.
  unfold create_constraint. intros H.
  apply bind_Return in H as (cd & s1 & ? & ? & Hcd & H & _).
  apply (puts_unchanged _ _ _ _ _ _
           (sat_build_constraint_data (fun _ => False) env constraint role_name
              claims_and_roles)) in Hcd.
  apply bind_Return in H as (name_ & s2 & ? & ? & Hname & H & _).
  assert (s2 = s1) as -> by (unfold lift in Hname; by injection Hname).
  apply bind_Return in H as ([] & s3 & ? & ? & Hlog1 & H & _).
  injection Hlog1 as <- _.
  apply bind_Return in H as (now1 & s4 & ? & ? & Hc1 & H & _).
  injection Hc1 as _ <- _.
  apply bind_Return in H as (now2 & s5 & ? & ? & Hc2 & H & _).
  injection Hc2 as _ <- _.
  apply bind_Return in H as ([] & s6 & ? & ? & Hw & H & _).
  apply bind_Return in H as ([] & s7 & ? & ? & Hlog & H & _).
  injection H as <- <- _. injection Hlog as <- _.
  unfold batch_write in Hw. cbn [batches puts] in Hw.
  destruct (batch env (batches s1)); [|discriminate].
  injection Hw as <- _.
  pose proof (denormalize_not_nil now1 now2 cd) as Hne.
  destruct (_transform_to_denormalized_format now1 now2 cd) as [|it items] eqn:E;
    [done|].
  exists (it :: items), it. cbn [puts]. rewrite Hcd.
  split; [reflexivity|]. split; [by left|].
  apply (startswith_key _ _ now1 now2 cd); [reflexivity|]. rewrite E. by left.
Qed.

(** The constraints created by a run of the loop all have an item among
    those the run wrote. *)
Lemma for_each_created_written (env : Env) (role_name : string)
    (claims_and_roles : Claims) :
  forall (cs : list dict) (s s' : Store) (ids : list string) (l : list log_record),
    for_each (create_constraint env role_name claims_and_roles) cs s
    = (Return ids, s', l) ->
    (exists new, puts s' = puts s ++ new)
    /\ Forall (fun id => written id s s') ids.
Proof.
  induction cs as [|c cs IH]; intros s s' ids l H; cbn [for_each] in H.
  - injection H as <- <- _. split; [exists []; by rewrite app_nil_r|constructor].
  - apply bind_Return in H as (id & sx & lx & l' & Hx & Hrest & ->).
    apply bind_Return in Hrest as (ids' & s1 & l'' & l3 & Hcs & Hret & ->).
    injection Hret as <- <- <-.
    apply create_constraint_written in Hx.
    destruct (IH _ _ _ _ Hcs) as [[new E] Hids].
    destruct Hx as (newx & it & Ex & Hin & Hk).
    split; [exists (newx ++ new); by rewrite E, Ex, app_assoc|].
    constructor.
    + apply (written_later id s sx s1 new E). by exists newx, it.
    + eapply Forall_impl; [exact Hids|]. intros id' Hid'. cbn beta.
      by apply (written_earlier id' s sx s1 newx Ex).
Qed.

Lemma create_constraints_written (env : Env)
    (td : ImportConstraintsTemplateRequestModel) (role_name : string)
    (claims_and_roles : Claims) (cs : list dict) (s s' : Store)
    (body : ImportConstraintsTemplateResponseModel) (l : list log_record) :
  create_constraints env td role_name claims_and_roles cs s = (Return body, s', l) ->
  Forall (fun id => written id s s') (constraintIds body).
Proof.
  unfold create_constraints. intros H.
  apply bind_Return in H as (ids & s1 & ? & ? & Hids & H & _).
  apply bind_Return in H as (now & s2 & ? & ? & Hclock & H & _).
  injection H as <- <- _. injection Hclock as _ <- _. cbn [constraintIds].
  apply for_each_created_written in Hids as [_ Hids].
  eapply Forall_impl; [exact Hids|]. intros id (new & it & E & Hin & Hk).
  by exists new, it.
Qed.

Section LogRules.
Context {A B : Type} (lv : level).

Lemma logs_at_ret (a : A) : logs_at lv (ret a).
Proof. intros s. constructor. Qed.

Lemma logs_at_lift (o : outcome A) : logs_at lv (lift o).
Proof. intros s. constructor. Qed.

Lemma logs_at_bind (m : M A) (k : A -> M B) :
  logs_at lv m -> (forall a, logs_at lv (k a)) -> logs_at lv (bind m k).
Proof.
  intros Hm Hk s. unfold bind. specialize (Hm s).
  destruct (m s) as [[[a|e] s1] l1]; cbn [snd] in *; [|exact Hm].
  specialize (Hk a s1). destruct (k a s1) as [[o s2] l2]; cbn [snd] in *.
  by apply Forall_app.
Qed.

End LogRules.

Lemma logs_at_for_each {A B : Type} (lv : level) (body : A -> M B) (l : list A) :
  (forall x, logs_at lv (body x)) -> logs_at lv (for_each body l).
Proof.
  intros Hb. induction l as [|x l IH]; cbn [for_each].
  - apply logs_at_ret.
  - apply logs_at_bind; [apply Hb|]. intros y.
    apply logs_at_bind; [apply IH|]. intros ys. apply logs_at_ret.
Qed.

Lemma logs_at_new_uuid (lv : level) (env : Env) : logs_at lv (new_uuid env).
Proof. intros s. constructor. Qed.

Lemma logs_at_read_clock (lv : level) (env : Env) : logs_at lv (read_clock env).
Proof. intros s. constructor. Qed.

Lemma logs_at_log (lv : level) (msg : string) : logs_at lv (log lv msg).
Proof. intros s. by repeat constructor. Qed.

Lemma logs_at_batch_write (lv : level) (env : Env) (items : list Item) :
  logs_at lv (batch_write env items).
Proof.
  intros s. unfold batch_write. destruct (batch env (batches s)); constructor.
Qed.

(** The loop and the summary log nothing but information records. *)
Lemma logs_at_create_constraints (env : Env)
    (td : ImportConstraintsTemplateRequestModel) (role_name : string)
    (claims_and_roles : Claims) (cs : list dict) :
  logs_at INFO (create_constraints env td role_name claims_and_roles cs).
Proof.
  unfold create_constraints.
  apply logs_at_bind; [|intros ids; apply logs_at_bind;
                         [apply logs_at_read_clock|intros; apply logs_at_ret]].
  apply logs_at_for_each. intros c. unfold create_constraint.
  apply logs_at_bind.
  { unfold build_constraint_data.
    apply logs_at_bind; [apply logs_at_new_uuid|]. intros id.
    apply logs_at_bind; [apply logs_at_read_clock|]. intros now.
    apply logs_at_bind; [apply logs_at_lift|]. intros perms.
    apply logs_at_bind.
    { apply logs_at_for_each. intros perm. unfold build_group_permission.
      apply logs_at_bind; [apply logs_at_new_uuid|]. intros pid.
      apply logs_at_bind; [apply logs_at_lift|]. intros action_.
      apply logs_at_bind; [apply logs_at_lift|]. intros type_.
      apply logs_at_ret. }
    intros group_permissions.
    apply logs_at_bind; [apply logs_at_lift|]. intros name_.
    apply logs_at_bind; [apply logs_at_lift|]. intros description_.
    apply logs_at_bind; [apply logs_at_lift|]. intros objectType_.
    apply logs_at_ret. }
  intros cd.
  apply logs_at_bind; [apply logs_at_lift|]. intros name_.
  apply logs_at_bind; [apply logs_at_log|]. intros _.
  apply logs_at_bind; [apply logs_at_read_clock|]. intros now1.
  apply logs_at_bind; [apply logs_at_read_clock|]. intros now2.
  apply logs_at_bind; [apply logs_at_batch_write|]. intros _.
  apply logs_at_bind; [apply logs_at_log|]. intros _.
  apply logs_at_ret.
Qed.

(** The orchestrator when the registry does not know the role: the warning,
    then the loop and the summary from the same store. *)
Lemma import_role_missing (env : Env) (td : ImportConstraintsTemplateRequestModel)
    (claims_and_roles : Claims) (s : Store) (role_name : string)
    (get_item : string -> get_item_result) :
  roles_table env = Some get_item ->
  get_item role_name = ItemMissing ->
  var_get "ROLE_NAME" (variableValues td) = Some role_name ->
  unreplaced_of td = ∅ ->
  import_template_constraints env td claims_and_roles s
  = let r := create_constraints env td role_name claims_and_roles
               (substitute_variables (map c_dict (constraints td))
                  (variableValues td)) s in
    (r.1.1, r.1.2, (WARNING, role_missing_message role_name) :: r.2).
Proof.
  intros H Hm Hr Hu.
  unfold import_template_constraints, bind, lift. rewrite Hr.
  fold (unreplaced_of td). rewrite Hu.
  rewrite (bool_decide_eq_true_2 _ eq_refl). cbn [negb].
  unfold validate_constraint_role_exists. rewrite H, Hm.
  cbn [ret negb log].
  by destruct (create_constraints env td role_name claims_and_roles _ s)
    as [[o s'] l0].
Qed.

(** C8.  The role check always returns, changes nothing in the store and
    logs nothing but warnings; it returns true with a warning when the
    registry is not configured and when the lookup raises.  When the lookup
    finds nothing, the orchestrator ends as it does with a registry that
    knows the role, same outcome and same store, with the warning about the
    missing role as its first log record.  It then still writes every
    constraint: on a template with nothing left to substitute and the type
    of every permission set, with a table that takes every batch, it returns
    the summary of a successful import, with one identifier per constraint
    of the template and, for each identifier, an item among those the run
    added to the table; the warning is its only log record above the
    information level. *)
Theorem role_check_never_blocks (env : Env) (group_id : string) (s : Store) :
  (exists (b : bool) (l : list log_record),
      validate_constraint_role_exists env group_id s = (Return b, s, l)
      /\ Forall (fun r => r.1 = WARNING) l)
  /\ (roles_table env = None ->
      validate_constraint_role_exists env group_id s
      = (Return true, s,
         [(WARNING, "Roles table not configured, skipping role validation for "
                    +:+ group_id)]))
  /\ (forall (get_item : string -> get_item_result) (e : string),
        roles_table env = Some get_item ->
        get_item group_id = GetItemRaises e ->
        validate_constraint_role_exists env group_id s
        = (Return true, s,
           [(WARNING, "Could not validate groupId '" +:+ group_id +:+ "': " +:+ e)]))
  /\ (forall (get_item : string -> get_item_result)
             (td : ImportConstraintsTemplateRequestModel)
             (claims_and_roles : Claims),
        roles_table env = Some get_item ->
        get_item group_id = ItemMissing ->
        var_get "ROLE_NAME" (variableValues td) = Some group_id ->
        unreplaced_of td = ∅ ->
        exists (o : outcome ImportConstraintsTemplateResponseModel)
               (s' : Store) (l : list log_record),
          import_template_constraints
            (with_roles_table env (Some (fun _ => ItemFound)))
            td claims_and_roles s = (o, s', l)
          /\ import_template_constraints env td claims_and_roles s
             = (o, s', (WARNING, role_missing_message group_id) :: l))
  /\ (forall (get_item : string -> get_item_result)
             (td : ImportConstraintsTemplateRequestModel)
             (claims_and_roles : Claims),
        roles_table env = Some get_item ->
        get_item group_id = ItemMissing ->
        var_get "ROLE_NAME" (variableValues td) = Some group_id ->
        unreplaced_of td = ∅ ->
        Forall types_set (constraints td) ->
        (forall n, batch env n = BatchOk) ->
        exists (body : ImportConstraintsTemplateResponseModel)
               (s' : Store) (l : list log_record),
          import_template_constraints env td claims_and_roles s
          = (Return body, s', (WARNING, role_missing_message group_id) :: l)
          /\ Forall (fun r => r.1 = INFO) l
          /\ success_ body = true
          /\ constraintsCreated body = length (constraints td)
          /\ length (constraintIds body) = length (constraints td)
          /\ Forall (fun id => written id s s') (constraintIds body)
          /\ message body
             = "Successfully imported " +:+ pretty (length (constraints td))
               +:+ " constraints from template '" +:+ template_name_of td
               +:+ "' for role '" +:+ group_id +:+ "'").
Proof.
  split; [|split; [|split; [|split]]].
  - unfold validate_constraint_role_exists.
    destruct (roles_table env) as [get_item|].
    + destruct (get_item group_id); eexists _, _;
        (split; [reflexivity|repeat constructor]).
    + eexists _, _. split; [reflexivity|repeat constructor].
  - intros H. unfold validate_constraint_role_exists. by rewrite H.
  - intros get_item e H He. unfold validate_constraint_role_exists.
    by rewrite H, He.
  - intros get_item td claims_and_roles H Hm Hr Hu.
    unfold import_template_constraints, bind, lift. rewrite Hr.
    fold (unreplaced_of td). rewrite Hu.
    rewrite (bool_decide_eq_true_2 _ eq_refl). cbn [negb].
    unfold validate_constraint_role_exists. rewrite H, Hm.
    cbn [roles_table with_roles_table ret negb log].
    change (create_constraints (with_roles_table env (Some (fun _ => ItemFound))))
      with (create_constraints env).
    destruct (create_constraints env td group_id claims_and_roles _ s)
      as [[o s'] l0].
    exists o, s', l0. split; reflexivity.
  - intros get_item td claims_and_roles H Hm Hr Hu Hty Hb.
    destruct (import_typed env td claims_and_roles s group_id Hr Hu Hty Hb)
      as (body & s' & (l & Hrun) & Hs & Hn & Hlen & _ & Hmsg).
    rewrite (import_role_missing env td claims_and_roles s group_id get_item
               H Hm Hr Hu) in Hrun.
    pose proof (logs_at_create_constraints env td group_id claims_and_roles
                  (substitute_variables (map c_dict (constraints td))
                     (variableValues td)) s) as Hlog.
    destruct (create_constraints env td group_id claims_and_roles _ s)
      as [[o s1] l0] eqn:Hcc.
    cbn [fst snd] in Hrun, Hlog. injection Hrun as -> -> <-.
    exists body, s', l0.
    rewrite (import_role_missing env td claims_and_roles s group_id get_item
               H Hm Hr Hu), Hcc. cbn [fst snd].
    split; [reflexivity|]. split; [exact Hlog|].
    split; [exact Hs|]. split; [exact Hn|]. split; [exact Hlen|].
    split; [|exact Hmsg].
    by apply create_constraints_written in Hcc.
Qed.

Lemma role_check_never_blocks_witness :
  exists (body : ImportConstraintsTemplateResponseModel)
         (s' : Store) (l : list log_record),
    import_template_constraints
      (example_env (Some (fun _ => ItemMissing)) (fun _ => false))
      db_admin_template example_claims initial_store
    = (Return body, s', (WARNING, role_missing_message "db-admin") :: l)
    /\ Forall (fun r => r.1 = INFO) l
    /\ success_ body = true
    /\ constraintsCreated body = length (constraints db_admin_template)
    /\ length (constraintIds body) = length (constraints db_admin_template)
    /\ Forall (fun id => written id initial_store s') (constraintIds body)
    /\ message body
       = "Successfully imported " +:+ pretty (length (constraints db_admin_template))
         +:+ " constraints from template '" +:+ template_name_of db_admin_template
         +:+ "' for role '" +:+ "db-admin" +:+ "'".
Proof.
  pose proof (role_check_never_blocks
                (example_env (Some (fun _ => ItemMissing)) (fun _ => false))
                "db-admin" initial_store) as (_ & _ & _ & _ & H).
  apply (H (fun _ => ItemMissing) db_admin_template example_claims).
  - reflexivity.
  - reflexivity.
  - reflexivity.
  - apply db_admin_template_complete.
  - repeat constructor; by eexists.
  - reflexivity.
Defined.

(** X9.  An authorized POST of a template that passes validation, has no
    placeholder left after substitution and sets the type of every
    permission succeeds when the table takes every batch: the summary counts
    one constraint per constraint of the template, lists as many
    identifiers, each with an item in the table, and its message names the
    template and the role. *)
Theorem valid_import_succeeds (env : Env) (voc : Vocabulary)
    (claims_and_roles : Claims)
    (values td : ImportConstraintsTemplateRequestModel) (s : Store) :
  parse voc values = Return td ->
  tokens claims_and_roles <> [] ->
  unreplaced_of td = ∅ ->
  Forall types_set (constraints td) ->
  (forall n, batch env n = BatchOk) ->
  exists (body : ImportConstraintsTemplateResponseModel) (s' : Store)
         (l : list log_record) (role_name : string),
    lambda_handler env voc claims_and_roles true "POST" (BodyFields values) s
    = (success body, s', l)
    /\ var_get "ROLE_NAME" (variableValues td) = Some role_name
    /\ success_ body = true
    /\ constraintsCreated body = length (constraints td)
    /\ length (constraintIds body) = length (constraints td)
    /\ Forall (fun id => persisted id s') (constraintIds body)
    /\ message body
       = "Successfully imported " +:+ pretty (length (constraints td))
         +:+ " constraints from template '" +:+ template_name_of td
         +:+ "' for role '" +:+ role_name +:+ "'".
Proof.
  intros Hparse Htok Hu Hty Hb.
  destruct (validated_has_role_name _ _ _ Hparse) as (r & _ & Hr).
  destruct (import_typed env td claims_and_roles s r Hr Hu Hty Hb)
    as (body & s' & (l & Hrun) & Hrest).
  eexists body, s', _, r. split; [|split; [exact Hr|exact Hrest]].
  unfold lambda_handler. rewrite Hparse, Hrun.
  destruct (tokens claims_and_roles); [done|]. reflexivity.
Qed.

Lemma valid_import_succeeds_witness :
  exists (body : ImportConstraintsTemplateResponseModel) (s' : Store)
         (l : list log_record) (role_name : string),
    lambda_handler (example_env None (fun _ => false)) example_vocabulary
      example_claims true "POST" (BodyFields two_constraint_template)
      initial_store
    = (success body, s', l)
    /\ var_get "ROLE_NAME" (variableValues two_constraint_template)
       = Some role_name
    /\ success_ body = true
    /\ constraintsCreated body = length (constraints two_constraint_template)
    /\ length (constraintIds body) = length (constraints two_constraint_template)
    /\ Forall (fun id => persisted id s') (constraintIds body)
    /\ message body
       = "Successfully imported "
         +:+ pretty (length (constraints two_constraint_template))
         +:+ " constraints from template '"
         +:+ template_name_of two_constraint_template
         +:+ "' for role '" +:+ role_name +:+ "'".
Proof.
  apply (valid_import_succeeds (example_env None (fun _ => false))
           example_vocabulary example_claims
           two_constraint_template two_constraint_template initial_store).
  - reflexivity.
  - discriminate.
  - vm_compute. reflexivity.
  - repeat constructor; by eexists.
  - reflexivity.
Defined.

(** The orchestrator on a template whose first constraint leaves the type
    of a permission unset *)
Lemma import_untyped (env : Env) (td : ImportConstraintsTemplateRequestModel)
    (claims_and_roles : Claims) (s : Store) (role_name : string)
    (c : TemplateConstraintDefinition) (rest : list TemplateConstraintDefinition) :
  var_get "ROLE_NAME" (variableValues td) = Some role_name ->
  unreplaced_of td = ∅ ->
  constraints td = c :: rest ->
  Exists (fun p => type_ p = None) (tc_groupPermissions c) ->
  exists s',
    raises (import_template_constraints env td claims_and_roles) s
           (KeyError "type") s'
    /\ puts s' = puts s.
Proof.
  intros Hr Hu Hcs Hex.
  assert (Hex' : Exists (fun p => type_ p = None)
                   (tc_groupPermissions (subst_constraint (variableValues td) c))).
  { cbn [subst_constraint tc_groupPermissions]. apply Exists_exists.
    apply Exists_exists in Hex as (p & Hp & Ht).
    exists (subst_permission (variableValues td) p). split.
    - apply list_elem_of_fmap. by exists p.
    - cbn. by rewrite Ht. }
  destruct (build_constraint_data_untyped env role_name claims_and_roles _ s Hex')
    as (s1 & Hraise & E1).
  exists s1. split; [|exact E1].
  unfold import_template_constraints. rewrite Hr.
  eapply raises_bind_r; [apply runs_lift|]. cbv beta.
  fold (unreplaced_of td). rewrite Hu.
  rewrite (bool_decide_eq_true_2 _ eq_refl). cbn [negb].
  destruct (runs_role_check env role_name s) as (b & Hcheck).
  eapply raises_bind_r; [exact Hcheck|].
  eapply raises_bind_r.
  { instantiate (1 := s). instantiate (1 := tt).
    destruct (negb b); [apply runs_log|apply runs_ret]. }
  unfold create_constraints. rewrite substitute_variables_c_dict, Hcs.
  cbn [map for_each]. apply raises_bind_l, raises_bind_l.
  unfold create_constraint. by apply raises_bind_l.
Qed.

(** X10.  A permission that leaves ["type"] unset passes validation with
    the default ["allow"], but the dictionary made with [exclude_unset=True]
    has no ["type"] key: when the first constraint of an otherwise valid
    template has such a permission the lookup [perm['type']] raises a
    KeyError, the handler answers with the internal error, and no item is
    put into the table. *)
Theorem unset_permission_type_is_an_internal_error (env : Env) (voc : Vocabulary)
    (claims_and_roles : Claims)
    (values td : ImportConstraintsTemplateRequestModel) (s : Store)
    (c : TemplateConstraintDefinition) (rest : list TemplateConstraintDefinition) :
  parse voc values = Return td ->
  tokens claims_and_roles <> [] ->
  unreplaced_of td = ∅ ->
  constraints td = c :: rest ->
  Exists (fun p => type_ p = None) (tc_groupPermissions c) ->
  exists (s' : Store) (l : list log_record),
    import_template_constraints env td claims_and_roles s
    = (Raise (KeyError "type"), s', l)
    /\ lambda_handler env voc claims_and_roles true "POST" (BodyFields values) s
       = (internal_error, s', l ++ [(ERROR, "Internal error: 'type'")])
    /\ puts s' = puts s.
Proof.
  intros Hparse Htok Hu Hcs Hex.
  destruct (validated_has_role_name _ _ _ Hparse) as (r & _ & Hr).
  destruct (import_untyped env td claims_and_roles s r c rest Hr Hu Hcs Hex)
    as (s' & (l & Hraise) & E).
  exists s', l. split; [exact Hraise|]. split; [|exact E].
  unfold lambda_handler. rewrite Hparse, Hraise.
  destruct (tokens claims_and_roles); [done|]. reflexivity.
Qed.

Lemma unset_permission_type_is_an_internal_error_witness :
  exists (s' : Store) (l : list log_record),
    import_template_constraints (example_env None (fun _ => false))
      untyped_permission_template example_claims initial_store
    = (Raise (KeyError "type"), s', l)
    /\ lambda_handler (example_env None (fun _ => false)) example_vocabulary
         example_claims true "POST" (BodyFields untyped_permission_template)
         initial_store
       = (internal_error, s', l ++ [(ERROR, "Internal error: 'type'")])
    /\ puts s' = puts initial_store.
Proof.
  eapply (unset_permission_type_is_an_internal_error
            (example_env None (fun _ => false)) example_vocabulary example_claims
            untyped_permission_template untyped_permission_template
            initial_store).
  - reflexivity.
  - discriminate.
  - vm_compute. reflexivity.
  - reflexivity.
  - by left.
Defined.

(** ** The identifiers a run draws *)

Lemma lift_Return {A : Type} (o : outcome A) (s s' : Store) (a : A)
    (l : list log_record) :
  lift o s = (Return a, s', l) -> o = Return a /\ s' = s.
Proof. unfold lift. by intros [= -> ->]. Qed.

Lemma build_group_permission_uuids (env : Env) (role_name : string) (perm : value)
    (s s' : Store) (gp : GroupPermission) (l : list log_record) :
  build_group_permission env role_name perm s = (Return gp, s', l) ->
  uuids s <= uuids s'.
Proof.
  unfold build_group_permission. intros H.
  apply bind_Return in H as (id & s1 & ? & ? & Hid & H & _).
  apply bind_Return in H as (a & s2 & ? & ? & Ha & H & _).
  apply bind_Return in H as (t & s3 & ? & ? & Ht & H & _).
  apply lift_Return in Ha as [_ ->]. apply lift_Return in Ht as [_ ->].
  injection H as _ <- _. injection Hid as _ <- _. cbn. lia.
Qed.

Lemma for_each_uuids {A B : Type} (body : A -> M B) :
  (forall x s s' y l, body x s = (Return y, s', l) -> uuids s <= uuids s') ->
  forall xs s s' ys l,
    for_each body xs s = (Return ys, s', l) -> uuids s <= uuids s'.
Proof.
  intros Hb. induction xs as [|x xs IH]; intros s s' ys l H; cbn [for_each] in H.
  - injection H as _ <- _. lia.
  - apply bind_Return in H as (y & s1 & ? & ? & Hx & H & _).
    apply bind_Return in H as (ys' & s2 & ? & ? & Hxs & H & _).
    injection H as _ <- _. apply Hb in Hx. apply IH in Hxs. lia.
Qed.

Lemma build_constraint_data_uuids (env : Env) (constraint : dict)
    (role_name : string) (claims_and_roles : Claims) (s s' : Store)
    (cd : ConstraintData) (l : list log_record) :
  build_constraint_data env constraint role_name claims_and_roles s
  = (Return cd, s', l) ->
  identifier cd = uuid4 env (uuids s) /\ uuids s < uuids s'.
Proof.
  unfold build_constraint_data. intros H.
  apply bind_Return in H as (id & s1 & ? & ? & Hid & H & _).
  apply bind_Return in H as (now & s2 & ? & ? & Hnow & H & _).
  apply bind_Return in H as (perms & s3 & ? & ? & Hit & H & _).
  apply bind_Return in H as (gps & s4 & ? & ? & Hgps & H & _).
  apply bind_Return in H as (n & s5 & ? & ? & Hn & H & _).
  apply bind_Return in H as (d & s6 & ? & ? & Hd & H & _).
  apply bind_Return in H as (o & s7 & ? & ? & Ho & H & _).
  apply lift_Return in Hit as [_ ->]. apply lift_Return in Hn as [_ ->].
  apply lift_Return in Hd as [_ ->]. apply lift_Return in Ho as [_ ->].
  injection H as <- <- _. injection Hid as <- <- _. injection Hnow as _ <- _.
  apply (for_each_uuids _ (build_group_permission_uuids env role_name)) in Hgps.
  cbn in Hgps |- *. split; [reflexivity|lia].
Qed.

Lemma create_constraint_uuids (env : Env) (role_name : string)
    (claims_and_roles : Claims) (constraint : dict) (s s' : Store)
    (id : string) (l : list log_record) :
  create_constraint env role_name claims_and_roles constraint s = (Return id, s', l) ->
  id = uuid4 env (uuids s) /\ uuids s < uuids s'.
Proof.
  unfold create_constraint. intros H.
  apply bind_Return in H as (cd & s1 & ? & ? & Hcd & H & _).
  apply bind_Return in H as (name_ & s2 & ? & ? & Hn & H & _).
  apply bind_Return in H as ([] & s3 & ? & ? & Hl1 & H & _).
  apply bind_Return in H as (now1 & s4 & ? & ? & Hc1 & H & _).
  apply bind_Return in H as (now2 & s5 & ? & ? & Hc2 & H & _).
  apply bind_Return in H as ([] & s6 & ? & ? & Hw & H & _).
  apply bind_Return in H as ([] & s7 & ? & ? & Hl2 & H & _).
  apply build_constraint_data_uuids in Hcd as [Hid Hlt].
  apply lift_Return in Hn as [_ ->].
  injection H as <- <- _. injection Hl2 as <- _. injection Hl1 as <- _.
  injection Hc1 as _ <- _. injection Hc2 as _ <- _.
  unfold batch_write in Hw. destruct (batch env _); [|discriminate].
  injection Hw as <- _. cbn. split; [exact Hid|exact Hlt].
Qed.

(** The identifiers of a run of the loop are drawn at increasing positions
    of the identifier source, all within the part the run consumed. *)
Lemma for_each_create_ids (env : Env) (role_name : string)
    (claims_and_roles : Claims) :
  forall (cs : list dict) (s s' : Store) (ids : list string) (l : list log_record),
    for_each (create_constraint env role_name claims_and_roles) cs s
    = (Return ids, s', l) ->
    uuids s <= uuids s'
    /\ exists idxs : list nat,
         ids = map (uuid4 env) idxs
         /\ NoDup idxs
         /\ Forall (fun i => uuids s <= i < uuids s') idxs.
Proof.
  induction cs as [|c cs IH]; intros s s' ids l H; cbn [for_each] in H.
  - injection H as <- <- _. split; [lia|]. exists []. repeat constructor.
  - apply bind_Return in H as (id & s1 & ? & ? & Hc & H & _).
    apply bind_Return in H as (ids' & s2 & ? & ? & Hcs & H & _).
    injection H as <- <- _.
    apply create_constraint_uuids in Hc as [-> Hlt].
    apply IH in Hcs as (Hle & idxs & -> & Hnd & Hall).
    split; [lia|]. exists (uuids s :: idxs). split; [reflexivity|]. split.
    + constructor; [|exact Hnd]. intros Hin.
      rewrite Forall_forall in Hall. apply Hall in Hin. lia.
    + constructor; [lia|]. eapply Forall_impl; [exact Hall|].
      intros i Hi. cbn beta in *. lia.
Qed.

Lemma import_ids (env : Env) (td : ImportConstraintsTemplateRequestModel)
    (claims_and_roles : Claims) (s s' : Store)
    (body : ImportConstraintsTemplateResponseModel) (l : list log_record) :
  import_template_constraints env td claims_and_roles s = (Return body, s', l) ->
  uuids s <= uuids s'
  /\ constraintsCreated body = length (constraintIds body)
  /\ exists idxs : list nat,
       constraintIds body = map (uuid4 env) idxs
       /\ NoDup idxs
       /\ Forall (fun i => uuids s <= i < uuids s') idxs.
Proof.
  unfold import_template_constraints. intros H.
  apply bind_Return in H as (r & s1 & ? & ? & Hr & H & _).
  apply lift_Return in Hr as [_ ->].
  destruct (negb _) in H; [discriminate|].
  apply bind_Return in H as (b & s2 & ? & ? & Hb & H & _).
  destruct (role_check_store env r s) as (b' & lw & Hw).
  rewrite Hw in Hb. injection Hb as _ <- _.
  apply bind_Return in H as ([] & s3 & ? & ? & Hwarn & H & _).
  assert (s3 = s) as ->.
  { destruct (negb b); by injection Hwarn as <- _. }
  unfold create_constraints in H.
  apply bind_Return in H as (ids & s4 & ? & ? & Hids & H & _).
  apply bind_Return in H as (now & s5 & ? & ? & Hnow & H & _).
  injection H as <- <- _. injection Hnow as _ <- _.
  apply for_each_create_ids in Hids as (Hle & idxs & -> & Hnd & Hall).
  cbn. split; [exact Hle|]. split; [reflexivity|].
  exists idxs. by repeat split.
Qed.

(** X11.  Every constraint identifier is a fresh draw: when the identifier
    source never repeats, the identifiers in the summary of an import are
    pairwise distinct, and so are those of two imports run one after the
    other, whether or not they import the same template. *)
Theorem imports_never_reuse_identifiers (env : Env)
    (td td' : ImportConstraintsTemplateRequestModel)
    (claims_and_roles claims_and_roles' : Claims) (s s1 s2 : Store)
    (body body' : ImportConstraintsTemplateResponseModel)
    (l l' : list log_record) :
  Inj (=) (=) (uuid4 env) ->
  import_template_constraints env td claims_and_roles s = (Return body, s1, l) ->
  import_template_constraints env td' claims_and_roles' s1 = (Return body', s2, l') ->
  NoDup (constraintIds body ++ constraintIds body').
Proof.
  intros Hinj H1 H2.
  apply import_ids in H1 as (_ & _ & idxs & -> & Hnd & Hall).
  apply import_ids in H2 as (_ & _ & idxs' & -> & Hnd' & Hall').
  rewrite <- map_app. apply (NoDup_fmap_2 (uuid4 env)).
  apply NoDup_app. split; [exact Hnd|]. split; [|exact Hnd'].
  intros i Hi Hi'. rewrite Forall_forall in Hall, Hall'.
  apply Hall in Hi. apply Hall' in Hi'. lia.
Qed.

Lemma example_uuid4_inj (registry : option (string -> get_item_result))
    (fails : nat -> bool) :
  Inj (=) (=) (uuid4 (example_env registry fails)).
Proof.
  intros n m H. cbn [uuid4 example_env] in H.
  by apply (inj (String.app "id")), (inj pretty) in H.
Qed.

Lemma imports_never_reuse_identifiers_witness :
  exists body body' : ImportConstraintsTemplateResponseModel,
    NoDup (constraintIds body ++ constraintIds body')
    /\ constraintIds body = ["id0"] /\ constraintIds body' = ["id2"].
Proof.
  eexists _, _. split.
  - eapply (imports_never_reuse_identifiers
              (example_env None (fun _ => false))
              db_admin_template db_admin_template example_claims example_claims
              initial_store).
    + apply example_uuid4_inj.
    + vm_compute. reflexivity.
    + vm_compute. reflexivity.
  - split; reflexivity.
Defined.

(** * Further properties of the denormalizer *)

Lemma first_occurrences_nil (l : list string) :
  first_occurrences ∅ l = [] <-> (list_to_set l : gset string) = ∅.
Proof.
  split.
  - intros H. apply set_eq. intros x.
    rewrite elem_of_list_to_set.
    assert (Hx : x ∈ first_occurrences ∅ l <-> x ∈ l).
    { rewrite elem_of_first_occurrences.
      pose proof (not_elem_of_empty (C := gset string) x). tauto. }
    rewrite <- Hx, H. set_solver.
  - intros H. destruct (first_occurrences ∅ l) as [|x l'] eqn:E; [reflexivity|].
    assert (Hx : x ∈ first_occurrences ∅ l) by (rewrite E; by left).
    apply elem_of_first_occurrences in Hx as [Hx _].
    assert (Hs : x ∈ (list_to_set l : gset string))
      by by apply elem_of_list_to_set.
    rewrite H in Hs. by apply not_elem_of_empty in Hs.
Qed.

Lemma elem_of_first_occurrences_empty (l : list string) (x : string) :
  x ∈ first_occurrences ∅ l <-> x ∈ (list_to_set l : gset string).
Proof.
  rewrite elem_of_first_occurrences, elem_of_list_to_set.
  pose proof (not_elem_of_empty (C := gset string) x). tauto.
Qed.

(** The partition keys of the items of a constraint, by its grantee sets *)
Lemma elem_of_denormalize_keys (now1 now2 : string) (cd : ConstraintData)
    (k : string) :
  k ∈ keys (_transform_to_denormalized_format now1 now2 cd)
  <-> (exists g, g ∈ group_grantees cd /\ k = group_key (identifier cd) g)
      \/ (exists u, u ∈ user_grantees cd /\ k = user_key (identifier cd) u)
      \/ (k = identifier cd /\ group_grantees cd = ∅ /\ user_grantees cd = ∅).
Proof.
  rewrite denormalize_keys. unfold group_grantees, user_grantees.
  set (gids := grantee_ids (map groupId (get_default (groupPermissions cd) []))).
  set (uids := grantee_ids (map userId (get_default (userPermissions cd) []))).
  destruct (first_occurrences ∅ gids ++ first_occurrences ∅ uids) as [|x l] eqn:E.
  - apply app_eq_nil in E as [Eg Eu].
    apply first_occurrences_nil in Eg. apply first_occurrences_nil in Eu.
    rewrite Eg, Eu, list_elem_of_singleton. split.
    + intros ->. right. right. auto.
    + intros [(g & Hg & _)|[(u & Hu & _)|(-> & _)]];
        [by apply not_elem_of_empty in Hg|by apply not_elem_of_empty in Hu|done].
  - rewrite elem_of_app, !list_elem_of_fmap. split.
    + intros [(g & -> & Hg)|(u & -> & Hu)].
      * left. exists g. by rewrite <- elem_of_first_occurrences_empty.
      * right. left. exists u. by rewrite <- elem_of_first_occurrences_empty.
    + intros [(g & Hg & ->)|[(u & Hu & ->)|(-> & Eg & Eu)]].
      * left. exists g. by rewrite elem_of_first_occurrences_empty.
      * right. exists u. by rewrite elem_of_first_occurrences_empty.
      * apply first_occurrences_nil in Eg. apply first_occurrences_nil in Eu.
        fold gids uids in Eg, Eu. rewrite Eg, Eu in E. discriminate E.
Qed.

(** X12.  The partition keys of the items of a constraint depend only on
    its identifier and on the sets of its non-empty group ids and user ids:
    two constraints that agree on these get the same keys, each once,
    whatever the order and number of their permission entries, their other
    fields and the time of the call. *)
Theorem keys_depend_only_on_grantee_sets (now1 now2 now1' now2' : string)
    (cd cd' : ConstraintData) :
  identifier cd = identifier cd' ->
  group_grantees cd = group_grantees cd' ->
  user_grantees cd = user_grantees cd' ->
  keys (_transform_to_denormalized_format now1 now2 cd)
  ≡ₚ keys (_transform_to_denormalized_format now1' now2' cd').
Proof.
  intros Hid Hg Hu. apply list.NoDup_Permutation.
  - apply denormalize_keys_NoDup.
  - apply denormalize_keys_NoDup.
  - intros k. rewrite !elem_of_denormalize_keys. by rewrite Hid, Hg, Hu.
Qed.

Lemma keys_depend_only_on_grantee_sets_witness :
  keys (_transform_to_denormalized_format "t1" "t2"
          (constraint_of_grantees "c1" [Some "A"; Some "A"; Some "B"] [Some "U"]))
  ≡ₚ keys (_transform_to_denormalized_format "t3" "t4"
             (constraint_of_grantees "c1" [Some "B"; None; Some "A"]
                [Some "U"; Some ""; Some "U"])).
Proof.
  apply keys_depend_only_on_grantee_sets.
  - reflexivity.
  - apply set_eq. intros x. unfold group_grantees. cbn.
    rewrite !elem_of_union, !elem_of_singleton. set_solver.
  - apply set_eq. intros x. unfold user_grantees. cbn.
    rewrite !elem_of_union, !elem_of_singleton. set_solver.
Defined.

(** ** Which exceptions the orchestrator raises *)

Lemma raises_only_ret {A : Type} (E : exn -> Prop) (a : A) : raises_only E (ret a).
Proof. by intros s. Qed.

Lemma raises_only_bind {A B : Type} (E : exn -> Prop) (m : M A) (k : A -> M B) :
  raises_only E m -> (forall a, raises_only E (k a)) -> raises_only E (bind m k).
Proof.
  intros Hm Hk s. unfold bind. specialize (Hm s).
  destruct (m s) as [[[a|e] s1] l1]; cbn [fst snd] in *; [|exact Hm].
  specialize (Hk a s1). by destruct (k a s1) as [[o s2] l2].
Qed.

Lemma raises_only_for_each {A B : Type} (E : exn -> Prop) (body : A -> M B)
    (l : list A) :
  (forall x, raises_only E (body x)) -> raises_only E (for_each body l).
Proof.
  intros Hb. induction l as [|x l IH]; cbn [for_each]; [apply raises_only_ret|].
  apply raises_only_bind; [apply Hb|]. intros y.
  apply raises_only_bind; [apply IH|]. intros ys. apply raises_only_ret.
Qed.

Lemma raises_only_lift {A : Type} (E : exn -> Prop) (o : outcome A) :
  match o with Raise e => E e | Return _ => True end -> raises_only E (lift o).
Proof. intros H s. exact H. Qed.

Lemma subscript_not_general (v : value) (key : string) :
  match subscript v key with Raise e => not_general e | Return _ => True end.
Proof. destruct v as [| | | | |d]; cbn; try exact I. by destruct (dict_get key d). Qed.

Lemma py_iter_not_general (v : value) :
  match py_iter v with Raise e => not_general e | Return _ => True end.
Proof. by destruct v. Qed.

Lemma create_constraint_not_general (env : Env) (role_name : string)
    (claims_and_roles : Claims) (constraint : dict) :
  raises_only not_general
    (create_constraint env role_name claims_and_roles constraint).
Proof.
  unfold create_constraint, build_constraint_data, build_group_permission.
  repeat first
    [ apply raises_only_ret
    | apply raises_only_lift; first [apply subscript_not_general
                                    |apply py_iter_not_general]
    | apply raises_only_for_each; intros ?
    | apply raises_only_bind; [|intros ?] ];
    try (by intros s);
    try (intros s; unfold batch_write; by destruct (batch env (batches s))).
Qed.

(** The orchestrator raises the general error only from the check of the
    scan result. *)
Lemma import_general_error (env : Env) (td : ImportConstraintsTemplateRequestModel)
    (claims_and_roles : Claims) (s s' : Store) (m : string) (l : list log_record) :
  import_template_constraints env td claims_and_roles s
  = (Raise (VAMSGeneralErrorResponse m), s', l) ->
  unreplaced_of td <> ∅ /\ m = unreplaced_message (unreplaced_of td) /\ s' = s.
Proof.
  destruct (var_get "ROLE_NAME" (variableValues td)) as [r|] eqn:Hr;
    [|by rewrite import_without_role_name].
  destruct (decide (unreplaced_of td = ∅)) as [Hu|Hu].
  - intros H. exfalso.
    assert (Hno : raises_only not_general
                    (import_template_constraints env td claims_and_roles)).
    { unfold import_template_constraints. rewrite Hr.
      apply raises_only_bind; [by intros ?|]. intros r'.
      fold (unreplaced_of td). rewrite Hu.
      rewrite (bool_decide_eq_true_2 _ eq_refl). cbn [negb].
      apply raises_only_bind.
      { intros s0. destruct (role_check_store env r' s0) as (b & lw & ->).
        exact I. }
      intros b. apply raises_only_bind;
        [destruct (negb b); by intros ?|]. intros _.
      unfold create_constraints.
      apply raises_only_bind;
        [apply raises_only_for_each, create_constraint_not_general|].
      intros ids. apply raises_only_bind; [by intros ?|]. intros now.
      apply raises_only_ret. }
    specialize (Hno s). by rewrite H in Hno.
  - rewrite (import_unreplaced env td claims_and_roles s r Hr Hu).
    intros [= <- <- _]. auto.
Qed.

(** X13.  The handler answers with a general error only when an authorized
    POST of a template that passes validation leaves placeholders after
    substitution: the message is then the list of the unresolved names, and
    the store is as it was.  Storage failures and missing keys never come
    out as a general error. *)
Theorem general_error_means_unresolved_variables (env : Env) (voc : Vocabulary)
    (claims_and_roles : Claims) (enforced : bool) (method : string)
    (body : request_body) (s s' : Store) (m : string) (l : list log_record) :
  lambda_handler env voc claims_and_roles enforced method body s
  = (general_error m, s', l) ->
  tokens claims_and_roles <> [] /\ enforced = true /\ method = "POST"
  /\ exists values td : ImportConstraintsTemplateRequestModel,
       body = BodyFields values
       /\ validate_template_import voc values = Return td
       /\ unreplaced_of td <> ∅
       /\ m = unreplaced_message (unreplaced_of td)
       /\ s' = s.
Proof.
  unfold lambda_handler.
  destruct (tokens claims_and_roles) as [|t ts]; [discriminate|].
  destruct enforced; [|discriminate].
  cbn [length Nat.eqb negb andb].
  destruct (String.eqb_spec method "POST") as [->|Hm]; cbn [negb]; [|discriminate].
  destruct body as [| | |values]; try discriminate.
  unfold parse.
  destruct (validate_template_import voc values) as [td|e] eqn:Hv; [|discriminate].
  destruct (import_template_constraints env td claims_and_roles s)
    as [[o s1] l1] eqn:Hi.
  destruct o as [result|[]]; try discriminate.
  intros [= <- <- _].
  apply import_general_error in Hi as (Hne & -> & ->).
  split; [done|]. split; [reflexivity|]. split; [reflexivity|].
  by exists values, td.
Qed.

Lemma general_error_means_unresolved_variables_witness :
  tokens example_claims <> [] /\ true = true /\ "POST" = "POST"
  /\ exists values td : ImportConstraintsTemplateRequestModel,
       BodyFields undeclared_variable_template = BodyFields values
       /\ validate_template_import example_vocabulary values = Return td
       /\ unreplaced_of td <> ∅
       /\ "Unreplaced template variables found after substitution: AREA, ZONE. Provide values for these in variableValues."
          = unreplaced_message (unreplaced_of td)
       /\ initial_store = initial_store.
Proof.
  eapply (general_error_means_unresolved_variables
            (example_env None (fun _ => false)) example_vocabulary
            example_claims true "POST").
  vm_compute. reflexivity.
Defined.

(** * Properties of the template applicator *)

(** ** Resolving the variables *)

Lemma dict_get_set (k k' : string) (v : value) (d : dict) :
  dict_get k (dict_set k' v d) = if String.eqb k k' then Some v else dict_get k d.
Proof.
  induction d as [|[k0 v0] d IH]; cbn [dict_set dict_get].
  - reflexivity.
  - destruct (String.eqb_spec k' k0) as [->|Hne]; cbn [dict_get].
    + destruct (String.eqb_spec k k0); reflexivity.
    + rewrite IH. destruct (String.eqb_spec k k0) as [->|]; [|reflexivity].
      destruct (String.eqb_spec k0 k'); congruence.
Qed.

Lemma last_value_snoc (k : string) (l : dict) (kv : string * value) :
  last_value k (l ++ [kv])
  = if String.eqb k kv.1 then Some kv.2 else last_value k l.
Proof. unfold last_value. rewrite fold_left_app. reflexivity. Qed.

Lemma dict_update_snoc (d l : dict) (kv : string * value) :
  dict_update d (l ++ [kv]) = dict_set kv.1 kv.2 (dict_update d l).
Proof. unfold dict_update. rewrite fold_left_app. reflexivity. Qed.

Lemma dict_get_update (k : string) (d other : dict) :
  dict_get k (dict_update d other)
  = match last_value k other with
    | Some v => Some v
    | None => dict_get k d
    end.
Proof.
  induction other as [|kv other IH] using rev_ind.
  - reflexivity.
  - rewrite dict_update_snoc, last_value_snoc, dict_get_set, IH.
    destruct (String.eqb k kv.1); reflexivity.
Qed.

Lemma contains_eq_cons (c : ascii) (s : string) :
  contains "=" (String c s) = Ascii.eqb c "=" || contains "=" s.
Proof.
  cbn [contains startswith]. rewrite Ascii.eqb_sym.
  destruct (Ascii.eqb c "="), s; reflexivity.
Qed.


Lemma split_eq_Some (s key value : string) :
  split_eq s = Some (key, value)
  <-> s = key +:+ "=" +:+ value /\ contains "=" key = false.
Proof.
  revert key. induction s as [|c s IH]; intros key.
  - split; [discriminate|]. intros [H _]. by destruct key.
  - cbn [split_eq]. destruct (Ascii.eqb_spec c "=") as [->|Hc].
    + split.
      * intros [= <- <-]. split; reflexivity.
      * intros [H Hk]. destruct key as [|c' key].
        -- rewrite string_app_nil_l, string_app_cons, string_app_nil_l in H.
           by injection H as ->.
        -- rewrite string_app_cons in H. injection H as <- _.
           rewrite contains_eq_cons in Hk. discriminate.
    + destruct (split_eq s) as [[key' value']|] eqn:Hs.
      * split.
        -- intros [= <- <-]. destruct (proj1 (IH key') eq_refl) as [-> Hk].
           split; [by rewrite string_app_cons|].
           rewrite contains_eq_cons, Hk.
           by destruct (Ascii.eqb_spec c "=").
        -- intros [H Hk]. destruct key as [|c' key].
           ++ rewrite string_app_nil_l, string_app_cons in H.
              injection H as ? _. congruence.
           ++ rewrite string_app_cons in H. injection H as <- ->.
              rewrite contains_eq_cons in Hk. apply orb_false_elim in Hk as [_ Hk].
              assert (Some (key', value') = Some (key, value)) as [= -> ->]
                by (by apply IH).
              reflexivity.
      * split; [discriminate|]. intros [H Hk]. destruct key as [|c' key].
        -- rewrite string_app_nil_l, string_app_cons in H.
           injection H as ? _. congruence.
        -- rewrite string_app_cons in H. injection H as <- ->.
           rewrite contains_eq_cons in Hk. apply orb_false_elim in Hk as [_ Hk].
           assert (None = Some (key, value)) by (by apply IH). discriminate.
Qed.

Lemma var_pairs_snoc (vars : list string) (var_str : string) :
  var_pairs (vars ++ [var_str])
  = var_pairs vars ++ match split_eq var_str with
                      | Some (key, value) => [(key, VStr value)]
                      | None => []
                      end.
Proof.
  unfold var_pairs. rewrite omap_app. f_equal. simpl.
  by destruct (split_eq var_str) as [[key value]|].
Qed.

Lemma apply_var_overrides_Done (vars : list string) (d d' : dict) :
  apply_var_overrides vars d = Done d' ->
  d' = dict_update d (var_pairs vars).
Proof.
  revert d. induction vars as [|var_str vars IH]; intros d; cbn [apply_var_overrides].
  - by intros [= <-].
  - destruct (split_eq var_str) as [[key value]|] eqn:Hs; [|discriminate].
    intros H. apply IH in H. rewrite H. unfold var_pairs. simpl. rewrite Hs.
    reflexivity.
Qed.



Lemma load_variables_file_Done (tenv : ToolEnv) (args : Args) (d d' : dict) :
  load_variables_file tenv args d = Done d' ->
  d' = dict_update d (file_object tenv args).
Proof.
  unfold load_variables_file, file_object.
  destruct (given (arg_variables_file args)) as [path|]; [|by intros [= <-]].
  destruct (read_json_file tenv path) as [|[e|[]]]; try discriminate.
  by intros [= <-].
Qed.

Lemma load_variables_string_Done (tenv : ToolEnv) (args : Args) (d d' : dict) :
  load_variables_string tenv args d = Done d' ->
  d' = dict_update d (string_object tenv args).
Proof.
  unfold load_variables_string, string_object.
  destruct (given (arg_variables args)) as [text|]; [|by intros [= <-]].
  destruct (json_loads tenv text) as [e|[]]; try discriminate.
  by intros [= <-].
Qed.



Lemma differs_from_str_false (v : value) (s : string) :
  differs_from_str v s = false <-> v = VStr s.
Proof.
  destruct v; cbn; try (split; [discriminate|by intros [=]]).
  destruct (String.eqb_spec s0 s) as [->|Hne]; cbn.
  - split; reflexivity.
  - split; [discriminate|]. intros [=]. congruence.
Qed.

(** The dictionary of the three sources, before ROLE_NAME is set *)
Lemma sources_get (tenv : ToolEnv) (args : Args) (k : string) :
  dict_get k (dict_update (dict_update (dict_update [] (file_object tenv args))
                             (string_object tenv args))
                (var_pairs (arg_var args)))
  = by_priority tenv args k.
Proof.
  rewrite !dict_get_update. unfold by_priority. cbn [dict_get].
  destruct (last_value k (var_pairs (arg_var args))); [reflexivity|].
  destruct (last_value k (string_object tenv args)); [reflexivity|].
  by destruct (last_value k (file_object tenv args)).
Qed.

Lemma resolve_variables_Done (tenv : ToolEnv) (args : Args) (var_values : dict) :
  resolve_variables tenv args = Done var_values ->
  (by_priority tenv args "ROLE_NAME" = None
   \/ by_priority tenv args "ROLE_NAME" = Some (VStr (arg_role_name args)))
  /\ forall k, dict_get k var_values
              = if String.eqb k "ROLE_NAME"
                then Some (VStr (arg_role_name args))
                else by_priority tenv args k.
Proof.
  unfold resolve_variables.
  destruct (load_variables_file tenv args []) as [d1| |] eqn:H1; try discriminate.
  cbn [and_then].
  destruct (load_variables_string tenv args d1) as [d2| |] eqn:H2; try discriminate.
  cbn [and_then].
  destruct (apply_var_overrides (arg_var args) d2) as [d3| |] eqn:H3; try discriminate.
  cbn [and_then].
  apply load_variables_file_Done in H1 as ->.
  apply load_variables_string_Done in H2 as ->.
  apply apply_var_overrides_Done in H3 as ->.
  unfold set_role_name. rewrite sources_get.
  set (sources := dict_update _ _).
  destruct (by_priority tenv args "ROLE_NAME") as [v|] eqn:Hr.
  - destruct (differs_from_str v (arg_role_name args)) eqn:Hd; [discriminate|].
    apply differs_from_str_false in Hd as ->. intros [= <-]. split; [by right|].
    intros k. rewrite dict_get_set. destruct (String.eqb k "ROLE_NAME"); [reflexivity|].
    apply sources_get.
  - intros [= <-]. split; [by left|].
    intros k. rewrite dict_get_set. destruct (String.eqb k "ROLE_NAME"); [reflexivity|].
    apply sources_get.
Qed.






(** X14.  The variables [resolve_variables] returns give ROLE_NAME the value
    of [--role-name], and give every other key the value of the last
    [--var] entry for it, else the value in the [--variables] JSON string,
    else the value in the [--variables-file] object, and no value when no
    source has the key. *)
Theorem resolved_variables_follow_the_sources (tenv : ToolEnv) (args : Args)
    (var_values : dict) :
  resolve_variables tenv args = Done var_values ->
  dict_get "ROLE_NAME" var_values = Some (VStr (arg_role_name args))
  /\ forall k, k <> "ROLE_NAME" -> dict_get k var_values = by_priority tenv args k.
Proof.
  intros H. apply resolve_variables_Done in H as [_ H]. split.
  - by rewrite H.
  - intros k Hk. rewrite H. by destruct (String.eqb_spec k "ROLE_NAME").
Qed.

Lemma resolved_variables_follow_the_sources_witness :
  resolve_variables (example_tool_env all_succeed) example_args = Done example_resolved
  /\ dict_get "ROLE_NAME" example_resolved = Some (VStr "my-db-admin")
  /\ forall k, k <> "ROLE_NAME" ->
       dict_get k example_resolved
       = by_priority (example_tool_env all_succeed) example_args k.
Proof.
  split; [vm_compute; reflexivity|].
  apply (resolved_variables_follow_the_sources (example_tool_env all_succeed)
           example_args example_resolved).
  vm_compute. reflexivity.
Defined.


(** X16.  The last [--var] entry [KEY=VALUE] for a key other than ROLE_NAME
    decides the key: the resolved variables give KEY the text after the
    first [=] of the entry, unchanged, whatever that text contains and
    whatever the other sources say. *)
Theorem last_var_entry_wins_verbatim (tenv : ToolEnv) (args : Args)
    (var_values : dict) (before : list string) (key value : string) :
  resolve_variables tenv args = Done var_values ->
  arg_var args = before ++ [key +:+ "=" +:+ value] ->
  contains "=" key = false ->
  key <> "ROLE_NAME" ->
  dict_get key var_values = Some (VStr value).
Proof.
  intros H Hvar Hkey Hne. apply resolve_variables_Done in H as [_ H].
  rewrite H. destruct (String.eqb_spec key "ROLE_NAME") as [|_]; [done|].
  unfold by_priority. rewrite Hvar, var_pairs_snoc.
  assert (split_eq (key +:+ "=" +:+ value) = Some (key, value)) as ->
    by (by apply split_eq_Some).
  rewrite last_value_snoc. cbn [fst snd]. by rewrite String.eqb_refl.
Qed.

Lemma last_var_entry_wins_verbatim_witness :
  dict_get "FILTER" example_resolved = Some (VStr "a=b").
Proof.
  apply (last_var_entry_wins_verbatim (example_tool_env all_succeed) example_args
           example_resolved ["DATABASE_ID=from-var"] "FILTER" "a=b").
  - vm_compute. reflexivity.
  - reflexivity.
  - vm_compute. reflexivity.
  - discriminate.
Defined.

(** ** The workflow *)

Lemma quiet_tret {A : Type} (a : A) : quiet (tret a).
Proof. by intros tr o tr' [= _ <-]. Qed.

Lemma quiet_tlift {A : Type} (o : tool_outcome A) : quiet (tlift o).
Proof. by intros tr o' tr' [= _ <-]. Qed.

Lemma quiet_tpure {A : Type} (r : py_result A) : quiet (tpure r).
Proof. apply quiet_tlift. Qed.

Lemma quiet_tbind {A B : Type} (m : T A) (k : A -> T B) :
  quiet m -> (forall a, quiet (k a)) -> quiet (tbind m k).
Proof.
  intros Hm Hk tr o tr'. unfold tbind.
  destruct (m tr) as [[a|c msg|e] tr1] eqn:H1; apply Hm in H1 as ->.
  - apply Hk.
  - by intros [= _ <-].
  - by intros [= _ <-].
Qed.

Lemma quiet_import_constraints (tenv : ToolEnv) (template_data : dict)
    (profile : option string) :
  quiet (import_constraints tenv template_data profile true).
Proof.
  unfold import_constraints.
  apply quiet_tbind; [apply quiet_tpure|]. intros template_name.
  apply quiet_tbind; [apply quiet_tpure|]. intros role_name.
  apply quiet_tpure.
Qed.

Lemma quiet_apply_template (tenv : ToolEnv) (template_path : string)
    (var_values : dict) (profile : option string) (delete : bool)
    (assign_user role_description : option string) (mfa_required : bool) :
  quiet (apply_template tenv template_path var_values profile true delete
           assign_user role_description mfa_required).
Proof.
  unfold apply_template.
  apply quiet_tbind; [apply quiet_tpure|]. intros role_name.
  apply quiet_tbind; [apply quiet_tlift|]. intros template_data.
  apply quiet_tbind; [apply quiet_tpure|]. intros template_name.
  apply quiet_tbind; [apply quiet_tpure|]. intros template_version.
  destruct delete.
  - apply quiet_tbind; [apply quiet_tret|]. intros _. apply quiet_tret.
  - apply quiet_tbind; [apply quiet_tret|]. intros role_success.
    rewrite andb_false_r.
    apply quiet_tbind; [apply quiet_tpure|]. intros n.
    apply quiet_tbind; [apply quiet_import_constraints|]. intros import_success.
    apply quiet_tbind; [|intros _; apply quiet_tret].
    destruct (given assign_user); apply quiet_tret.
Qed.

(** X17.  With [--dry-run] the tool launches no vamscli command, whatever
    the template, the variables and the other options are, and however the
    run ends. *)
Theorem dry_run_launches_nothing (tenv : ToolEnv) (args : Args) (tr tr' : Trace)
    (o : tool_outcome unit) :
  arg_dry_run args = true ->
  main tenv args tr = (o, tr') ->
  tr' = tr.
Proof.
  intros Hdry. unfold main.
  destruct (read_json_file tenv (arg_template args)); [apply quiet_tlift|].
  apply quiet_tbind; [apply quiet_tlift|]. intros var_values.
  rewrite Hdry. apply quiet_apply_template.
Qed.

Lemma create_role_run (tenv : ToolEnv) (r description : string) (mfa : bool)
    (profile : option string) (tr : Trace) :
  create_role tenv (VStr r) description mfa profile false tr
  = let cmd := vamscli_command profile
                 (["role"; "create"; "-r"; r; "--description"; description]
                  ++ (if mfa then ["--mfa-required"] else [])) in
    match subprocess_run tenv tr cmd with
    | Completed result => (Done (role_ready result), tr ++ [cmd])
    | RunRaises => (Crash SubprocessError, tr ++ [cmd])
    end.
Proof.
  unfold create_role, tbind, command_word, tret, run_vamscli, role_ready. cbn zeta.
  destruct (subprocess_run tenv tr _) as [result|]; [|reflexivity].
  destruct (returncode result =? 0)%Z; [reflexivity|].
  by destruct (reports_existing_role result).
Qed.

Lemma delete_role_run (tenv : ToolEnv) (r : string) (profile : option string)
    (tr : Trace) :
  delete_role tenv (VStr r) profile false tr
  = let cmd := vamscli_command profile
                 ["role"; "delete"; "-r"; r; "--confirm"; "--json-output"] in
    match subprocess_run tenv tr cmd with
    | Completed result => (Done (returncode result =? 0)%Z, tr ++ [cmd])
    | RunRaises => (Crash SubprocessError, tr ++ [cmd])
    end.
Proof.
  unfold delete_role, tbind, command_word, tret, run_vamscli. cbn zeta.
  destruct (subprocess_run tenv tr _) as [result|]; [|reflexivity].
  by destruct (returncode result =? 0)%Z.
Qed.

Lemma assign_user_to_role_run (tenv : ToolEnv) (user_id r : string)
    (profile : option string) (tr : Trace) :
  assign_user_to_role tenv user_id (VStr r) profile false tr
  = let cmd := vamscli_command profile
                 ["role"; "user"; "create"; "-u"; user_id; "--role-name"; r] in
    match subprocess_run tenv tr cmd with
    | Completed result => (Done (returncode result =? 0)%Z, tr ++ [cmd])
    | RunRaises => (Crash SubprocessError, tr ++ [cmd])
    end.
Proof.
  unfold assign_user_to_role, tbind, command_word, tret, run_vamscli. cbn zeta.
  destruct (subprocess_run tenv tr _) as [result|]; [|reflexivity].
  by destruct (returncode result =? 0)%Z.
Qed.

(** The import of a template whose metadata and variables are objects and
    whose constraints have a length *)
Lemma import_constraints_run (tenv : ToolEnv) (template_data var_values : dict)
    (profile : option string) (tr : Trace) (template_name : value) (n : nat) :
  value_get (get_default (dict_get "metadata" template_data) (VDict []))
    "name" (VStr "Unknown") = Ok template_name ->
  dict_get "variableValues" template_data = Some (VDict var_values) ->
  py_len (get_default (dict_get "constraints" template_data) (VList [])) = Ok n ->
  import_constraints tenv template_data profile false tr
  = let cmd := vamscli_command profile
                 ["role"; "constraint"; "template"; "import"; "-j";
                  json_dumps tenv (VDict template_data); "--json-output"] in
    match subprocess_run tenv tr cmd with
    | Completed result => (Done (returncode result =? 0)%Z, tr ++ [cmd])
    | RunRaises => (Crash SubprocessError, tr ++ [cmd])
    end.
Proof.
  intros Hname Hvalues Hlen. unfold import_constraints.
  rewrite Hname, Hvalues, Hlen.
  unfold tbind, tpure, tlift, of_result, tret, run_vamscli, value_get, get_default.
  cbn zeta.
  destruct (subprocess_run tenv tr _) as [result|]; [|reflexivity].
  destruct (returncode result =? 0)%Z; [|reflexivity].
  by destruct (json_loads tenv (stdout result)) as [e|[]].
Qed.

Lemma value_get_version (metadata name : value) :
  value_get metadata "name" (VStr "Unknown") = Ok name ->
  exists version, value_get metadata "version" (VStr "1.0") = Ok version.
Proof. destruct metadata; try discriminate. intros _. by eexists. Qed.

Lemma sent_template_get (template_data var_values : dict) (k : string) :
  dict_get k (sent_template template_data var_values)
  = if String.eqb k "variableValues" then Some (VDict var_values)
    else dict_get k template_data.
Proof. apply dict_get_set. Qed.

(** A run that is not a dry run launches nothing before the variables are
    resolved, the template is loaded and its metadata is read. *)
Lemma main_early (tenv : ToolEnv) (args : Args) (o : tool_outcome unit) (tr : Trace) :
  main tenv args [] = (o, tr) ->
  tr = [] /\ o <> Done tt
  \/ exists var_values template_data template_name,
       resolve_variables tenv args = Done var_values
       /\ load_template tenv (arg_template args) = Done template_data
       /\ metadata_name template_data "Unknown" = Ok template_name.
Proof.
  unfold main. destruct (read_json_file tenv (arg_template args)) eqn:Hfile.
  { intros [= <- <-]. by left. }
  unfold tbind at 1. unfold tlift at 1.
  destruct (resolve_variables tenv args) as [var_values| |] eqn:Hres;
    [|intros [= <- <-]; by left..].
  pose proof (resolve_variables_Done _ _ _ Hres) as [_ Hget].
  unfold apply_template, tbind at 1, tpure at 1, tlift at 1, subscript.
  rewrite Hget. cbn [String.eqb Ascii.eqb Bool.eqb of_outcome of_result].
  unfold tbind at 1. unfold tlift at 1.
  destruct (load_template tenv (arg_template args)) as [template_data| |] eqn:Hload;
    [|intros [= <- <-]; by left..].
  unfold tbind at 1. unfold tpure at 1, tlift at 1.
  destruct (value_get _ "name" _) as [template_name|e] eqn:Hname;
    [|intros [= <- <-]; by left].
  intros _. right. by exists var_values, template_data, template_name.
Qed.

Lemma main_create_run (tenv : ToolEnv) (args : Args) (var_values template_data : dict)
    (template_name : value) :
  arg_dry_run args = false ->
  arg_delete args = false ->
  resolve_variables tenv args = Done var_values ->
  load_template tenv (arg_template args) = Done template_data ->
  metadata_name template_data "Unknown" = Ok template_name ->
  main tenv args []
  = let C := create_command args (role_description_of tenv args template_name) in
    let I := import_command args
               (json_dumps tenv (VDict (sent_template template_data var_values))) in
    match subprocess_run tenv [] C with
    | RunRaises => (Crash SubprocessError, [C])
    | Completed result =>
        if role_ready result
        then
          match py_len (constraints_of template_data) with
          | Fails e => (Crash e, [C])
          | Ok n =>
              match subprocess_run tenv [C] I with
              | RunRaises => (Crash SubprocessError, [C; I])
              | Completed _ =>
                  match given (arg_assign_user args) with
                  | None => (Done tt, [C; I])
                  | Some user_id =>
                      match subprocess_run tenv [C; I] (assign_command args user_id) with
                      | RunRaises =>
                          (Crash SubprocessError, [C; I; assign_command args user_id])
                      | Completed _ => (Done tt, [C; I; assign_command args user_id])
                      end
                  end
              end
          end
        else (SysExit 1 "FATAL: Could not create role. Aborting.", [C])
    end.
Proof.
  intros Hdry Hdel Hres Hload Hname. unfold main.
  destruct (read_json_file tenv (arg_template args)) eqn:Hfile.
  { unfold load_template in Hload. by rewrite Hfile in Hload. }
  unfold tbind at 1. unfold tlift at 1. rewrite Hres.
  pose proof (resolve_variables_Done _ _ _ Hres) as [_ Hget].
  unfold apply_template, tbind at 1, tpure at 1, tlift at 1, subscript.
  rewrite Hget. cbn [String.eqb Ascii.eqb Bool.eqb of_outcome of_result].
  unfold tbind at 1. unfold tlift at 1. rewrite Hload.
  unfold metadata_name in Hname.
  destruct (value_get_version _ _ Hname) as [version Hversion].
  unfold tbind at 1. unfold tpure at 1, tlift at 1. rewrite Hname. cbn [of_result].
  unfold tbind at 1. unfold tpure at 1, tlift at 1. rewrite Hversion. cbn [of_result].
  rewrite Hdel, Hdry. unfold tbind at 1. rewrite create_role_run. cbn zeta.
  fold (sent_template template_data var_values).
  change (tool_format tenv (VStr (arg_role_name args))) with (arg_role_name args).
  fold (role_description_of tenv args template_name).
  fold (create_command args (role_description_of tenv args template_name)).
  set (C := create_command args _).
  cbn [app].
  destruct (subprocess_run tenv [] C) as [result|]; [|reflexivity].
  destruct (role_ready result); cbn [negb andb]; [|reflexivity].
  unfold tbind at 1. unfold tpure at 1, tlift at 1.
  fold (constraints_of template_data).
  destruct (py_len (constraints_of template_data)) as [n|e] eqn:Hlen; [|reflexivity].
  cbn [of_result]. unfold tbind at 1.
  rewrite (import_constraints_run tenv _ var_values _ _ template_name n).
  2:{ by rewrite sent_template_get. }
  2:{ by rewrite sent_template_get. }
  2:{ by rewrite sent_template_get. }
  cbn zeta.
  fold (import_command args
          (json_dumps tenv (VDict (sent_template template_data var_values)))).
  set (I := import_command args _). cbn [app].
  destruct (subprocess_run tenv [C] I) as [result'|]; [|reflexivity].
  unfold tbind at 1.
  destruct (given (arg_assign_user args)) as [user_id|]; [|reflexivity].
  rewrite assign_user_to_role_run. cbn zeta.
  fold (assign_command args user_id). cbn [app].
  by destruct (subprocess_run tenv [C; I] (assign_command args user_id)).
Qed.

Lemma main_delete_run (tenv : ToolEnv) (args : Args) (var_values template_data : dict)
    (template_name : value) :
  arg_dry_run args = false ->
  arg_delete args = true ->
  resolve_variables tenv args = Done var_values ->
  load_template tenv (arg_template args) = Done template_data ->
  metadata_name template_data "Unknown" = Ok template_name ->
  main tenv args []
  = match subprocess_run tenv [] (delete_command args) with
    | RunRaises => (Crash SubprocessError, [delete_command args])
    | Completed _ => (Done tt, [delete_command args])
    end.
Proof.
  intros Hdry Hdel Hres Hload Hname. unfold main.
  destruct (read_json_file tenv (arg_template args)) eqn:Hfile.
  { unfold load_template in Hload. by rewrite Hfile in Hload. }
  unfold tbind at 1. unfold tlift at 1. rewrite Hres.
  pose proof (resolve_variables_Done _ _ _ Hres) as [_ Hget].
  unfold apply_template, tbind at 1, tpure at 1, tlift at 1, subscript.
  rewrite Hget. cbn [String.eqb Ascii.eqb Bool.eqb of_outcome of_result].
  unfold tbind at 1. unfold tlift at 1. rewrite Hload.
  unfold metadata_name in Hname.
  destruct (value_get_version _ _ Hname) as [version Hversion].
  unfold tbind at 1. unfold tpure at 1, tlift at 1. rewrite Hname. cbn [of_result].
  unfold tbind at 1. unfold tpure at 1, tlift at 1. rewrite Hversion. cbn [of_result].
  rewrite Hdel, Hdry. unfold tbind at 1. rewrite delete_role_run. cbn zeta.
  fold (delete_command args). cbn [app].
  by destruct (subprocess_run tenv [] (delete_command args)).
Qed.

Lemma main_quiet (tenv : ToolEnv) (args : Args) :
  arg_dry_run args = true -> quiet (main tenv args).
Proof.
  intros Hdry. unfold main.
  destruct (read_json_file tenv (arg_template args)); [apply quiet_tlift|].
  apply quiet_tbind; [apply quiet_tlift|]. intros var_values.
  rewrite Hdry. apply quiet_apply_template.
Qed.

(** A run that creates finishes only if the constraints have a length. *)
Lemma main_create_sized (tenv : ToolEnv) (args : Args) (template_data : dict)
    (tr : Trace) :
  arg_delete args = false ->
  load_template tenv (arg_template args) = Done template_data ->
  main tenv args [] = (Done tt, tr) ->
  exists n, py_len (constraints_of template_data) = Ok n.
Proof.
  intros Hdel Hload Hmain.
  destruct (main_early _ _ _ _ Hmain) as [[_ ?]|(var_values & td & name & Hres & Hload' & Hname)];
    [done|].
  assert (td = template_data) as -> by congruence.
  destruct (arg_dry_run args) eqn:Hdry.
  - revert Hmain. unfold main.
    destruct (read_json_file tenv (arg_template args)) eqn:Hfile; [discriminate|].
    unfold tbind at 1. unfold tlift at 1. rewrite Hres.
    pose proof (resolve_variables_Done _ _ _ Hres) as [_ Hget].
    unfold apply_template, tbind at 1, tpure at 1, tlift at 1, subscript.
    rewrite Hget. cbn [String.eqb Ascii.eqb Bool.eqb of_outcome of_result].
    unfold tbind at 1. unfold tlift at 1. rewrite Hload.
    unfold metadata_name in Hname.
    destruct (value_get_version _ _ Hname) as [version Hversion].
    unfold tbind at 1. unfold tpure at 1, tlift at 1. rewrite Hname. cbn [of_result].
    unfold tbind at 1. unfold tpure at 1, tlift at 1. rewrite Hversion. cbn [of_result].
    rewrite Hdel, Hdry. unfold tbind at 1. unfold create_role at 1, tret at 1.
    cbn [negb andb]. unfold tbind at 1. unfold tpure at 1, tlift at 1.
    fold (constraints_of template_data).
    destruct (py_len (constraints_of template_data)) as [n|e]; [by eexists|].
    discriminate.
  - revert Hmain. rewrite (main_create_run _ _ _ _ _ Hdry Hdel Hres Hload Hname).
    cbn zeta. destruct (subprocess_run tenv [] _) as [result|]; [|discriminate].
    destruct (role_ready result); [|discriminate].
    destruct (py_len (constraints_of template_data)) as [n|e]; [by eexists|].
    discriminate.
Qed.

Lemma vamscli_command_inj (profile : option string) (a b : list string) :
  vamscli_command profile a = vamscli_command profile b -> a = b.
Proof.
  unfold vamscli_command. intros H. injection H as H. by apply app_inv_head in H.
Qed.

Lemma import_command_create (args : Args) (payload description : string) :
  import_command args payload <> create_command args description.
Proof.
  intros H. apply vamscli_command_inj in H. discriminate.
Qed.

Lemma import_command_assign (args : Args) (payload user_id : string) :
  import_command args payload <> assign_command args user_id.
Proof.
  intros H. apply vamscli_command_inj in H. discriminate.
Qed.

Lemma import_command_delete (args : Args) (payload : string) :
  import_command args payload <> delete_command args.
Proof.
  intros H. apply vamscli_command_inj in H. discriminate.
Qed.

Lemma import_command_inj (args : Args) (payload payload' : string) :
  import_command args payload = import_command args payload' -> payload = payload'.
Proof.
  intros H. apply vamscli_command_inj in H. by injection H.
Qed.

(** What a run that launches the import command must have done *)
Lemma main_import_launched (tenv : ToolEnv) (args : Args) (o : tool_outcome unit)
    (tr : Trace) (payload : string) :
  main tenv args [] = (o, tr) ->
  import_command args payload ∈ tr ->
  exists var_values template_data template_name result rest,
    arg_dry_run args = false /\ arg_delete args = false
    /\ resolve_variables tenv args = Done var_values
    /\ load_template tenv (arg_template args) = Done template_data
    /\ metadata_name template_data "Unknown" = Ok template_name
    /\ subprocess_run tenv []
         (create_command args (role_description_of tenv args template_name))
       = Completed result
    /\ role_ready result = true
    /\ payload = json_dumps tenv (VDict (sent_template template_data var_values))
    /\ tr = create_command args (role_description_of tenv args template_name)
            :: import_command args payload :: rest
    /\ (o = Done tt /\ match given (arg_assign_user args) with
                       | Some user_id => rest = [assign_command args user_id]
                       | None => rest = []
                       end
        \/ o = Crash SubprocessError).
Proof.
  intros Hmain Hin.
  destruct (arg_dry_run args) eqn:Hdry.
  { apply (main_quiet _ _ Hdry) in Hmain as ->. by apply elem_of_nil in Hin. }
  destruct (main_early _ _ _ _ Hmain)
    as [[-> _]|(var_values & td & name & Hres & Hload & Hname)].
  { by apply elem_of_nil in Hin. }
  destruct (arg_delete args) eqn:Hdel.
  { rewrite (main_delete_run _ _ _ _ _ Hdry Hdel Hres Hload Hname) in Hmain.
    destruct (subprocess_run tenv [] (delete_command args));
      injection Hmain as <- <-; apply list_elem_of_singleton in Hin;
      by apply import_command_delete in Hin. }
  rewrite (main_create_run _ _ _ _ _ Hdry Hdel Hres Hload Hname) in Hmain.
  cbn zeta in Hmain.
  set (C := create_command args _) in *.
  destruct (subprocess_run tenv [] C) as [result|] eqn:Hrun.
  2:{ injection Hmain as <- <-. apply list_elem_of_singleton in Hin.
      by apply import_command_create in Hin. }
  destruct (role_ready result) eqn:Hready.
  2:{ injection Hmain as <- <-. apply list_elem_of_singleton in Hin.
      by apply import_command_create in Hin. }
  destruct (py_len (constraints_of td)) as [n|e].
  2:{ injection Hmain as <- <-. apply list_elem_of_singleton in Hin.
      by apply import_command_create in Hin. }
  assert (forall l, import_command args payload
                      ∈ C :: import_command args
                               (json_dumps tenv (VDict (sent_template td var_values)))
                          :: l ->
                    (import_command args payload ∈ l -> False) ->
                    payload = json_dumps tenv (VDict (sent_template td var_values)))
    as Hpayload.
  { intros l Hl Hno.
    apply elem_of_cons in Hl as [Hl|Hl]; [by apply import_command_create in Hl|].
    apply elem_of_cons in Hl as [Hl|Hl]; [|done].
    by apply import_command_inj in Hl. }
  destruct (subprocess_run tenv [C] _) as [result'|].
  2:{ injection Hmain as <- <-.
      apply Hpayload in Hin as ->; [|apply elem_of_nil].
      exists var_values, td, name, result, []. repeat split; try done. by right. }
  destruct (given (arg_assign_user args)) as [user_id|] eqn:Hassign.
  - assert (import_command args payload ∈ [assign_command args user_id] -> False)
      as Hno.
    { intros H. apply list_elem_of_singleton in H.
      by apply import_command_assign in H. }
    destruct (subprocess_run tenv _ (assign_command args user_id));
      injection Hmain as <- <-; apply Hpayload in Hin as ->; try exact Hno;
      exists var_values, td, name, result, [assign_command args user_id];
      repeat split; try done.
    + by left.
    + by right.
  - injection Hmain as <- <-.
    apply Hpayload in Hin as ->; [|apply elem_of_nil].
    exists var_values, td, name, result, []. repeat split; try done. by left.
Qed.

Lemma dry_run_launches_nothing_witness :
  main (example_tool_env all_fail) example_dry_run_args [] = (Done tt, [])
  /\ ([] : Trace) = [].
Proof.
  split; [vm_compute; reflexivity|].
  apply (dry_run_launches_nothing (example_tool_env all_fail) example_dry_run_args
           [] [] (Done tt)).
  - reflexivity.
  - vm_compute. reflexivity.
Defined.

(** X18.  The tool launches the constraint import only in a run that is
    neither a dry run nor a deletion, only as its second command, and only
    after its first command, the role creation, finished with return code 0
    or with output that says the role already exists.  What it sends is the
    loaded template with [variableValues] set to the resolved variables. *)
Theorem constraints_are_imported_only_into_a_ready_role (tenv : ToolEnv)
    (args : Args) (o : tool_outcome unit) (tr : Trace) (payload : string) :
  main tenv args [] = (o, tr) ->
  import_command args payload ∈ tr ->
  exists var_values template_data template_name result rest,
    arg_dry_run args = false /\ arg_delete args = false
    /\ resolve_variables tenv args = Done var_values
    /\ load_template tenv (arg_template args) = Done template_data
    /\ metadata_name template_data "Unknown" = Ok template_name
    /\ subprocess_run tenv []
         (create_command args (role_description_of tenv args template_name))
       = Completed result
    /\ role_ready result = true
    /\ payload = json_dumps tenv (VDict (sent_template template_data var_values))
    /\ tr = create_command args (role_description_of tenv args template_name)
            :: import_command args payload :: rest.
Proof.
  intros Hmain Hin.
  destruct (main_import_launched _ _ _ _ _ Hmain Hin)
    as (var_values & td & name & result & rest & H1 & H2 & H3 & H4 & H5 & H6 & H7
        & H8 & H9 & _).
  by exists var_values, td, name, result, rest.
Qed.

Lemma constraints_are_imported_only_into_a_ready_role_witness :
  main (example_tool_env all_succeed) example_args [] = (Done tt, example_trace)
  /\ exists var_values template_data template_name result rest,
       arg_dry_run example_args = false /\ arg_delete example_args = false
       /\ resolve_variables (example_tool_env all_succeed) example_args
          = Done var_values
       /\ load_template (example_tool_env all_succeed) (arg_template example_args)
          = Done template_data
       /\ metadata_name template_data "Unknown" = Ok template_name
       /\ subprocess_run (example_tool_env all_succeed) []
            (create_command example_args
               (role_description_of (example_tool_env all_succeed) example_args
                  template_name))
          = Completed result
       /\ role_ready result = true
       /\ "<template>"
          = json_dumps (example_tool_env all_succeed)
              (VDict (sent_template template_data var_values))
       /\ example_trace
          = create_command example_args
              (role_description_of (example_tool_env all_succeed) example_args
                 template_name)
            :: import_command example_args "<template>" :: rest.
Proof.
  split; [vm_compute; reflexivity|].
  apply (constraints_are_imported_only_into_a_ready_role
           (example_tool_env all_succeed) example_args (Done tt) example_trace
           "<template>").
  - vm_compute. reflexivity.
  - unfold example_trace. right. left.
Defined.

(** X19.  Once the constraint import has been launched, its result does not
    stop the run: whatever the import command and the user assignment
    return, the tool finishes normally, with a requested user assignment as
    its last command; only a command that cannot be run at all ends it with
    an exception. *)
Theorem failed_import_is_only_a_warning (tenv : ToolEnv) (args : Args)
    (o : tool_outcome unit) (tr : Trace) (payload : string) :
  main tenv args [] = (o, tr) ->
  import_command args payload ∈ tr ->
  (o = Done tt \/ o = Crash SubprocessError)
  /\ (o = Done tt ->
      forall user_id, given (arg_assign_user args) = Some user_id ->
        last tr = Some (assign_command args user_id)).
Proof.
  intros Hmain Hin.
  destruct (main_import_launched _ _ _ _ _ Hmain Hin)
    as (var_values & td & name & result & rest & _ & _ & _ & _ & _ & _ & _
        & _ & -> & Ho).
  split.
  - destruct Ho as [[-> _]| ->]; [by left|by right].
  - intros -> user_id Hgiven. destruct Ho as [[_ Hrest]|]; [|discriminate].
    rewrite Hgiven in Hrest. by rewrite Hrest.
Qed.

Lemma failed_import_is_only_a_warning_witness :
  main (example_tool_env import_fails) example_args [] = (Done tt, example_trace)
  /\ ((Done tt = Done tt \/ Done tt = Crash SubprocessError)
      /\ (Done tt = Done tt ->
          forall user_id, given (arg_assign_user example_args) = Some user_id ->
            last example_trace = Some (assign_command example_args user_id))).
Proof.
  split; [vm_compute; reflexivity|].
  apply (failed_import_is_only_a_warning (example_tool_env import_fails)
           example_args (Done tt) example_trace "<template>").
  - vm_compute. reflexivity.
  - unfold example_trace. right. left.
Defined.

(** X20.  With [--delete] the tool launches at most one command, the role
    deletion, and never the role creation, the constraint import or a user
    assignment; when the deletion command ran, the tool finishes normally
    whatever the command returned. *)
Theorem delete_mode_only_deletes_the_role (tenv : ToolEnv) (args : Args)
    (o : tool_outcome unit) (tr : Trace) :
  arg_delete args = true ->
  main tenv args [] = (o, tr) ->
  (tr = [] \/ tr = [delete_command args])
  /\ (forall result,
        tr = [delete_command args] ->
        subprocess_run tenv [] (delete_command args) = Completed result ->
        o = Done tt).
Proof.
  intros Hdel Hmain.
  destruct (arg_dry_run args) eqn:Hdry.
  { apply (main_quiet _ _ Hdry) in Hmain as ->. split; [by left|discriminate]. }
  destruct (main_early _ _ _ _ Hmain)
    as [[-> _]|(var_values & td & name & Hres & Hload & Hname)].
  { split; [by left|discriminate]. }
  rewrite (main_delete_run _ _ _ _ _ Hdry Hdel Hres Hload Hname) in Hmain.
  destruct (subprocess_run tenv [] (delete_command args)) as [result|];
    injection Hmain as <- <-; (split; [by right|]).
  - done.
  - intros result _ [=].
Qed.

Lemma delete_mode_only_deletes_the_role_witness :
  main (example_tool_env all_fail) example_delete_args []
  = (Done tt, [delete_command example_delete_args])
  /\ (([delete_command example_delete_args] = []
       \/ [delete_command example_delete_args] = [delete_command example_delete_args])
      /\ (forall result,
            [delete_command example_delete_args] = [delete_command example_delete_args] ->
            subprocess_run (example_tool_env all_fail) []
              (delete_command example_delete_args) = Completed result ->
            Done tt = Done tt)).
Proof.
  split; [vm_compute; reflexivity|].
  apply (delete_mode_only_deletes_the_role (example_tool_env all_fail)
           example_delete_args (Done tt) [delete_command example_delete_args]).
  - reflexivity.
  - vm_compute. reflexivity.
Defined.

(** X21.  [load_template] accepts a template whose [constraints] has no
    length (null, a number or a boolean).  A run that creates with such a
    template never finishes normally and never launches the import; when
    its role creation succeeded, the role is left without constraints and
    the run ends with the [TypeError] of [len]. *)
Theorem unsized_constraints_stop_after_role_creation (tenv : ToolEnv) (args : Args)
    (template_data : dict) (e : pyerr) (o : tool_outcome unit) (tr : Trace) :
  load_template tenv (arg_template args) = Done template_data ->
  py_len (constraints_of template_data) = Fails e ->
  arg_delete args = false ->
  main tenv args [] = (o, tr) ->
  o <> Done tt
  /\ (forall payload, import_command args payload ∉ tr)
  /\ (forall description result,
        tr = [create_command args description] ->
        subprocess_run tenv [] (create_command args description) = Completed result ->
        role_ready result = true ->
        o = Crash e).
Proof.
  intros Hload Hlen Hdel Hmain. split; [|split].
  - intros ->. destruct (main_create_sized _ _ _ _ Hdel Hload Hmain) as [n Hn].
    congruence.
  - intros payload Hin.
    destruct (main_import_launched _ _ _ _ _ Hmain Hin)
      as (var_values & td & name & result & rest & Hdry & _ & Hres & Hload' & Hname
          & Hrun & Hready & _ & Htr & _).
    assert (td = template_data) as -> by congruence.
    rewrite (main_create_run _ _ _ _ _ Hdry Hdel Hres Hload Hname) in Hmain.
    cbn zeta in Hmain. rewrite Hrun, Hready, Hlen in Hmain.
    injection Hmain as _ <-. discriminate.
  - intros description result -> Hrun Hready.
    destruct (arg_dry_run args) eqn:Hdry.
    { by apply (main_quiet _ _ Hdry) in Hmain. }
    destruct (main_early _ _ _ _ Hmain)
      as [[? _]|(var_values & td & name & Hres & Hload' & Hname)]; [done|].
    assert (td = template_data) as -> by congruence.
    rewrite (main_create_run _ _ _ _ _ Hdry Hdel Hres Hload Hname) in Hmain.
    cbn zeta in Hmain.
    assert (role_description_of tenv args name = description) as Hd.
    { destruct (subprocess_run tenv [] (create_command args _)) as [r|];
        [destruct (role_ready r); [rewrite Hlen in Hmain|]|];
        injection Hmain as _ H; apply app_inv_head in H; by injection H. }
    rewrite Hd, Hrun, Hready, Hlen in Hmain. by injection Hmain as <-.
Qed.

Lemma unsized_constraints_stop_after_role_creation_witness :
  main (example_tool_env all_succeed) example_null_args []
  = (Crash (Builtin (TypeError "object of type 'NoneType' has no len()")),
     [create_command example_null_args "Admin"])
  /\ (Crash (Builtin (TypeError "object of type 'NoneType' has no len()"))
      <> Done tt
      /\ (forall payload,
            import_command example_null_args payload
              ∉ [create_command example_null_args "Admin"])
      /\ (forall description result,
            [create_command example_null_args "Admin"]
            = [create_command example_null_args description] ->
            subprocess_run (example_tool_env all_succeed) []
              (create_command example_null_args description) = Completed result ->
            role_ready result = true ->
            @Crash unit (Builtin (TypeError "object of type 'NoneType' has no len()"))
            = Crash (Builtin (TypeError "object of type 'NoneType' has no len()")))).
Proof.
  split; [vm_compute; reflexivity|].
  apply (unsized_constraints_stop_after_role_creation (example_tool_env all_succeed)
           example_null_args [("metadata", VDict []); ("constraints", VNone)]).
  - vm_compute. reflexivity.
  - vm_compute. reflexivity.
  - reflexivity.
  - vm_compute. reflexivity.
Defined.

Lemma main_import_sized (tenv : ToolEnv) (args : Args) (o : tool_outcome unit)
    (tr : Trace) (payload : string) :
  main tenv args [] = (o, tr) ->
  import_command args payload ∈ tr ->
  exists var_values template_data template_name n,
    resolve_variables tenv args = Done var_values
    /\ load_template tenv (arg_template args) = Done template_data
    /\ metadata_name template_data "Unknown" = Ok template_name
    /\ py_len (constraints_of template_data) = Ok n
    /\ payload = json_dumps tenv (VDict (sent_template template_data var_values)).
Proof.
  intros Hmain Hin.
  destruct (main_import_launched _ _ _ _ _ Hmain Hin)
    as (var_values & td & name & result & rest & Hdry & Hdel & Hres & Hload & Hname
        & Hrun & Hready & Hpay & Htr & _).
  exists var_values, td, name.
  rewrite (main_create_run _ _ _ _ _ Hdry Hdel Hres Hload Hname) in Hmain.
  cbn zeta in Hmain. rewrite Hrun, Hready in Hmain.
  destruct (py_len (constraints_of td)) as [n|e].
  - by exists n.
  - injection Hmain as _ <-. discriminate.
Qed.

(** ** The command-line client *)

Lemma reject_not_call (b : bool) (error message : string) (td role : value)
    (n : nat) (name : value) :
  reject b error message <> CallApi td role n name.
Proof. unfold reject. by destruct b. Qed.

Lemma py_truthy_len (v : value) (n : nat) :
  py_len v = Ok n -> py_truthy v = negb (n =? 0).
Proof.
  destruct v as [| | |s|l|d]; try discriminate; intros [= <-]; cbn [py_truthy].
  - by destruct s.
  - by destruct l.
  - by destruct d.
Qed.

Lemma template_import_dict (b : bool) (d values : dict) (role_name constraints : value) :
  dict_get "variableValues" d = Some (VDict values) ->
  dict_get "ROLE_NAME" values = Some role_name ->
  dict_get "constraints" d = Some constraints ->
  template_import b (VDict d)
  = if py_truthy constraints
    then
      checked (py_len constraints) (fun constraint_count =>
      checked (metadata_name d "unknown") (fun template_name =>
      CallApi (VDict d) role_name constraint_count template_name))
    else reject b "Missing or empty 'constraints' field"
           "Missing or empty 'constraints' field in template data".
Proof.
  intros Hvalues Hrole Hconstraints. unfold template_import.
  assert (py_truthy (VDict d) = true) as -> by (by destruct d).
  cbn [negb py_in value_get subscript of_outcome checked get_default].
  rewrite Hvalues. cbn [negb checked get_default py_in].
  rewrite Hrole, Hconstraints. cbn [negb checked of_outcome orb subscript].
  destruct (py_truthy constraints); cbn [negb]; [|reflexivity].
  rewrite Hrole. cbn [of_outcome checked].
  destruct (py_len constraints); cbn [checked]; reflexivity.
Qed.

(** X22.  The import command of the client calls the API exactly when the
    parsed input is an object whose [variableValues] is an object with a
    ROLE_NAME key, whose [constraints] is a non-empty string, list or
    object, and whose [metadata] is absent or an object.  It then passes
    the input on unchanged; the role name it reads may be any value. *)
Theorem client_calls_the_api_iff_template_is_well_shaped (b : bool)
    (template_data sent role_name template_name : value) (n : nat) :
  template_import b template_data = CallApi sent role_name n template_name
  <-> sent = template_data
      /\ exists d values constraints,
           template_data = VDict d
           /\ dict_get "variableValues" d = Some (VDict values)
           /\ dict_get "ROLE_NAME" values = Some role_name
           /\ dict_get "constraints" d = Some constraints
           /\ py_len constraints = Ok n /\ n <> 0
           /\ metadata_name d "unknown" = Ok template_name.
Proof.
  split.
  - destruct template_data as [|x|z|s|l|d]; unfold template_import.
    + cbn. intros H. by apply reject_not_call in H.
    + destruct x; cbn; [discriminate|]. intros H. by apply reject_not_call in H.
    + cbn [py_truthy]. destruct (negb (z =? 0)%Z); cbn; [discriminate|].
      intros H. by apply reject_not_call in H.
    + cbn [py_truthy py_in checked]. destruct (negb (String.eqb s "")); cbn [negb];
        [|intros H; by apply reject_not_call in H].
      destruct (contains "variableValues" s); cbn [negb];
        [discriminate|intros H; by apply reject_not_call in H].
    + cbn [py_truthy py_in checked]. destruct (negb (bool_decide (l = []))); cbn [negb];
        [|intros H; by apply reject_not_call in H].
      destruct (existsb _ l); cbn [negb];
        [discriminate|intros H; by apply reject_not_call in H].
    + cbn [py_truthy py_in checked value_get get_default].
      destruct (negb (bool_decide (d = []))); cbn [negb];
        [|intros H; by apply reject_not_call in H].
      destruct (dict_get "variableValues" d) as [values|] eqn:Hvalues; cbn [negb get_default];
        [|intros H; by apply reject_not_call in H].
      destruct (py_in "ROLE_NAME" values) as [has_role|e] eqn:Hin; cbn [checked];
        [|discriminate].
      destruct has_role; cbn [negb]; [|intros H; by apply reject_not_call in H].
      destruct (dict_get "constraints" d) as [constraints|] eqn:Hconstraints;
        cbn [checked negb orb subscript of_outcome];
        [|intros H; by apply reject_not_call in H].
      rewrite Hconstraints. cbn [checked of_outcome].
      destruct (py_truthy constraints) eqn:Htruthy; cbn [negb];
        [|intros H; by apply reject_not_call in H].
      rewrite Hvalues. cbn [checked of_outcome].
      destruct values as [| | | | |values]; cbn [subscript of_outcome checked];
        try discriminate.
      destruct (dict_get "ROLE_NAME" values) as [role|] eqn:Hrole;
        cbn [of_outcome checked]; [|discriminate].
      destruct (py_len constraints) as [count|e] eqn:Hlen; cbn [checked];
        [|discriminate].
      fold (metadata_name d "unknown").
      destruct (metadata_name d "unknown") as [name|e] eqn:Hname; cbn [checked];
        [|discriminate].
      intros [= <- <- <- <-]. split; [reflexivity|].
      exists d, values, constraints. repeat split; try done.
      apply py_truthy_len in Hlen. rewrite Htruthy in Hlen.
      intros ->. discriminate.
  - intros (-> & d & values & constraints & -> & Hvalues & Hrole & Hconstraints
            & Hlen & Hn & Hname).
    rewrite (template_import_dict b d values role_name constraints) by done.
    rewrite (py_truthy_len _ _ Hlen), Hlen, Hname.
    destruct n; [done|]. reflexivity.
Qed.

(** X23.  What the applicator sends with its import command passes the
    client's checks on [variableValues] and ROLE_NAME: the client rejects
    it only when the template has no constraint, and otherwise calls the
    API with it, having read the value of [--role-name] as the role name. *)
Theorem applicator_import_reaches_the_api (tenv : ToolEnv) (args : Args)
    (o : tool_outcome unit) (tr : Trace) (payload : string) (b : bool) :
  main tenv args [] = (o, tr) ->
  import_command args payload ∈ tr ->
  exists sent n template_name,
    payload = json_dumps tenv (VDict sent)
    /\ py_len (constraints_of sent) = Ok n
    /\ template_import b (VDict sent)
       = if n =? 0
         then reject b "Missing or empty 'constraints' field"
                "Missing or empty 'constraints' field in template data"
         else CallApi (VDict sent) (VStr (arg_role_name args)) n template_name.
Proof.
  intros Hmain Hin.
  destruct (main_import_sized _ _ _ _ _ Hmain Hin)
    as (var_values & td & name & n & Hres & Hload & Hname & Hlen & ->).
  pose proof (resolve_variables_Done _ _ _ Hres) as [_ Hget].
  assert (exists constraints, dict_get "constraints" td = Some constraints)
    as [constraints Hconstraints].
  { unfold load_template in Hload.
    destruct (read_json_file tenv (arg_template args)) as [|[e|[]]]; try discriminate.
    destruct (dict_get "constraints" l) eqn:H; [|discriminate].
    injection Hload as <-. by eexists. }
  unfold constraints_of in Hlen. rewrite Hconstraints in Hlen. cbn [get_default] in Hlen.
  assert (exists name', metadata_name td "unknown" = Ok name') as [name' Hname'].
  { unfold metadata_name in *.
    destruct (get_default (dict_get "metadata" td) (VDict [])); try discriminate.
    by eexists. }
  exists (sent_template td var_values), n, name'. split; [reflexivity|].
  assert (dict_get "constraints" (sent_template td var_values) = Some constraints)
    as Hsent by (by rewrite sent_template_get).
  split.
  { unfold constraints_of. by rewrite Hsent. }
  rewrite (template_import_dict b _ var_values (VStr (arg_role_name args)) constraints).
  - rewrite (py_truthy_len _ _ Hlen), Hlen. cbn [checked].
    unfold metadata_name. rewrite sent_template_get. cbn [String.eqb Ascii.eqb Bool.eqb].
    fold (metadata_name td "unknown"). rewrite Hname'.
    by destruct n.
  - by rewrite sent_template_get.
  - by rewrite Hget.
  - exact Hsent.
Qed.

Lemma applicator_import_reaches_the_api_witness :
  main (example_tool_env all_succeed) example_args [] = (Done tt, example_trace)
  /\ exists sent n template_name,
       "<template>" = json_dumps (example_tool_env all_succeed) (VDict sent)
       /\ py_len (constraints_of sent) = Ok n
       /\ template_import true (VDict sent)
          = if n =? 0
            then reject true "Missing or empty 'constraints' field"
                   "Missing or empty 'constraints' field in template data"
            else CallApi (VDict sent) (VStr (arg_role_name example_args)) n
                   template_name.
Proof.
  split; [vm_compute; reflexivity|].
  apply (applicator_import_reaches_the_api (example_tool_env all_succeed)
           example_args (Done tt) example_trace "<template>" true).
  - vm_compute. reflexivity.
  - unfold example_trace. right. left.
Defined.
